(** * CodeGraph ingestion: a shallow embedding of
      [codegraph/python/arango_ingest.py] and
      [codegraph/python/typesense_ingest.py].

    Python values are modelled as follows.
    - [str] is [string]: a sequence of 8-bit characters, read as the UTF-8
      encoding of the text, so that [qname.encode()] is the identity.
      Concatenation, [in], [replace], [split] and emptiness behave on the
      encoding as they do on the text. [str.lower], which follows the
      case tables of Unicode, is an operation the embedding is given
      ([StrLower]), known by what it does on ASCII text.
    - the attributes of an entity record that the code reads with
      [node.get(k)] are [option string] fields: [None] is a missing key or a
      JSON null, for which [dict.get] returns [None].
    - [data], a [dict] loaded from JSON, is an association list in iteration
      order; a Python dict has no duplicate keys, which theorems that need
      it state as [NoDup (map fst data)].
    - the routing table [qname_to_coll] is a [gmap string string].
    - the destination ([db], the Typesense [client]) is an environment that
      answers each bulk import with success or an exception; ingestion runs
      in a state-and-exception monad over the record of the calls made. *)

From Stdlib Require Import ZArith Ascii String DecimalString.
From stdpp Require Import base option list gmap strings sorting.

Local Open Scope string_scope.

(* ===================================================================== *)
(** * Python strings *)
(* ===================================================================== *)

Module PyStr.

(** [bool(s)] for a [str]: the empty string is falsy. *)
Definition truthy (s : string) : bool :=
  match s with EmptyString => false | String _ _ => true end.

(** [bool(o)] for a value that is [None] or a [str]. *)
Definition truthy_opt (o : option string) : bool :=
  match o with None => false | Some s => truthy s end.

(** [a or b] where [a] is [None] or a [str]. *)
Definition or_else (o : option string) (d : string) : string :=
  match o with
  | Some s => if truthy s then s else d
  | None => d
  end.

(** [hay.startswith(needle)]. *)
Fixpoint startswith (needle hay : string) : bool :=
  match needle, hay with
  | EmptyString, _ => true
  | String a n, String b h => Ascii.eqb a b && startswith n h
  | String _ _, EmptyString => false
  end.

(** [needle in hay]. *)
Fixpoint contains (needle hay : string) : bool :=
  startswith needle hay ||
  match hay with
  | EmptyString => false
  | String _ h => contains needle h
  end.

(** A character of [A-Z], as the pattern [[A-Z]] of [re] reads it on a
    [str]: the range is one of code points, so it matches ASCII letters
    only, and no byte of a character outside ASCII. *)
Definition is_upper (c : ascii) : bool :=
  let n := N_of_ascii c in (65 <=? n)%N && (n <=? 90)%N.

Definition lower_char (c : ascii) : ascii :=
  if is_upper c then ascii_of_N (N_of_ascii c + 32) else c.

(** The letters [A-Z] made lowercase, every other byte kept. *)
Fixpoint ascii_lower (s : string) : string :=
  match s with
  | EmptyString => EmptyString
  | String c r => String (lower_char c) (ascii_lower r)
  end.

(** A [str] of ASCII characters only: every byte is below 128. *)
Fixpoint is_ascii (s : string) : bool :=
  match s with
  | EmptyString => true
  | String c r => (N_of_ascii c <? 128)%N && is_ascii r
  end.

(** [s.replace(c, by)] for a one-character pattern [c]. *)
Fixpoint replace_char (c : ascii) (by_ : string) (s : string) : string :=
  match s with
  | EmptyString => EmptyString
  | String a r =>
      (if Ascii.eqb a c then by_ else String a EmptyString)
        +:+ replace_char c by_ r
  end.

(** [s.split(c)[-1]]: [split] cuts at every [c], so its last element is
    what follows the last [c]; [acc] is the element being read. *)
Fixpoint split_last_from (c : ascii) (acc : string) (s : string) : string :=
  match s with
  | EmptyString => acc
  | String a r =>
      if Ascii.eqb a c then split_last_from c EmptyString r
      else split_last_from c (acc +:+ String a EmptyString) r
  end.

Definition split_last (c : ascii) (s : string) : string :=
  split_last_from c EmptyString s.

(** [re.sub(r"(?<!^)(?=[A-Z])", "_", s)]: the pattern matches the empty
    string at every position that is not the start of the string and is
    followed by a character of [A-Z]; each match is replaced by ["_"]. *)
Fixpoint sub_before_upper (at_start : bool) (s : string) : string :=
  match s with
  | EmptyString => EmptyString
  | String c r =>
      let rest := String c (sub_before_upper false r) in
      if negb at_start && is_upper c then String "_" rest else rest
  end.

End PyStr.

(** [str.lower]. Python lowercases every cased character of Unicode, from
    the tables of its Unicode database (and reads a final sigma by its
    context); those tables are not part of this program. The method is
    therefore an operation the embedding is given, of which it knows what
    Python guarantees on ASCII text: there [s.lower()] is the lowercase of
    the letters [A-Z]. Every definition that calls [lower] takes it from
    here, and every theorem about them holds for each such operation,
    Python's among them. *)
Class StrLower := {
  str_lower : string -> string;
  str_lower_ascii :
    forall s, PyStr.is_ascii s = true -> str_lower s = PyStr.ascii_lower s;
}.

(** The lowercase of ASCII letters alone is such an operation; the sample
    inputs below, all ASCII, are run with it. *)
Definition ascii_only : StrLower :=
  {| str_lower := PyStr.ascii_lower;
     str_lower_ascii := fun _ _ => eq_refl |}.

(** An operation that goes further, as Python does: besides the letters
    [A-Z] it lowercases the letter U+00C9 (capital E with acute, bytes 195
    137 in UTF-8) to U+00E9 (bytes 195 169). *)
Fixpoint lower_e_acute (s : string) : string :=
  match s with
  | EmptyString => EmptyString
  | String a r =>
      match r with
      | String b r' =>
          if (N_of_ascii a =? 195)%N && (N_of_ascii b =? 137)%N
          then String a (String (ascii_of_N 169) (lower_e_acute r'))
          else String (PyStr.lower_char a) (lower_e_acute r)
      | EmptyString => String (PyStr.lower_char a) EmptyString
      end
  end.

Definition with_e_acute : StrLower.
Proof.
  refine {| str_lower := lower_e_acute |}.
  induction s as [|a r IH]; [reflexivity |].
  intros H. cbn [PyStr.is_ascii] in H.
  apply andb_prop in H as [Ha Hr]. specialize (IH Hr).
  cbn [lower_e_acute PyStr.ascii_lower]. destruct r as [|b r'];
    [reflexivity |].
  replace (N_of_ascii a =? 195)%N with false.
  - cbn [andb]. now rewrite IH.
  - symmetry. apply N.eqb_neq. apply N.ltb_lt in Ha. intros E.
    rewrite E in Ha. discriminate.
Defined.

(* ===================================================================== *)
(** * [hashlib.md5]: RFC 1321 on 32-bit words held in [Z] *)
(* ===================================================================== *)

Module MD5.
Local Open Scope Z_scope.

Definition mask32 : Z := 0xffffffff.
Definition wrap32 (x : Z) : Z := Z.land x mask32.
Definition add32 (x y : Z) : Z := wrap32 (x + y).
Definition not32 (x : Z) : Z := Z.lxor x mask32.
Definition rotl32 (x : Z) (s : Z) : Z :=
  Z.lor (wrap32 (Z.shiftl x s)) (Z.shiftr x (32 - s)).

Definition shifts : list Z :=
  [ 7; 12; 17; 22; 7; 12; 17; 22; 7; 12; 17; 22; 7; 12; 17; 22;
    5;  9; 14; 20; 5;  9; 14; 20; 5;  9; 14; 20; 5;  9; 14; 20;
    4; 11; 16; 23; 4; 11; 16; 23; 4; 11; 16; 23; 4; 11; 16; 23;
    6; 10; 15; 21; 6; 10; 15; 21; 6; 10; 15; 21; 6; 10; 15; 21 ].

Definition sines : list Z :=
  [ 0xd76aa478; 0xe8c7b756; 0x242070db; 0xc1bdceee;
    0xf57c0faf; 0x4787c62a; 0xa8304613; 0xfd469501;
    0x698098d8; 0x8b44f7af; 0xffff5bb1; 0x895cd7be;
    0x6b901122; 0xfd987193; 0xa679438e; 0x49b40821;
    0xf61e2562; 0xc040b340; 0x265e5a51; 0xe9b6c7aa;
    0xd62f105d; 0x02441453; 0xd8a1e681; 0xe7d3fbc8;
    0x21e1cde6; 0xc33707d6; 0xf4d50d87; 0x455a14ed;
    0xa9e3e905; 0xfcefa3f8; 0x676f02d9; 0x8d2a4c8a;
    0xfffa3942; 0x8771f681; 0x6d9d6122; 0xfde5380c;
    0xa4beea44; 0x4bdecfa9; 0xf6bb4b60; 0xbebfbc70;
    0x289b7ec6; 0xeaa127fa; 0xd4ef3085; 0x04881d05;
    0xd9d4d039; 0xe6db99e5; 0x1fa27cf8; 0xc4ac5665;
    0xf4292244; 0x432aff97; 0xab9423a7; 0xfc93a039;
    0x655b59c3; 0x8f0ccc92; 0xffeff47d; 0x85845dd1;
    0x6fa87e4f; 0xfe2ce6e0; 0xa3014314; 0x4e0811a1;
    0xf7537e82; 0xbd3af235; 0x2ad7d2bb; 0xeb86d391 ].

(** The sixty-four operations: index, additive constant, rotation. *)
Definition schedule : list (Z * Z * Z) :=
  zip (zip (map Z.of_nat (seq 0 64)) sines) shifts.

Definition bytes_of_string (s : string) : list Z :=
  map (fun c => Z.of_N (N_of_ascii c)) (list_ascii_of_string s).

(** [n] as [k] little-endian bytes. *)
Fixpoint le_bytes (k : nat) (n : Z) : list Z :=
  match k with
  | O => []
  | S k' => Z.land n 0xff :: le_bytes k' (Z.shiftr n 8)
  end.

Definition pad (msg : list Z) : list Z :=
  let len := Z.of_nat (length msg) in
  let zeros := Z.to_nat ((55 - len) mod 64) in
  msg ++ [0x80] ++ repeat 0 zeros ++ le_bytes 8 (Z.land (8 * len) 0xffffffffffffffff).

Fixpoint words_of_bytes (fuel : nat) (bs : list Z) : list Z :=
  match fuel, bs with
  | S fuel', b0 :: b1 :: b2 :: b3 :: rest =>
      (b0 + Z.shiftl b1 8 + Z.shiftl b2 16 + Z.shiftl b3 24)
        :: words_of_bytes fuel' rest
  | _, _ => []
  end.

Definition round (M : list Z) (st : Z * Z * Z * Z) (op : Z * Z * Z)
  : Z * Z * Z * Z :=
  let '(A, B, C, D) := st in
  let '(i, k, s) := op in
  let '(F, g) :=
    if i <? 16 then (Z.lor (Z.land B C) (Z.land (not32 B) D), i)
    else if i <? 32 then
      (Z.lor (Z.land D B) (Z.land (not32 D) C), (5 * i + 1) mod 16)
    else if i <? 48 then (Z.lxor (Z.lxor B C) D, (3 * i + 5) mod 16)
    else (Z.lxor C (Z.lor B (not32 D)), (7 * i) mod 16) in
  let F' := add32 (add32 (add32 F A) k) (nth (Z.to_nat g) M 0) in
  (D, add32 B (rotl32 F' s), B, C).

Definition chunk (st : Z * Z * Z * Z) (M : list Z) : Z * Z * Z * Z :=
  let '(a0, b0, c0, d0) := st in
  let '(A, B, C, D) := fold_left (round M) schedule st in
  (add32 a0 A, add32 b0 B, add32 c0 C, add32 d0 D).

Fixpoint chunks (fuel : nat) (ws : list Z) : list (list Z) :=
  match fuel, ws with
  | S fuel', _ :: _ => firstn 16 ws :: chunks fuel' (skipn 16 ws)
  | _, _ => []
  end.

Definition digest (msg : list Z) : list Z :=
  let bs := pad msg in
  let ws := words_of_bytes (length bs) bs in
  let '(a, b, c, d) :=
    fold_left chunk (chunks (length ws) ws)
      (0x67452301, 0xefcdab89, 0x98badcfe, 0x10325476) in
  le_bytes 4 a ++ le_bytes 4 b ++ le_bytes 4 c ++ le_bytes 4 d.

Definition hex_digit (n : Z) : ascii :=
  ascii_of_N (Z.to_N (if n <? 10 then 48 + n else 87 + n)).

Fixpoint hex_of_bytes (bs : list Z) : string :=
  match bs with
  | [] => EmptyString
  | b :: r =>
      String (hex_digit (Z.shiftr b 4))
        (String (hex_digit (Z.land b 0xf)) (hex_of_bytes r))
  end.

(** [hashlib.md5(b).hexdigest()] *)
Definition hexdigest (s : string) : string :=
  hex_of_bytes (digest (bytes_of_string s)).

End MD5.


(** [hashlib.md5(qname.encode()).hexdigest()[:16]] *)
Definition make_key (qname : string) : string :=
  substring 0 16 (MD5.hexdigest qname).

(* ===================================================================== *)
(** * Python dicts, in iteration order *)
(* ===================================================================== *)

Module PyDict.
Section Dict.
Context {V : Type}.

(** [d.get(k)] *)
Fixpoint get (k : string) (d : list (string * V)) : option V :=
  match d with
  | [] => None
  | (k', v) :: r => if String.eqb k' k then Some v else get k r
  end.

(** [d[k] = v]: an existing key keeps its place, a new one goes last. *)
Fixpoint set (k : string) (v : V) (d : list (string * V))
  : list (string * V) :=
  match d with
  | [] => [(k, v)]
  | (k', v') :: r =>
      if String.eqb k' k then (k', v) :: r else (k', v') :: set k v r
  end.

(** [{k: v for k in ks}] *)
Definition from_keys (ks : list string) (v : V) : list (string * V) :=
  fold_left (fun d k => set k v d) ks [].
End Dict.
End PyDict.

(* ===================================================================== *)
(** * The input: entity records and their relations *)
(* ===================================================================== *)

Module Pos.
(** The object under ["pos"]. *)
Record t := Make { start : option Z; end_ : option Z }.
End Pos.

Module Rel.
Record t := Make {
  rel_type : option string;
  source : option string;
  target : option string;
  pos : option Pos.t;
}.
End Rel.

Module Node.
(** One value of [data]. [qualified_name] and [pos] are read with a
    default ([node.get(k, default)]): there [None] is a missing key. *)
Record t := Make {
  name : option string;
  kind : option string;
  docstring : option string;
  filepath : option string;
  parent_qualified_name : option string;
  qualified_name : option string;
  code : option string;
  pos : option Pos.t;
  relations : list Rel.t;
}.

(** [{}.get(k)] is [None] for every key: the record [data.get(q, {})]
    falls back to. *)
Definition empty : t := Make None None None None None None None None [].
End Node.

(** [node.get("pos", {}).get("start")] and [... .get("end")] *)
Definition pos_start (p : option Pos.t) : option Z :=
  match p with Some p => Pos.start p | None => None end.
Definition pos_end (p : option Pos.t) : option Z :=
  match p with Some p => Pos.end_ p | None => None end.

(** [bool(x)] for a position that is [None] or an [int]. *)
Definition truthy_int (x : option Z) : bool :=
  match x with Some z => negb (z =? 0)%Z | None => false end.

(* ===================================================================== *)
(** * The destination, and the monad ingestion runs in *)
(* ===================================================================== *)

Section Sink.
Context {D : Type}.

(** One bulk import: where, what, and the exception it raised if any. *)
Record call := Call {
  call_collection : string;
  call_docs : list D;
  call_error : option string;
}.

Record world := World {
  calls : list call;       (* bulk imports so far, oldest first *)
  stdout : list string;    (* lines printed so far *)
}.

(** The destination decides each import from the calls before it, the
    collection and the batch: [None] is success, [Some e] the message of
    the exception raised. *)
Definition destination := list call -> string -> list D -> option string.

Inductive outcome (A : Type) :=
| Return (a : A)
| Raise (e : string).
Global Arguments Return {A} a.
Global Arguments Raise {A} e.

Definition M (A : Type) := world -> outcome A * world.

Definition ret {A} (a : A) : M A := fun w => (Return a, w).

Definition bind {A B} (m : M A) (k : A -> M B) : M B := fun w =>
  match m w with
  | (Return a, w') => k a w'
  | (Raise e, w') => (Raise e, w')
  end.

Definition raise {A} (e : string) : M A := fun w => (Raise e, w).

(** [print(line)] *)
Definition print (line : string) : M unit := fun w =>
  (Return tt, World (calls w) (stdout w ++ [line])).

(** [try: body / except Exception as e: handler(e)] *)
Definition try_except {A} (body : M A) (handler : string -> M A) : M A :=
  fun w =>
    match body w with
    | (Return a, w') => (Return a, w')
    | (Raise e, w') => handler e w'
    end.

(** [db.collection(c).import_bulk(docs, on_duplicate="replace")], and
    [client.collections[c].documents.import_(docs, {"action": "upsert"})] *)
Definition import_bulk (db : destination) (c : string) (docs : list D)
  : M unit := fun w =>
    let r := db (calls w) c docs in
    let w' := World (calls w ++ [Call c docs r]) (stdout w) in
    match r with
    | None => (Return tt, w')
    | Some e => (Raise e, w')
    end.

(** [for x in xs: s = body(x, s)], where [s] holds the variables the
    loop assigns. *)
Fixpoint for_each {X S : Type} (xs : list X) (body : X -> S -> M S) (s : S)
  : M S :=
  match xs with
  | [] => ret s
  | x :: r => bind (body x s) (for_each r body)
  end.

(** [batches[c]], raising [KeyError] on a missing key. *)
Definition getitem (batches : list (string * list D)) (c : string)
  : M (list D) :=
  match PyDict.get c batches with
  | Some docs => ret docs
  | None => raise ("KeyError: " +:+ c)
  end.

Definition start_world : world := World [] [].

(** What the destination was handed for collection [c], and what it
    accepted, in order. *)
Definition attempted (c : string) (w : world) : list D :=
  flat_map (fun k => if String.eqb (call_collection k) c
                     then call_docs k else []) (calls w).

Definition delivered (c : string) (w : world) : list D :=
  flat_map (fun k => if String.eqb (call_collection k) c
                     then match call_error k with
                          | None => call_docs k
                          | Some _ => []
                          end
                     else []) (calls w).

(** A destination that is always available. *)
Definition always_up : destination := fun _ _ _ => None.
End Sink.

Arguments call : clear implicits.
Arguments world : clear implicits.
Arguments destination : clear implicits.
Arguments M : clear implicits.

Declare Scope ingest_scope.
Delimit Scope ingest_scope with ingest.
Notation "x <- m ;; k" := (bind m (fun x => k))
  (at level 100, m at next level, right associativity) : ingest_scope.
Notation "m ;;; k" := (bind m (fun _ => k))
  (at level 100, right associativity) : ingest_scope.
Local Open Scope ingest_scope.

(* ===================================================================== *)
(** * arango_ingest.py *)
(* ===================================================================== *)

Module NodeDoc.
(** The lean document of [ingest_nodes]; [is_async] and [is_method] are
    keys that are either absent or [True]. *)
Record t := Make {
  _key : string;
  qname : string;
  name : option string;
  kind : option string;
  doc : option string;
  filepath : option string;
  namespace : option string;
  language : string;
  pos : option Z;
  end_ : option Z;
  is_async : bool;
  is_method : bool;
}.
End NodeDoc.

Module EdgeDoc.
Record t := Make {
  _key : string;
  _from : string;
  _to : string;
  call_site_pos : option Z;
}.
End EdgeDoc.

(** What [import_bulk] is handed: node documents and edge documents. *)
Inductive arango_doc :=
| NodeD (d : NodeDoc.t)
| EdgeD (d : EdgeDoc.t).

Definition KIND_TO_COLLECTION : list (string * option string) :=
  [ ("class", Some "types");
    ("function", Some "functions");
    ("async_function", Some "functions");
    ("module", Some "modules");
    ("params_of", None);
    ("returns", None);
    ("import", None);
    ("assignment", Some "members");
    ("augmented_assignment", Some "members") ].

Definition REL_TO_EDGE_COLLECTION : list (string * option string) :=
  [ ("CALLS", Some "calls");
    ("CALLED_BY", None);
    ("INHERITS_FROM", Some "inherits");
    ("DECORATED_BY", Some "decorated_by");
    ("PARAM_OF", Some "param_of");
    ("RETURNS", Some "returns");
    ("IMPORTS", Some "imports");
    ("CLASS_DEF", Some "parent");
    ("FUNCTION_DEF", Some "parent") ].

Definition NODE_COLLECTIONS : list string :=
  [ "functions"; "types"; "members"; "files"; "modules" ].

Record edge_definition := EdgeDefinition {
  edge_collection : string;
  from_vertex_collections : list string;
  to_vertex_collections : list string;
}.

Definition EDGE_DEFINITIONS : list edge_definition :=
  [ EdgeDefinition "calls" ["functions"] ["functions"];
    EdgeDefinition "implements" ["types"] ["types"];
    EdgeDefinition "inherits" ["types"] ["types"];
    EdgeDefinition "returns" ["functions"] ["types"];
    EdgeDefinition "param_of" ["types"] ["functions"];
    EdgeDefinition "parent" ["functions"; "members"] ["types"; "files"; "modules"];
    EdgeDefinition "imports" ["files"; "modules"] ["modules"];
    EdgeDefinition "decorated_by" ["functions"; "types"] ["functions"] ].

(** [x == s] for [x] that is [None] or a [str]. *)
Definition opt_eqb (x : option string) (s : string) : bool :=
  match x with Some y => String.eqb y s | None => false end.

Definition determine_collection (node : Node.t) : option string :=
  let kind := Node.kind node in
  let parent_qname := Node.parent_qualified_name node in
  match kind with
  | Some kind =>
      match PyDict.get kind KIND_TO_COLLECTION with
      | Some coll =>
          if PyStr.truthy_opt coll then
            if String.eqb kind "assignment"
               || String.eqb kind "augmented_assignment" then
              match parent_qname with
              | Some parent_qname =>
                  if PyStr.truthy parent_qname
                     && negb (PyStr.contains ".assignment." parent_qname)
                  then Some "members"
                  else None
              | None => None
              end
            else coll
          else None
      | None => None
      end
  | None => None   (* [None in KIND_TO_COLLECTION] is false *)
  end.

(** The document built for one classified entity, lines 136-158 of
    [ingest_nodes]. *)
Definition node_document (data : list (string * Node.t))
    (qname : string) (node : Node.t) (collection : string) : NodeDoc.t :=
  let async := opt_eqb (Node.kind node) "async_function" in
  let method :=
    String.eqb collection "functions"
    && PyStr.truthy_opt (Node.parent_qualified_name node)
    && match Node.parent_qualified_name node with
       | Some p =>
           let parent := default Node.empty (PyDict.get p data) in
           opt_eqb (Node.kind parent) "class"
       | None => false
       end in
  {| NodeDoc._key := make_key qname;
     NodeDoc.qname := qname;
     NodeDoc.name := Node.name node;
     NodeDoc.kind := if async then Some "function" else Node.kind node;
     NodeDoc.doc := Node.docstring node;
     NodeDoc.filepath := Node.filepath node;
     NodeDoc.namespace := Node.parent_qualified_name node;
     NodeDoc.language := "python";
     NodeDoc.pos := pos_start (Node.pos node);
     NodeDoc.end_ := pos_end (Node.pos node);
     NodeDoc.is_async := async;
     NodeDoc.is_method := method |}.

(** The body of the loop of [ingest_nodes] on its two variables
    [qname_to_collection] and [batches]. *)
Definition ingest_nodes_body (batch_size : nat) (db : destination arango_doc)
    (data : list (string * Node.t)) (item : string * Node.t)
    (vars : gmap string string * list (string * list arango_doc))
  : M arango_doc (gmap string string * list (string * list arango_doc)) :=
  let '(qname, node) := item in
  let '(qname_to_collection, batches) := vars in
  match determine_collection node with
  | None => ret (qname_to_collection, batches)            (* continue *)
  | Some collection =>
      let qname_to_collection := <[qname := collection]> qname_to_collection in
      let doc := node_document data qname node collection in
      docs <- getitem batches collection ;;
      let batches := PyDict.set collection (docs ++ [NodeD doc])%list batches in
      docs <- getitem batches collection ;;
      if (batch_size <=? length docs)%nat then
        import_bulk db collection docs ;;;
        ret (qname_to_collection, PyDict.set collection [] batches)
      else ret (qname_to_collection, batches)
  end.

(** The closing loop of [ingest_nodes]: no [try] around the import. *)
Definition flush_remaining_nodes (db : destination arango_doc)
    (item : string * list arango_doc) (_ : unit) : M arango_doc unit :=
  let '(collection, docs) := item in
  match docs with
  | [] => ret tt
  | _ :: _ => import_bulk db collection docs
  end.

Definition ingest_nodes_with (batch_size : nat) (db : destination arango_doc)
    (data : list (string * Node.t)) : M arango_doc (gmap string string) :=
  let qname_to_collection : gmap string string := ∅ in
  let batches := PyDict.from_keys NODE_COLLECTIONS [] in
  vars <- for_each data (ingest_nodes_body batch_size db data)
            (qname_to_collection, batches) ;;
  let '(qname_to_collection, batches) := vars in
  for_each batches (flush_remaining_nodes db) tt ;;;
  ret qname_to_collection.

Definition ingest_nodes := ingest_nodes_with 1000.

(** Lines 184-229 of [ingest_edges]: what one relation becomes before it
    is buffered. [None] is every [continue]; otherwise the edge collection
    and the edge document. *)
Definition resolve_relation (data : list (string * Node.t))
    (qname_to_coll : gmap string string) (rel : Rel.t)
  : option (string * EdgeDoc.t) :=
  match Rel.rel_type rel, Rel.source rel, Rel.target rel with
  | Some rel_type, Some source, Some target =>
      if negb (PyStr.truthy rel_type) || negb (PyStr.truthy source)
         || negb (PyStr.truthy target) then None
      else
        match PyDict.get rel_type REL_TO_EDGE_COLLECTION with
        | Some (Some edge_coll) =>
            if negb (PyStr.truthy edge_coll) then None else
            let source_coll := qname_to_coll !! source in
            let target_coll := qname_to_coll !! target in
            (* constructor calls are redirected to __init__ *)
            let redirected :=
              if String.eqb edge_coll "calls" && opt_eqb target_coll "types"
              then
                let init_qname := target +:+ ".__init__" in
                match qname_to_coll !! init_qname with
                | Some c => Some (init_qname, Some c)
                | None => None                               (* continue *)
                end
              else Some (target, target_coll) in
            match redirected with
            | None => None
            | Some (target, target_coll) =>
                (* a parent edge may point at a module outside the table;
                   the match is [target in data and data[target]...] *)
                let target_coll :=
                  if String.eqb edge_coll "parent"
                     && negb (PyStr.truthy_opt target_coll) then
                    match PyDict.get target data with
                    | Some t =>
                        if opt_eqb (Node.kind t) "module"
                        then Some "modules" else target_coll
                    | None => target_coll
                    end
                  else target_coll in
                match source_coll, target_coll with
                | Some source_coll, Some target_coll =>
                    if negb (PyStr.truthy source_coll)
                       || negb (PyStr.truthy target_coll) then None
                    else
                      let start := pos_start (Rel.pos rel) in
                      Some (edge_coll,
                        {| EdgeDoc._key :=
                             make_key (source +:+ ":" +:+ target
                                       +:+ ":" +:+ rel_type);
                           EdgeDoc._from :=
                             source_coll +:+ "/" +:+ make_key source;
                           EdgeDoc._to :=
                             target_coll +:+ "/" +:+ make_key target;
                           EdgeDoc.call_site_pos :=
                             if String.eqb edge_coll "calls"
                                && truthy_int start
                             then start else None |})
                | _, _ => None
                end
            end
        | _ => None
        end
  | _, _, _ => None
  end.

(** [print(f"  Warning: Failed to import {edge_coll} edges: {e}")] *)
Definition warn_edges (edge_coll e : string) : M arango_doc unit :=
  print ("  Warning: Failed to import " +:+ edge_coll +:+ " edges: " +:+ e).

(** The body of the inner loop of [ingest_edges] on its variable
    [batches]. *)
Definition ingest_edges_body (batch_size : nat) (db : destination arango_doc)
    (data : list (string * Node.t)) (qname_to_coll : gmap string string)
    (rel : Rel.t) (batches : list (string * list arango_doc))
  : M arango_doc (list (string * list arango_doc)) :=
  match resolve_relation data qname_to_coll rel with
  | None => ret batches                                   (* continue *)
  | Some (edge_coll, edge_doc) =>
      docs <- getitem batches edge_coll ;;
      let batches := PyDict.set edge_coll (docs ++ [EdgeD edge_doc])%list batches in
      docs <- getitem batches edge_coll ;;
      if (batch_size <=? length docs)%nat then
        try_except (import_bulk db edge_coll docs) (warn_edges edge_coll) ;;;
        ret (PyDict.set edge_coll [] batches)
      else ret batches
  end.

Definition flush_remaining_edges (db : destination arango_doc)
    (item : string * list arango_doc) (_ : unit) : M arango_doc unit :=
  let '(edge_coll, docs) := item in
  match docs with
  | [] => ret tt
  | _ :: _ =>
      try_except (import_bulk db edge_coll docs) (warn_edges edge_coll)
  end.

(** [{e["edge_collection"] for e in EDGE_DEFINITIONS}]: a set, iterated in
    whatever order [elements] gives. *)
Definition edge_collections : gset string :=
  list_to_set (map edge_collection EDGE_DEFINITIONS).

Definition ingest_edges_with (batch_size : nat) (db : destination arango_doc)
    (data : list (string * Node.t)) (qname_to_coll : gmap string string)
  : M arango_doc unit :=
  let batches := PyDict.from_keys (elements edge_collections) [] in
  batches <-
    for_each data (fun item batches =>
      let '(qname, node) := item in
      let relations := Node.relations node in
      for_each relations (ingest_edges_body batch_size db data qname_to_coll)
        batches) batches ;;
  for_each batches (flush_remaining_edges db) tt.

Definition ingest_edges := ingest_edges_with 1000.

(** The two ingestion steps of [main], lines 316-326, with its progress
    messages. *)
Definition string_of_nat (n : nat) : string :=
  DecimalString.NilZero.string_of_uint (Nat.to_uint n).

Definition ingest_all_with (batch_size : nat) (db : destination arango_doc)
    (data : list (string * Node.t)) : M arango_doc unit :=
  print "Ingesting nodes..." ;;;
  qname_to_coll <- ingest_nodes_with batch_size db data ;;
  print ("  Ingested " +:+ string_of_nat (size qname_to_coll) +:+ " nodes") ;;;
  print "Ingesting edges..." ;;;
  ingest_edges_with batch_size db data qname_to_coll ;;;
  print "  Done".

Definition ingest_all := ingest_all_with 1000.

(* ===================================================================== *)
(** * typesense_ingest.py *)
(* ===================================================================== *)

Module SearchDoc.
(** The search document; the optional keys are [None] when not set. *)
Record t := Make {
  id : string;
  qname : string;
  name : string;
  name_variants : list string;
  kind : string;
  language : string;
  code : option string;
  doc : option string;
  filepath : option string;
  namespace : option string;
  pos : option Z;
  end_ : option Z;
}.
End SearchDoc.

Definition INDEXABLE_KINDS : list string :=
  [ "class"; "function"; "async_function"; "module"; "assignment" ].

(** [x in xs] on strings. *)
Definition str_in (x : string) (xs : list string) : bool :=
  existsb (String.eqb x) xs.

(** [xs.append(x)] unless [x in xs]. *)
Definition append_if_new (x : string) (xs : list string) : list string :=
  if str_in x xs then xs else (xs ++ [x])%list.

Definition make_name_variants {L : StrLower} (name : option string)
  : list string :=
  match name with
  | None => []
  | Some name =>
      if negb (PyStr.truthy name) then [] else
      let variants := [name] in
      let lower := str_lower name in
      let variants := append_if_new lower variants in
      let snake := str_lower (PyStr.sub_before_upper true name) in
      let variants := append_if_new snake variants in
      let no_underscore := PyStr.replace_char "_" "" name in
      let variants := append_if_new no_underscore variants in
      variants
  end.

Definition should_index (node : Node.t) : bool :=
  let kind := Node.kind node in
  match kind with
  | Some kind =>
      if negb (str_in kind INDEXABLE_KINDS) then false
      else
        let qname := default "" (Node.qualified_name node) in
        if PyStr.contains ".param." qname || PyStr.contains ".return" qname
           || PyStr.contains ".yields." qname then false
        else true
  | None => false     (* [None not in INDEXABLE_KINDS] *)
  end.

(** [x if x else absent] for the optional keys of the document. *)
Definition if_truthy (x : option string) : option string :=
  if PyStr.truthy_opt x then x else None.

(** The document built for one indexed entity, lines 113-138 of
    [ingest_documents]. *)
Definition search_document {L : StrLower} (qname : string) (node : Node.t)
  : SearchDoc.t :=
  let name := PyStr.or_else (Node.name node) (PyStr.split_last "." qname) in
  let start := pos_start (Node.pos node) in
  let end_ := pos_end (Node.pos node) in
  {| SearchDoc.id := PyStr.replace_char "." "_" (PyStr.replace_char "/" "_" qname);
     SearchDoc.qname := qname;
     SearchDoc.name := name;
     SearchDoc.name_variants := make_name_variants (Some name);
     SearchDoc.kind := default "unknown" (Node.kind node);
     SearchDoc.language := "python";
     SearchDoc.code := if_truthy (Node.code node);
     SearchDoc.doc := if_truthy (Node.docstring node);
     SearchDoc.filepath := if_truthy (Node.filepath node);
     SearchDoc.namespace := if_truthy (Node.parent_qualified_name node);
     SearchDoc.pos := if truthy_int start then start else None;
     SearchDoc.end_ := if truthy_int end_ then end_ else None |}.

(** The body of the loop of [ingest_documents] on its two variables
    [batch] and [total_indexed]. *)
Definition ingest_documents_body {L : StrLower} (batch_size : nat)
    (client : destination SearchDoc.t) (collection_name : string)
    (item : string * Node.t) (vars : list SearchDoc.t * nat)
  : M SearchDoc.t (list SearchDoc.t * nat) :=
  let '(qname, node) := item in
  let '(batch, total_indexed) := vars in
  if negb (should_index node) then ret (batch, total_indexed)  (* continue *)
  else
    let doc := search_document qname node in
    let batch := (batch ++ [doc])%list in
    if (batch_size <=? length batch)%nat then
      total_indexed <-
        try_except
          (import_bulk client collection_name batch ;;;
           ret (total_indexed + length batch)%nat)
          (fun e =>
             print ("  Warning: Failed to import batch: " +:+ e) ;;;
             ret total_indexed) ;;
      ret ([], total_indexed)
    else ret (batch, total_indexed).

Definition ingest_documents_with {L : StrLower} (batch_size : nat)
    (client : destination SearchDoc.t) (data : list (string * Node.t))
    (collection_name : string) : M SearchDoc.t nat :=
  vars <- for_each data
            (ingest_documents_body batch_size client collection_name)
            ([], 0%nat) ;;
  let '(batch, total_indexed) := vars in
  match batch with
  | [] => ret total_indexed
  | _ :: _ =>
      try_except
        (import_bulk client collection_name batch ;;;
         ret (total_indexed + length batch)%nat)
        (fun e =>
           print ("  Warning: Failed to import final batch: " +:+ e) ;;;
           ret total_indexed)
  end.

Definition ingest_documents {L : StrLower} (client : destination SearchDoc.t)
    (data : list (string * Node.t)) (collection_name : string) :=
  ingest_documents_with 100 client data collection_name.

(* ===================================================================== *)
(** * What ingestion is expected to hand over *)
(* ===================================================================== *)

(** The documents of a stream of (collection, document) pairs that go to
    collection [c], in order. *)
Definition for_collection {D : Type} (c : string) (stream : list (string * D))
  : list D :=
  flat_map (fun p => if String.eqb (fst p) c then [snd p] else []) stream.

(** The entities of [items] that classify, each with its node class and
    document; [data] is the whole input, which [is_method] looks into. *)
Definition classify_entry (data : list (string * Node.t))
    (item : string * Node.t) : list (string * arango_doc) :=
  match determine_collection (snd item) with
  | Some c => [(c, NodeD (node_document data (fst item) (snd item) c))]
  | None => []
  end.

Definition classified_in (data items : list (string * Node.t))
  : list (string * arango_doc) :=
  flat_map (classify_entry data) items.

Definition classified (data : list (string * Node.t)) :=
  classified_in data data.

(** The routing table: the qnames that classify, with their node class. *)
Definition routing_step (tbl : gmap string string) (item : string * Node.t)
  : gmap string string :=
  match determine_collection (snd item) with
  | Some c => <[fst item := c]> tbl
  | None => tbl
  end.

Definition routing_table (data : list (string * Node.t)) : gmap string string :=
  fold_left routing_step data ∅.

(** Every relation of every entity, in iteration order. *)
Definition all_relations (data : list (string * Node.t)) : list Rel.t :=
  flat_map (fun item => Node.relations (snd item)) data.

Definition resolve_entry (data : list (string * Node.t))
    (qname_to_coll : gmap string string) (rel : Rel.t)
  : list (string * arango_doc) :=
  match resolve_relation data qname_to_coll rel with
  | Some (c, e) => [(c, EdgeD e)]
  | None => []
  end.

Definition resolved (data : list (string * Node.t))
    (qname_to_coll : gmap string string) : list (string * arango_doc) :=
  flat_map (resolve_entry data qname_to_coll) (all_relations data).

(** The search documents of the entities that are indexed. *)
Definition index_entry {L : StrLower} (item : string * Node.t)
  : list SearchDoc.t :=
  if should_index (snd item) then [search_document (fst item) (snd item)]
  else [].

Definition indexed {L : StrLower} (data : list (string * Node.t))
  : list SearchDoc.t :=
  flat_map index_entry data.

(** ** The buffering shared by [ingest_nodes] and [ingest_edges] *)

(** An import as [ingest_nodes] makes it ([None]: unprotected) or as
    [ingest_edges] makes it ([Some fmt]: inside a [try] whose handler
    prints [fmt e]). *)
Definition guarded {D : Type} (catch : option (string -> string))
    (m : M D unit) : M D unit :=
  match catch with
  | None => m
  | Some fmt => try_except m (fun e => print (fmt e))
  end.

(** Append to the buffer of [c]; import and empty it when it is full. *)
Definition buffer_and_flush {D : Type} (catch : option (string -> string))
    (batch_size : nat) (db : destination D) (c : string) (d : D)
    (batches : list (string * list D)) : M D (list (string * list D)) :=
  docs <- getitem batches c ;;
  let batches := PyDict.set c (docs ++ [d])%list batches in
  docs <- getitem batches c ;;
  if (batch_size <=? length docs)%nat then
    guarded catch (import_bulk db c docs) ;;;
    ret (PyDict.set c [] batches)
  else ret batches.

(** Import what is left in one buffer; [catch] tells, for the collection
    of the buffer, how the import is protected. *)
Definition flush_remaining {D : Type}
    (catch : string -> option (string -> string))
    (db : destination D) (item : string * list D) (_ : unit) : M D unit :=
  match snd item with
  | [] => ret tt
  | _ :: _ => guarded (catch (fst item)) (import_bulk db (fst item) (snd item))
  end.

(** The message format of [warn_edges]. *)
Definition edges_warning (edge_coll e : string) : string :=
  "  Warning: Failed to import " +:+ edge_coll +:+ " edges: " +:+ e.

(** The buffer of [c], empty when there is none. *)
Definition pending {D : Type} (c : string) (batches : list (string * list D))
  : list D :=
  default [] (PyDict.get c batches).

(** Every document of [stream] has been handed to the destination or
    waits in the buffer of its collection, in order; [w0] is the world
    ingestion started in. *)
Definition Buffered {D : Type} (w0 : world D) (stream : list (string * D))
    (batches : list (string * list D)) (w : world D) : Prop :=
  forall c, (attempted c w ++ pending c batches
             = attempted c w0 ++ for_collection c stream)%list.

(** What was handed to the destination is, per collection, the beginning
    of [stream]. *)
Definition Handed {D : Type} (w0 : world D) (stream : list (string * D))
    (w : world D) : Prop :=
  forall c, exists rest,
    (attempted c w ++ rest = attempted c w0 ++ for_collection c stream)%list.

(** No import of [w] raised. *)
Definition all_accepted {D : Type} (w : world D) : Prop :=
  Forall (fun k => call_error k = None) (calls w).

(** [m] keeps a property of the world, whatever its outcome. *)
Definition keeps {D A : Type} (P : world D -> Prop) (m : M D A) : Prop :=
  forall w, P w -> P (snd (m w)).




(** The collection of a ["collection/key"] reference: what comes before
    the first ["/"]. *)
Fixpoint ref_collection (s : string) : string :=
  match s with
  | EmptyString => EmptyString
  | String c r =>
      if Ascii.eqb c "/" then EmptyString else String c (ref_collection r)
  end.

(** An edge document respects the declaration of its edge collection. *)
Definition within_definition (edge_coll : string) (e : EdgeDoc.t) : bool :=
  existsb (fun d =>
    String.eqb (edge_collection d) edge_coll
    && str_in (ref_collection (EdgeDoc._from e)) (from_vertex_collections d)
    && str_in (ref_collection (EdgeDoc._to e)) (to_vertex_collections d))
    EDGE_DEFINITIONS.

(** ** Name variants as the specification words them *)


(** An underscore before each uppercase letter. *)
Fixpoint underscore_before_upper (s : string) : string :=
  match s with
  | EmptyString => EmptyString
  | String c r =>
      if PyStr.is_upper c then String "_" (String c (underscore_before_upper r))
      else String c (underscore_before_upper r)
  end.

(** An underscore before each internal uppercase letter (any but the
    first character), then lowercase. *)
Definition snake_case {L : StrLower} (name : string) : string :=
  str_lower
    match name with
    | EmptyString => EmptyString
    | String c r => String c (underscore_before_upper r)
    end.

Fixpoint without_underscores (s : string) : string :=
  match s with
  | EmptyString => EmptyString
  | String c r =>
      if Ascii.eqb c "_" then without_underscores r
      else String c (without_underscores r)
  end.


(** No [c] in [s]. *)
Fixpoint free_of (c : ascii) (s : string) : bool :=
  match s with
  | EmptyString => true
  | String a r => negb (Ascii.eqb a c) && free_of c r
  end.

(** [seg] is what follows the last ["."] of [qname], or all of [qname]
    when it has none. *)
Definition after_last_dot (qname seg : string) : Prop :=
  free_of "." seg = true
  /\ (qname = seg \/ exists before, qname = before +:+ "." +:+ seg).

(** No synthetic marker in [qname]. *)
Definition no_marker (qname : string) : bool :=
  negb (PyStr.contains ".param." qname)
  && negb (PyStr.contains ".return" qname)
  && negb (PyStr.contains ".yields." qname).

Definition assignment_kind (node : Node.t) : Prop :=
  Node.kind node = Some "assignment"
  \/ Node.kind node = Some "augmented_assignment".

(* ===================================================================== *)
(** * Sample inputs *)
(* ===================================================================== *)

(** An entity record with a kind, a parent and relations, nothing else. *)
Definition entity (kind : string) (parent : option string)
    (relations : list Rel.t) : Node.t :=
  Node.Make None (Some kind) None None parent None None None relations.

Definition relation (rel_type source target : string) : Rel.t :=
  Rel.Make (Some rel_type) (Some source) (Some target) None.

(** A module with a class, its initializer, a function that constructs
    the class, and a constant. *)
Definition shop_data : list (string * Node.t) :=
  [ ("shop", entity "module" None []);
    ("shop.Cart", entity "class" (Some "shop")
       [relation "CLASS_DEF" "shop.Cart" "shop"]);
    ("shop.Cart.__init__", entity "function" (Some "shop.Cart")
       [relation "FUNCTION_DEF" "shop.Cart.__init__" "shop.Cart"]);
    ("shop.checkout", entity "async_function" (Some "shop")
       [relation "CALLS" "shop.checkout" "shop.Cart";
        relation "FUNCTION_DEF" "shop.checkout" "shop"]);
    ("shop.LIMIT", entity "assignment" (Some "shop") []);
    ("shop.scratch", entity "assignment" None []) ].


(** A class whose [__init__] is bound by an assignment in the class body
    ([__init__ = _setup]), and a function that constructs the class. *)
Definition aliased_init_data : list (string * Node.t) :=
  [ ("m.C", entity "class" (Some "m") []);
    ("m.C.__init__", entity "assignment" (Some "m.C") []);
    ("m.f", entity "function" (Some "m")
       [relation "CALLS" "m.f" "m.C"]) ].

(** A module that calls one of its functions at import time. *)
Definition module_call_data : list (string * Node.t) :=
  [ ("m", entity "module" None [relation "CALLS" "m" "m.f"]);
    ("m.f", entity "function" (Some "m") []) ].

(** A constant of a module that lives in a package named [assignment]. *)
Definition assignment_package_data : list (string * Node.t) :=
  [ ("school.assignment.utils", entity "module" None []);
    ("school.assignment.utils.LIMIT",
       entity "assignment" (Some "school.assignment.utils") []) ].


(** A destination whose ["functions"] collection is unavailable. *)
Definition functions_down : destination arango_doc :=
  fun _ c _ => if String.eqb c "functions" then Some "unavailable" else None.

(* ===================================================================== *)
(** * Claims that the code does not meet as they are stated *)
(* ===================================================================== *)

(** Constructor redirection as stated: the redirected target always lies
    in node class ["functions"]. *)
Definition constructor_redirection_as_stated : Prop :=
  forall (data : list (string * Node.t)) (rel : Rel.t) (rel_type source target : string),
    NoDup (map fst data) ->
    Rel.rel_type rel = Some rel_type ->
    Rel.source rel = Some source ->
    Rel.target rel = Some target ->
    PyDict.get rel_type REL_TO_EDGE_COLLECTION = Some (Some "calls") ->
    routing_table data !! target = Some "types" ->
    let init_qname := target +:+ ".__init__" in
    (is_Some (routing_table data !! init_qname) ->
     forall edge_coll e,
       resolve_relation data (routing_table data) rel = Some (edge_coll, e) ->
       EdgeDoc._to e = "functions/" +:+ make_key init_qname)
    /\ (routing_table data !! init_qname = None ->
        resolve_relation data (routing_table data) rel = None).

(** Edge-class constraints as stated: every resolved edge lies within the
    declaration of its edge collection. *)
Definition edge_constraints_as_stated : Prop :=
  forall (data : list (string * Node.t)) (rel : Rel.t) (edge_coll : string)
         (e : EdgeDoc.t),
    NoDup (map fst data) ->
    In rel (all_relations data) ->
    resolve_relation data (routing_table data) rel = Some (edge_coll, e) ->
    within_definition edge_coll e = true.

(** The scope filter as stated, for an assignment whose parent is a
    module of the input. *)
Definition module_level_assignment_as_stated : Prop :=
  forall (data : list (string * Node.t)) (qname : string) (node : Node.t)
         (parent : string) (parent_node : Node.t),
    NoDup (map fst data) ->
    In (qname, node) data ->
    assignment_kind node ->
    Node.parent_qualified_name node = Some parent ->
    PyDict.get parent data = Some parent_node ->
    Node.kind parent_node = Some "module" ->
    determine_collection node = Some "members"
    /\ routing_table data !! qname = Some "members".



(* ===================================================================== *)
(** * Shapes of keys, references and identifiers *)
(* ===================================================================== *)

(** Every character of [s] passes [p]. *)
Fixpoint every_char (p : ascii -> bool) (s : string) : bool :=
  match s with
  | EmptyString => true
  | String c r => p c && every_char p r
  end.

(** A digit or a letter of [a-f]. *)
Definition is_hex (c : ascii) : bool :=
  let n := N_of_ascii c in
  ((48 <=? n)%N && (n <=? 57)%N) || ((97 <=? n)%N && (n <=? 102)%N).

(** The key of a ["collection/key"] reference: what follows the first
    ["/"]. *)
Fixpoint ref_key (s : string) : string :=
  match s with
  | EmptyString => EmptyString
  | String c r => if Ascii.eqb c "/" then r else ref_key r
  end.

(** Neither an uppercase letter nor an underscore. *)
Definition plain_char (c : ascii) : bool :=
  negb (PyStr.is_upper c) && negb (Ascii.eqb c "_").


(* ===================================================================== *)
(** * Failures, warnings and batch sizes *)
(* ===================================================================== *)

(** The imports of [w] that raised. *)
Definition failed_imports {D : Type} (w : world D) : list (call D) :=
  List.filter
    (fun k => match call_error k with Some _ => true | None => false end)
    (calls w).

(** The warnings [ingest_edges] prints for the failed imports of [w]. *)
Definition edge_warnings (w : world arango_doc) : list string :=
  flat_map (fun k => match call_error k with
                     | Some e => [edges_warning (call_collection k) e]
                     | None => []
                     end) (calls w).

(** [line] is a warning of [ingest_documents] for the failed import
    [k]. *)
Definition document_warning (line : string) (k : call SearchDoc.t) : Prop :=
  exists e, call_error k = Some e
            /\ (line = "  Warning: Failed to import batch: " +:+ e
                \/ line = "  Warning: Failed to import final batch: " +:+ e).

(** The last import of [w] raised [e], and no import before it raised. *)
Definition stopped_at {D : Type} (e : string) (w : world D) : Prop :=
  exists before k,
    calls w = (before ++ [k])%list /\ call_error k = Some e
    /\ Forall (fun k' => call_error k' = None) before.

(** Every import of [w] carries at least one document and at most
    [batch_size] of them (one when [batch_size] is 0). *)
Definition batches_bounded {D : Type} (batch_size : nat) (w : world D) : Prop :=
  Forall (fun k => (1 <= length (call_docs k) <= Nat.max 1 batch_size)%nat)
    (calls w).

(** Every buffer is short of the threshold. *)
Definition buffers_below {D : Type} (batch_size : nat)
    (batches : list (string * list D)) : Prop :=
  Forall (fun item => (length (snd item) < Nat.max 1 batch_size)%nat) batches.


(* ===================================================================== *)
(** * The address of the search server, lines 204-221 of [main] *)
(* ===================================================================== *)

(** [s[n:]] *)
Fixpoint drop_chars (n : nat) (s : string) : string :=
  match n, s with
  | O, _ => s
  | S n', String _ r => drop_chars n' r
  | S _, EmptyString => EmptyString
  end.

(** [s.split(c, 1)] when [c in s]: what precedes the first [c] and what
    follows it; [None] when [c] is not in [s]. *)
Fixpoint split_once (c : ascii) (s : string) : option (string * string) :=
  match s with
  | EmptyString => None
  | String a r =>
      if Ascii.eqb a c then Some (EmptyString, r)
      else match split_once c r with
           | Some (before, after) => Some (String a before, after)
           | None => None
           end
  end.

(** Protocol, host and port of [url]. [py_int] is Python's [int] on a
    [str], [None] standing for its [ValueError], which [main] does not
    catch. *)
Definition parse_url (py_int : string -> option Z) (url : string)
  : option (string * string * Z) :=
  let '(protocol, host_port) :=
    if PyStr.startswith "https://" url then ("https", drop_chars 8 url)
    else if PyStr.startswith "http://" url then ("http", drop_chars 7 url)
    else ("http", url) in
  match split_once ":" host_port with
  | Some (host, port) =>
      match py_int port with
      | Some port => Some (protocol, host, port)
      | None => None
      end
  | None => Some (protocol, host_port, 8108%Z)
  end.

(* ===================================================================== *)
(** * [setup_database] *)
(* ===================================================================== *)

Module Provision.

(** What [setup_database] asks of the database. *)
Inductive request :=
| CreateCollection (name : string) (edge : bool)
| CreateGraph (name : string) (edge_definitions : list edge_definition).

(** The exceptions a request may raise. *)
Inductive error :=
| CollectionCreateError
| GraphCreateError
| OtherError (msg : string).

Record world := World {
  requests : list (request * option error);   (* oldest first *)
  stdout : list string;
}.

(** The database answers a request from the requests before it: [None] is
    success. *)
Definition database := list (request * option error) -> request -> option error.

(** [except caught:] catches [e]. *)
Definition catches (caught e : error) : bool :=
  match caught, e with
  | CollectionCreateError, CollectionCreateError => true
  | GraphCreateError, GraphCreateError => true
  | _, _ => false
  end.

(** [try: <request>; print(line) / except caught: pass]. The result is the
    exception that escapes, if any. *)
Definition attempt (db : database) (caught : error) (r : request)
    (line : string) (w : world) : option error * world :=
  let answer := db (requests w) r in
  let w' := World (requests w ++ [(r, answer)])%list (stdout w) in
  match answer with
  | None => (None, World (requests w') (stdout w' ++ [line])%list)
  | Some e => if catches caught e then (None, w') else (Some e, w')
  end.

(** [for name in names: try: db.create_collection(name, edge=edge); ...] *)
Fixpoint create_collections (db : database) (edge : bool) (label : string)
    (names : list string) (w : world) : option error * world :=
  match names with
  | [] => (None, w)
  | coll_name :: rest =>
      match attempt db CollectionCreateError (CreateCollection coll_name edge)
              (label +:+ coll_name) w with
      | (None, w') => create_collections db edge label rest w'
      | (Some e, w') => (Some e, w')
      end
  end.

(** [edge_names] is the order in which the loop visits the set
    [{e["edge_collection"] for e in EDGE_DEFINITIONS}]; Python leaves the
    iteration order of a set of strings open, so it is an argument here. *)
Definition setup_database (db : database) (edge_names : list string)
    (graph_name : string) (w : world) : option error * world :=
  match create_collections db false "  Created collection: "
          NODE_COLLECTIONS w with
  | (Some e, w1) => (Some e, w1)
  | (None, w1) =>
      match create_collections db true "  Created edge collection: "
              edge_names w1 with
      | (Some e, w2) => (Some e, w2)
      | (None, w2) =>
          attempt db GraphCreateError
            (CreateGraph graph_name EDGE_DEFINITIONS)
            ("  Created graph: " +:+ graph_name) w2
      end
  end.

(** The requests of a complete run, in order. *)
Definition plan (edge_names : list string) (graph_name : string)
  : list request :=
  (map (fun n => CreateCollection n false) NODE_COLLECTIONS
   ++ map (fun n => CreateCollection n true) edge_names
   ++ [CreateGraph graph_name EDGE_DEFINITIONS])%list.

(** [edge_names] is an iteration order of the set of edge collections. *)
Definition set_order (edge_names : list string) : Prop :=
  Permutation edge_names (elements edge_collections).

(** The line printed when [r] succeeds. *)
Definition created_line (r : request) : string :=
  match r with
  | CreateCollection n false => "  Created collection: " +:+ n
  | CreateCollection n true => "  Created edge collection: " +:+ n
  | CreateGraph g _ => "  Created graph: " +:+ g
  end.

(** The lines printed for the requests of [h] that succeeded. *)
Definition lines_of (h : list (request * option error)) : list string :=
  flat_map (fun x => match snd x with
                     | None => [created_line (fst x)]
                     | Some _ => []
                     end) h.

(** The requests [rs] made in order after the history [h], each with the
    answer of the database. *)
Fixpoint answers (db : database) (h : list (request * option error))
    (rs : list request) : list (request * option error) :=
  match rs with
  | [] => []
  | r :: rest =>
      (r, db h r) :: answers db (h ++ [(r, db h r)])%list rest
  end.

(** The exception with which a request is refused when its object
    exists. *)
Definition refusal (r : request) : error :=
  match r with
  | CreateCollection _ _ => CollectionCreateError
  | CreateGraph _ _ => GraphCreateError
  end.

(** [setup_database] as one sequence of guarded requests: each request
    is attempted under the handler for its own refusal and prints its own
    line. *)
Fixpoint attempts (db : database) (rs : list request) (w : world)
  : option error * world :=
  match rs with
  | [] => (None, w)
  | r :: rest =>
      match attempt db (refusal r) r (created_line r) w with
      | (None, w') => attempts db rest w'
      | (Some e, w') => (Some e, w')
      end
  end.

(** An answer under which the loop goes on: success, or the refusal that
    the handler of the request catches. *)
Definition goes_on (x : request * option error) : Prop :=
  snd x = None \/ snd x = Some (refusal (fst x)).

(** Two requests for the same object. *)
Definition same_object (r r' : request) : bool :=
  match r, r' with
  | CreateCollection n _, CreateCollection n' _ => String.eqb n n'
  | CreateGraph g _, CreateGraph g' _ => String.eqb g g'
  | _, _ => false
  end.

(** The object of [r] was created by a request of [h]. *)
Definition created_in (h : list (request * option error)) (r : request)
  : bool :=
  existsb (fun x => same_object r (fst x)
                    && match snd x with None => true | Some _ => false end) h.

(** A database that only ever refuses a request because its object
    exists. *)
Definition refuses_only_existing (db : database) : Prop :=
  forall h r, db h r = None \/ db h r = Some (refusal r).

(** A database that creates what does not exist and refuses what was
    created before. *)
Definition keeps_what_it_created (db : database) : Prop :=
  forall h r, db h r = if created_in h r then Some (refusal r) else None.

(** A database that starts empty and keeps what it created. *)
Definition fresh_database : database :=
  fun h r => if created_in h r then Some (refusal r) else None.

End Provision.

(** A database without permission to create the collection "types". *)
Definition types_forbidden : Provision.database :=
  fun h r =>
    match r with
    | Provision.CreateCollection "types" _ =>
        Some (Provision.OtherError "forbidden")
    | _ => None
    end.

(* ===================================================================== *)
(** * Test vectors *)
(* ===================================================================== *)

(** The RFC 1321 test suite, and a message of one full block. *)
Example md5_empty : MD5.hexdigest "" = "d41d8cd98f00b204e9800998ecf8427e".
Proof. vm_compute. reflexivity. Qed.

Example md5_abc : MD5.hexdigest "abc" = "900150983cd24fb0d6963f7d28e17f72".
Proof. vm_compute. reflexivity. Qed.

Example md5_message_digest :
  MD5.hexdigest "message digest" = "f96b697d7cb7938d525a2f31aaf161d0".
Proof. vm_compute. reflexivity. Qed.

Example md5_one_block :
  MD5.hexdigest
    "aaaaaaaaaaaaaaaaaaaaaaaaaaaaaaaaaaaaaaaaaaaaaaaaaaaaaaaaaaaaaaaa"
  = "014842d480b571495a4a0363793f7367".
Proof. vm_compute. reflexivity. Qed.

Example make_key_init : make_key "m.C.__init__" = "5b5450257021534e".
Proof. vm_compute. reflexivity. Qed.

Example variants_HTTPClient {L : StrLower} :
  make_name_variants (Some "HTTPClient")
  = ["HTTPClient"; "httpclient"; "h_t_t_p_client"].
Proof.
  unfold make_name_variants. cbv zeta.
  rewrite !str_lower_ascii by reflexivity. vm_compute. reflexivity.
Qed.

(** With an operation that lowercases the accented capital as Python
    does, the variants of a name that starts with it are those the script
    returns. *)
Example variants_Edith :
  make_name_variants (L := with_e_acute) (Some "Édith") = ["Édith"; "édith"].
Proof. vm_compute. reflexivity. Qed.

Example variants_my_Var {L : StrLower} :
  make_name_variants (Some "my_Var") = ["my_Var"; "my_var"; "my__var"; "myVar"].
Proof.
  unfold make_name_variants. cbv zeta.
  rewrite !str_lower_ascii by reflexivity. vm_compute. reflexivity.
Qed.

(* ===================================================================== *)
(** * Strings *)
(* ===================================================================== *)

Lemma append_cons (x : ascii) (a b : string) :
  String x a +:+ b = String x (a +:+ b).
Proof. reflexivity. Qed.

Lemma append_nil_l (b : string) : "" +:+ b = b.
Proof. reflexivity. Qed.

Lemma append_assoc (a b c : string) : (a +:+ b) +:+ c = a +:+ (b +:+ c).
Proof.
  induction a as [|x a IH]; [reflexivity |].
  rewrite !append_cons. now rewrite IH.
Qed.

Lemma append_nil_r (a : string) : a +:+ "" = a.
Proof.
  induction a as [|x a IH]; [reflexivity |].
  rewrite append_cons. now rewrite IH.
Qed.

Lemma free_of_append (c : ascii) (a b : string) :
  free_of c (a +:+ b) = free_of c a && free_of c b.
Proof.
  induction a as [|x a IH]; [reflexivity |].
  rewrite append_cons. simpl. rewrite IH. now rewrite andb_assoc.
Qed.

Lemma split_last_from_spec (c : ascii) (s acc : string) :
  free_of c acc = true ->
  free_of c (PyStr.split_last_from c acc s) = true
  /\ (acc +:+ s = PyStr.split_last_from c acc s
      \/ exists before,
           acc +:+ s = before +:+ String c (PyStr.split_last_from c acc s)).
Proof.
  revert acc. induction s as [|a r IH]; intros acc Hacc; simpl.
  - split; [assumption | left; apply append_nil_r].
  - destruct (Ascii.eqb_spec a c) as [->|Hne].
    + destruct (IH "" eq_refl) as [Hfree Hcut]. split; [assumption |].
      right. rewrite append_nil_l in Hcut. destruct Hcut as [Heq | [before Heq]].
      * exists acc. now rewrite <- Heq.
      * exists (acc +:+ String c before).
        rewrite append_assoc, append_cons. now rewrite <- Heq.
    + assert (Hacc' : free_of c (acc +:+ String a "") = true).
      { rewrite free_of_append, Hacc. simpl.
        destruct (Ascii.eqb_spec a c); [contradiction | reflexivity]. }
      destruct (IH _ Hacc') as [Hfree Hcut]. split; [assumption |].
      rewrite append_assoc, append_cons, append_nil_l in Hcut. exact Hcut.
Qed.

Lemma split_last_after_last_dot (qname : string) :
  after_last_dot qname (PyStr.split_last "." qname).
Proof.
  destruct (split_last_from_spec "." qname "" eq_refl) as [Hfree Hcut].
  split; [exact Hfree |]. exact Hcut.
Qed.

Lemma sub_before_upper_inner (s : string) :
  PyStr.sub_before_upper false s = underscore_before_upper s.
Proof.
  induction s as [|c r IH]; simpl; [reflexivity |].
  rewrite IH. now destruct (PyStr.is_upper c).
Qed.

Lemma snake_case_regex {L : StrLower} (name : string) :
  str_lower (PyStr.sub_before_upper true name) = snake_case name.
Proof.
  destruct name as [|c r]; [reflexivity |].
  unfold snake_case. simpl. now rewrite sub_before_upper_inner.
Qed.

Lemma replace_underscore (s : string) :
  PyStr.replace_char "_" "" s = without_underscores s.
Proof.
  induction s as [|c r IH]; simpl; [reflexivity |].
  rewrite IH. now destruct (Ascii.eqb c "_").
Qed.


Lemma str_in_In (x : string) (xs : list string) :
  str_in x xs = true <-> In x xs.
Proof.
  unfold str_in. rewrite existsb_exists. split.
  - intros [y [Hy Heq]]. apply String.eqb_eq in Heq. now subst.
  - intros H. exists x. split; [assumption | apply String.eqb_refl].
Qed.


(* ===================================================================== *)
(** * Dicts *)
(* ===================================================================== *)

#[local] Arguments String.eqb : simpl never.

Section DictFacts.
Context {V : Type}.
Implicit Types (d : list (string * V)) (k : string) (v : V).

Lemma get_set_eq k v d : PyDict.get k (PyDict.set k v d) = Some v.
Proof.
  induction d as [|[k' v'] r IH]; simpl.
  - now rewrite String.eqb_refl.
  - destruct (String.eqb k' k) eqn:E; simpl; rewrite E; [reflexivity | exact IH].
Qed.

Lemma get_set_ne k k' v d :
  k <> k' -> PyDict.get k' (PyDict.set k v d) = PyDict.get k' d.
Proof.
  intros Hne. induction d as [|[k0 v0] r IH]; simpl.
  - destruct (String.eqb_spec k k'); [contradiction | reflexivity].
  - destruct (String.eqb_spec k0 k) as [-> | Hk]; simpl.
    + destruct (String.eqb_spec k k'); [contradiction | reflexivity].
    + now rewrite IH.
Qed.

Lemma keys_set k v d :
  is_Some (PyDict.get k d) -> map fst (PyDict.set k v d) = map fst d.
Proof.
  induction d as [|[k0 v0] r IH]; simpl.
  - intros [x Hx]. discriminate.
  - destruct (String.eqb_spec k0 k) as [-> | Hk]; simpl; [reflexivity |].
    intros H. now rewrite IH.
Qed.

Lemma get_None k d : ~ In k (map fst d) -> PyDict.get k d = None.
Proof.
  induction d as [|[k0 v0] r IH]; simpl; [reflexivity |].
  intros H. destruct (String.eqb_spec k0 k) as [-> | Hk]; [tauto |].
  apply IH. tauto.
Qed.

Lemma get_is_Some k d : In k (map fst d) -> is_Some (PyDict.get k d).
Proof.
  induction d as [|[k0 v0] r IH]; simpl; [tauto |].
  intros [-> | H].
  - rewrite String.eqb_refl. eauto.
  - destruct (String.eqb k0 k); [eauto | auto].
Qed.

Lemma get_Some_In k v d : PyDict.get k d = Some v -> In (k, v) d.
Proof.
  induction d as [|[k0 v0] r IH]; simpl; [discriminate |].
  destruct (String.eqb_spec k0 k) as [-> | Hk].
  - intros [= ->]. now left.
  - intros H. right. auto.
Qed.

Lemma In_get_Some k v d :
  NoDup (map fst d) -> In (k, v) d -> PyDict.get k d = Some v.
Proof.
  induction d as [|[k0 v0] r IH]; simpl; [tauto |].
  intros Hnd [[= -> ->] | Hin].
  - now rewrite String.eqb_refl.
  - apply NoDup_cons in Hnd as [Hk0 Hnd].
    destruct (String.eqb_spec k0 k) as [-> | Hk]; [| auto].
    exfalso. apply Hk0. apply list_elem_of_In.
    change k with (fst (k, v)). now apply in_map.
Qed.

End DictFacts.

(* ===================================================================== *)
(** * Classification *)
(* ===================================================================== *)

(** The classifier answers with one of four node collections. *)
Lemma determine_collection_range (node : Node.t) (c : string) :
  determine_collection node = Some c ->
  c = "types" \/ c = "functions" \/ c = "modules" \/ c = "members".
Proof.
  unfold determine_collection, KIND_TO_COLLECTION.
  destruct (Node.kind node) as [k|]; [| discriminate]. simpl.
  repeat (destruct (String.eqb _ k); simpl;
          [ repeat case_match; intros; simplify_eq; auto 6 | ]).
  discriminate.
Qed.

Lemma determine_collection_node_collection (node : Node.t) (c : string) :
  determine_collection node = Some c -> In c NODE_COLLECTIONS.
Proof.
  intros H. apply determine_collection_range in H. unfold NODE_COLLECTIONS.
  destruct H as [-> | [-> | [-> | ->]]]; simpl; auto 10.
Qed.

(** For an assignment the parent qname decides. *)
Lemma determine_collection_assignment (node : Node.t) :
  assignment_kind node ->
  determine_collection node =
    match Node.parent_qualified_name node with
    | Some parent =>
        if PyStr.truthy parent && negb (PyStr.contains ".assignment." parent)
        then Some "members" else None
    | None => None
    end.
Proof.
  unfold determine_collection.
  intros [-> | ->]; reflexivity.
Qed.

Lemma routing_fold_lookup (items : list (string * Node.t))
    (acc : gmap string string) (q : string) :
  NoDup (map fst items) ->
  fold_left routing_step items acc !! q =
    match PyDict.get q items with
    | Some node =>
        match determine_collection node with
        | Some c => Some c
        | None => acc !! q
        end
    | None => acc !! q
    end.
Proof.
  revert acc. induction items as [|[k n] r IH]; intros acc Hnd; simpl.
  - reflexivity.
  - apply NoDup_cons in Hnd as [Hk Hnd]. rewrite (IH _ Hnd).
    destruct (String.eqb_spec k q) as [-> | Hne].
    + rewrite get_None by (now rewrite <- list_elem_of_In).
      unfold routing_step. simpl.
      destruct (determine_collection n); [apply lookup_insert_eq | reflexivity].
    + assert (Hacc : routing_step acc (k, n) !! q = acc !! q).
      { unfold routing_step. simpl.
        destruct (determine_collection n); [| reflexivity].
        now apply lookup_insert_ne. }
      rewrite Hacc. reflexivity.
Qed.

(** The routing table holds exactly the qnames that classify. *)
Lemma routing_table_lookup (data : list (string * Node.t)) (q : string) :
  NoDup (map fst data) ->
  routing_table data !! q = PyDict.get q data ≫= determine_collection.
Proof.
  intros Hnd. unfold routing_table. rewrite routing_fold_lookup by assumption.
  rewrite lookup_empty.
  destruct (PyDict.get q data) as [n|]; simpl; [| reflexivity].
  now destruct (determine_collection n).
Qed.

Lemma routing_fold_range (items : list (string * Node.t))
    (acc : gmap string string) :
  (forall q c, acc !! q = Some c -> In c NODE_COLLECTIONS) ->
  forall q c, fold_left routing_step items acc !! q = Some c ->
              In c NODE_COLLECTIONS.
Proof.
  revert acc. induction items as [|[k n] r IH]; intros acc Hacc; simpl.
  - exact Hacc.
  - apply IH. intros q c. unfold routing_step. simpl.
    destruct (determine_collection n) as [c'|] eqn:E; [| apply Hacc].
    destruct (decide (k = q)) as [-> | Hne].
    + rewrite lookup_insert_eq. intros [= <-].
      eapply determine_collection_node_collection; eassumption.
    + rewrite lookup_insert_ne by assumption. apply Hacc.
Qed.

(** Every node class of the routing table is a node collection. *)
Lemma routing_table_range (data : list (string * Node.t)) (q c : string) :
  routing_table data !! q = Some c -> In c NODE_COLLECTIONS.
Proof.
  apply routing_fold_range. intros q' c'. rewrite lookup_empty. discriminate.
Qed.


(* ===================================================================== *)
(** * Loops, buffers and the destination *)
(* ===================================================================== *)

Local Open Scope list_scope.

Section LoopFacts.
Context {D : Type}.
Implicit Types (w : world D) (c : string) (d : D)
  (batches : list (string * list D)) (stream : list (string * D)).

Lemma for_each_app {X S : Type} (xs ys : list X) (body : X -> S -> M D S)
    (s : S) w :
  for_each (xs ++ ys) body s w
  = bind (for_each xs body s) (for_each ys body) w.
Proof.
  revert s w. induction xs as [|x r IH]; intros s w; simpl.
  - reflexivity.
  - unfold bind. destruct (body x s w) as [[s'|e] w']; [| reflexivity].
    rewrite IH. reflexivity.
Qed.

(** A loop inside a loop runs its body over the flattened list. *)
Lemma for_each_nested {X Y S : Type} (g : X -> list Y)
    (outer : X -> S -> M D S) (body : Y -> S -> M D S) :
  (forall x s w, outer x s w = for_each (g x) body s w) ->
  forall xs s w,
    for_each xs outer s w = for_each (flat_map g xs) body s w.
Proof.
  intros Hout. induction xs as [|x r IH]; intros s w; simpl.
  - reflexivity.
  - rewrite for_each_app. unfold bind. rewrite Hout.
    destruct (for_each (g x) body s w) as [[s'|e] w']; [| reflexivity].
    apply IH.
Qed.

(** Invariant rule for a loop: [I] relates the processed prefix, the
    loop variables and the world; [J] is what is left when the body
    raises. *)
Lemma for_each_inv {X S : Type}
    (I : list X -> S -> world D -> Prop)
    (J : list X -> string -> world D -> Prop)
    (body : X -> S -> M D S) :
  (forall pre x s w, I pre s w ->
     match body x s w with
     | (Return s', w') => I (pre ++ [x]) s' w'
     | (Raise e, w') => J (pre ++ [x]) e w'
     end) ->
  (forall pre x e w, J pre e w -> J (pre ++ [x]) e w) ->
  forall xs pre s w, I pre s w ->
    match for_each xs body s w with
    | (Return s', w') => I (pre ++ xs) s' w'
    | (Raise e, w') => J (pre ++ xs) e w'
    end.
Proof.
  intros Hstep Hmono.
  assert (Hmore : forall l pre e w, J pre e w -> J (pre ++ l) e w).
  { induction l as [|y l IH]; intros pre e w HJ.
    - now rewrite app_nil_r.
    - replace (pre ++ y :: l) with ((pre ++ [y]) ++ l)
        by now rewrite <- app_assoc.
      apply IH, Hmono, HJ. }
  induction xs as [|x r IH]; intros pre s w HI; simpl.
  - unfold ret. now rewrite app_nil_r.
  - unfold bind. specialize (Hstep pre x s w HI).
    destruct (body x s w) as [[s'|e] w'].
    + specialize (IH _ _ _ Hstep). now rewrite <- app_assoc in IH.
    + replace (pre ++ x :: r) with ((pre ++ [x]) ++ r)
        by now rewrite <- app_assoc.
      now apply Hmore.
Qed.

Lemma attempted_snoc c w w' (k : call D) :
  calls w' = calls w ++ [k] ->
  attempted c w'
  = attempted c w
    ++ (if String.eqb (call_collection k) c then call_docs k else []).
Proof.
  intros H. unfold attempted. rewrite H, flat_map_app. simpl.
  now rewrite app_nil_r.
Qed.


Lemma delivered_attempted c w :
  all_accepted w -> delivered c w = attempted c w.
Proof.
  unfold all_accepted, delivered, attempted.
  induction (calls w) as [|k r IH]; intros H; simpl; [reflexivity |].
  apply Forall_cons in H as [Hk Hr]. rewrite (IH Hr), Hk. reflexivity.
Qed.

Lemma for_collection_app c stream (stream' : list (string * D)) :
  for_collection c (stream ++ stream')
  = for_collection c stream ++ for_collection c stream'.
Proof. unfold for_collection. apply flat_map_app. Qed.

Lemma for_collection_one c c' d :
  for_collection c [(c', d)] = if String.eqb c' c then [d] else [].
Proof.
  unfold for_collection. simpl. now destruct (String.eqb c' c).
Qed.

Lemma pending_set_eq c (v : list D) batches :
  pending c (PyDict.set c v batches) = v.
Proof. unfold pending. now rewrite get_set_eq. Qed.

Lemma pending_set_ne c c' (v : list D) batches :
  c <> c' -> pending c' (PyDict.set c v batches) = pending c' batches.
Proof. intros H. unfold pending. now rewrite get_set_ne. Qed.

Lemma buffered_push c d w0 stream batches w :
  Buffered w0 stream batches w ->
  Buffered w0 (stream ++ [(c, d)])
    (PyDict.set c (pending c batches ++ [d]) batches) w.
Proof.
  intros HB c'. rewrite for_collection_app, for_collection_one.
  destruct (String.eqb_spec c c') as [<- | Hne].
  - rewrite pending_set_eq. rewrite !app_assoc. now rewrite HB.
  - rewrite pending_set_ne by assumption. rewrite app_nil_r. apply HB.
Qed.

Lemma buffered_flush c (r : option string) w0 stream batches w w' :
  Buffered w0 stream batches w ->
  calls w' = calls w ++ [Call c (pending c batches) r] ->
  Buffered w0 stream (PyDict.set c [] batches) w'.
Proof.
  intros HB Hc c'. rewrite (attempted_snoc c' w w' _ Hc). simpl.
  destruct (String.eqb_spec c c') as [<- | Hne].
  - rewrite pending_set_eq, app_nil_r. apply HB.
  - rewrite pending_set_ne by assumption. rewrite app_nil_r. apply HB.
Qed.

Lemma buffered_handed w0 stream batches w :
  Buffered w0 stream batches w -> Handed w0 stream w.
Proof. intros HB c. exists (pending c batches). apply HB. Qed.

Lemma handed_more w0 stream (more : list (string * D)) w :
  Handed w0 stream w -> Handed w0 (stream ++ more) w.
Proof.
  intros HH c. destruct (HH c) as [rest Hrest].
  exists (rest ++ for_collection c more).
  rewrite for_collection_app, !app_assoc. now rewrite Hrest.
Qed.

(** What an import does, unprotected or inside a [try]. *)
Lemma guarded_import (catch : option (string -> string))
    (db : destination D) c (docs : list D) w :
  exists w',
    calls w' = calls w ++ [Call c docs (db (calls w) c docs)]
    /\ guarded catch (import_bulk db c docs) w
       = (match db (calls w) c docs, catch with
          | Some e, None => Raise e
          | _, _ => Return tt
          end, w').
Proof.
  unfold guarded, try_except, import_bulk, print.
  destruct catch as [fmt|]; destruct (db (calls w) c docs) as [e|];
    simpl; eexists; split; try reflexivity; reflexivity.
Qed.

(** One buffered document: the invariant is kept, and only a missing
    buffer or an unprotected failed import can raise. *)
Lemma buffer_and_flush_spec (catch : option (string -> string))
    (batch_size : nat) (db : destination D) c d w0 stream batches w :
  Buffered w0 stream batches w ->
  match buffer_and_flush catch batch_size db c d batches w with
  | (Return batches', w') =>
      Buffered w0 (stream ++ [(c, d)]) batches' w'
      /\ map fst batches' = map fst batches
  | (Raise e, w') =>
      Handed w0 (stream ++ [(c, d)]) w'
      /\ (PyDict.get c batches = None
          \/ (catch = None /\ exists h docs, db h c docs = Some e))
  end.
Proof.
  intros HB. pose proof (buffered_push c d _ _ _ _ HB) as HB1.
  unfold buffer_and_flush, bind, getitem.
  destruct (PyDict.get c batches) as [old|] eqn:E.
  2:{ unfold raise. split; [| now left].
      eapply buffered_handed, HB1. }
  assert (Hold : pending c batches = old) by (unfold pending; now rewrite E).
  rewrite Hold in HB1.
  unfold ret at 1. rewrite get_set_eq. unfold ret at 1.
  assert (Hkeys : map fst (PyDict.set c (old ++ [d]) batches) = map fst batches).
  { apply keys_set. rewrite E. eauto. }
  destruct (batch_size <=? length (old ++ [d]))%nat.
  - destruct (guarded_import catch db c (old ++ [d]) w) as (w' & Hc & Hg).
    rewrite Hg.
    assert (HB2 : Buffered w0 (stream ++ [(c, d)])
                    (PyDict.set c [] (PyDict.set c (old ++ [d]) batches)) w').
    { eapply buffered_flush; [exact HB1 |]. rewrite pending_set_eq.
      exact Hc. }
    destruct (db (calls w) c (old ++ [d])) as [e|] eqn:Edb;
      [destruct catch as [fmt|] |].
    + unfold ret. split; [exact HB2 |].
      rewrite keys_set; [exact Hkeys |]. rewrite get_set_eq. eauto.
    + split; [eapply buffered_handed, HB2 |]. right. split; [reflexivity |].
      eauto.
    + unfold ret. split; [exact HB2 |].
      rewrite keys_set; [exact Hkeys |]. rewrite get_set_eq. eauto.
  - unfold ret. split; [exact HB1 | exact Hkeys].
Qed.

(** The closing loop hands over every buffer that is left. *)
Lemma flush_remaining_spec (catch : string -> option (string -> string))
    (db : destination D) (T : string -> list D) :
  forall (items : list (string * list D)) w,
    NoDup (map fst items) ->
    (forall c, attempted c w ++ pending c items = T c) ->
    match for_each items (flush_remaining catch db) tt w with
    | (Return _, w') => forall c, attempted c w' = T c
    | (Raise e, w') =>
        (forall c, exists rest, attempted c w' ++ rest = T c)
        /\ exists h c docs, catch c = None /\ db h c docs = Some e
    end.
Proof.
  induction items as [|[k docs] r IH]; intros w Hnd HT; simpl.
  - unfold ret. intros c. rewrite <- HT. unfold pending. simpl.
    now rewrite app_nil_r.
  - apply NoDup_cons in Hnd as [Hk Hnd].
    assert (Hkr : pending k r = []).
    { unfold pending. rewrite get_None; [reflexivity |].
      now rewrite <- list_elem_of_In. }
    assert (Hpend : forall c, pending c ((k, docs) :: r)
                              = if String.eqb k c then docs else pending c r).
    { intros c. unfold pending. simpl. now destruct (String.eqb k c). }
    unfold bind, flush_remaining. simpl. destruct docs as [|d0 ds].
    + unfold ret. apply IH; [assumption |]. intros c.
      rewrite <- HT, Hpend.
      destruct (String.eqb_spec k c) as [<- | Hne]; [| reflexivity].
      now rewrite Hkr.
    + destruct (guarded_import (catch k) db k (d0 :: ds) w) as (w' & Hc & Hg).
      rewrite Hg.
      assert (HT' : forall c, attempted c w' ++ pending c r = T c).
      { intros c. rewrite (attempted_snoc c w w' _ Hc). simpl.
        rewrite <- HT, Hpend.
        destruct (String.eqb_spec k c) as [<- | Hne].
        - now rewrite Hkr, app_nil_r.
        - now rewrite app_nil_r. }
      destruct (db (calls w) k (d0 :: ds)) as [e|] eqn:Edb;
        [destruct (catch k) as [fmt|] eqn:Ek |].
      * now apply IH.
      * split; [| eauto 6].
        intros c. exists (pending c r). apply HT'.
      * now apply IH.
Qed.
End LoopFacts.

Section KeepFacts.
Context {D : Type}.
Implicit Types (w : world D).

Lemma keeps_ret {A : Type} (P : world D -> Prop) (a : A) : keeps P (ret a).
Proof. intros w HP. exact HP. Qed.

Lemma keeps_raise {A : Type} (P : world D -> Prop) (e : string) :
  keeps P (raise (A := A) e).
Proof. intros w HP. exact HP. Qed.

Lemma keeps_bind {A B : Type} (P : world D -> Prop) (m : M D A)
    (k : A -> M D B) :
  keeps P m -> (forall a, keeps P (k a)) -> keeps P (bind m k).
Proof.
  intros Hm Hk w HP. unfold bind. specialize (Hm w HP).
  destruct (m w) as [[a|e] w']; simpl in *; [now apply Hk | exact Hm].
Qed.

Lemma keeps_try_except {A : Type} (P : world D -> Prop) (m : M D A)
    (h : string -> M D A) :
  keeps P m -> (forall e, keeps P (h e)) -> keeps P (try_except m h).
Proof.
  intros Hm Hh w HP. unfold try_except. specialize (Hm w HP).
  destruct (m w) as [[a|e] w']; simpl in *; [exact Hm | now apply Hh].
Qed.

Lemma keeps_for_each {X S : Type} (P : world D -> Prop)
    (body : X -> S -> M D S) :
  (forall x s, keeps P (body x s)) ->
  forall xs s, keeps P (for_each xs body s).
Proof.
  intros Hb. induction xs as [|x r IH]; intros s; simpl.
  - apply keeps_ret.
  - apply keeps_bind; [apply Hb | exact IH].
Qed.

Lemma keeps_getitem (P : world D -> Prop) (batches : list (string * list D))
    (c : string) : keeps P (getitem batches c).
Proof.
  unfold getitem. destruct (PyDict.get c batches);
    [apply keeps_ret | apply keeps_raise].
Qed.

Lemma accepted_print (line : string) :
  keeps (D := D) all_accepted (print line).
Proof. intros w HP. exact HP. Qed.

Section Up.
Variable db : destination D.
Hypothesis Hup : forall h c docs, db h c docs = None.

Lemma accepted_import (c : string) (docs : list D) :
  keeps all_accepted (import_bulk db c docs).
Proof.
  intros w HP. unfold import_bulk. rewrite Hup. simpl.
  unfold all_accepted in *. simpl. apply Forall_app. split; [exact HP |].
  now repeat constructor.
Qed.

Lemma accepted_guarded (catch : option (string -> string)) (c : string)
    (docs : list D) :
  keeps all_accepted (guarded catch (import_bulk db c docs)).
Proof.
  destruct catch as [fmt|]; simpl; [| apply accepted_import].
  apply keeps_try_except; [apply accepted_import |].
  intros e. apply accepted_print.
Qed.

Lemma accepted_buffer_and_flush (catch : option (string -> string))
    (batch_size : nat) (c : string) (d : D)
    (batches : list (string * list D)) :
  keeps all_accepted (buffer_and_flush catch batch_size db c d batches).
Proof.
  unfold buffer_and_flush.
  apply keeps_bind; [apply keeps_getitem | intros docs].
  apply keeps_bind; [apply keeps_getitem | intros docs'].
  destruct (batch_size <=? length docs')%nat; [| apply keeps_ret].
  apply keeps_bind; [apply accepted_guarded | intros _; apply keeps_ret].
Qed.

Lemma accepted_flush_remaining
    (catch : string -> option (string -> string))
    (item : string * list D) (u : unit) :
  keeps all_accepted (flush_remaining catch db item u).
Proof.
  unfold flush_remaining. destruct (snd item);
    [apply keeps_ret | apply accepted_guarded].
Qed.
End Up.
End KeepFacts.

Lemma for_each_ext {D X S : Type} (f g : X -> S -> M D S) :
  (forall x s w, f x s w = g x s w) ->
  forall xs s w, for_each xs f s w = for_each xs g s w.
Proof.
  intros H. induction xs as [|x r IH]; intros s w; simpl; [reflexivity |].
  unfold bind. rewrite H. destruct (g x s w) as [[s'|e] w']; [apply IH | reflexivity].
Qed.

(* ===================================================================== *)
(** * [ingest_nodes] *)
(* ===================================================================== *)

Lemma ingest_nodes_body_buffer (batch_size : nat) (db : destination arango_doc)
    (data : list (string * Node.t)) (qname : string) (node : Node.t)
    (tbl : gmap string string) (batches : list (string * list arango_doc))
    (w : world arango_doc) :
  ingest_nodes_body batch_size db data (qname, node) (tbl, batches) w =
    match determine_collection node with
    | None => (Return (tbl, batches), w)
    | Some c =>
        match buffer_and_flush None batch_size db c
                (NodeD (node_document data qname node c)) batches w with
        | (Return batches', w') => (Return (<[qname := c]> tbl, batches'), w')
        | (Raise e, w') => (Raise e, w')
        end
    end.
Proof.
  unfold ingest_nodes_body, buffer_and_flush, bind, getitem, guarded.
  destruct (determine_collection node) as [c|]; [| reflexivity].
  destruct (PyDict.get c batches) as [old|]; [| reflexivity].
  unfold ret, raise. cbv beta iota. rewrite get_set_eq. cbv beta iota.
  destruct (batch_size <=? length _)%nat; [| reflexivity].
  destruct (import_bulk db c _ w) as [[u|e] w']; reflexivity.
Qed.

Lemma flush_remaining_nodes_eq (db : destination arango_doc)
    (item : string * list arango_doc) (u : unit) (w : world arango_doc) :
  flush_remaining_nodes db item u w
  = flush_remaining (fun _ => None) db item u w.
Proof. destruct item as [c [|d ds]]; reflexivity. Qed.

Lemma node_buffers_start :
  PyDict.from_keys NODE_COLLECTIONS ([] : list arango_doc)
  = map (fun c => (c, [])) NODE_COLLECTIONS.
Proof. reflexivity. Qed.

Lemma pending_empty_buffers {D : Type} (c : string) (ks : list string) :
  pending c (map (fun k => (k, ([] : list D))) ks) = [].
Proof.
  unfold pending. induction ks as [|k r IH]; simpl; [reflexivity |].
  destruct (String.eqb k c); [reflexivity | exact IH].
Qed.

Lemma keys_empty_buffers {D : Type} (ks : list string) :
  map fst (map (fun k => (k, ([] : list D))) ks) = ks.
Proof. induction ks as [|k r IH]; simpl; [reflexivity | now rewrite IH]. Qed.

Lemma NODE_COLLECTIONS_NoDup : NoDup NODE_COLLECTIONS.
Proof. apply (bool_decide_unpack _). vm_compute. reflexivity. Qed.

Lemma classified_in_app (data xs ys : list (string * Node.t)) :
  classified_in data (xs ++ ys)
  = classified_in data xs ++ classified_in data ys.
Proof. unfold classified_in. apply flat_map_app. Qed.

(** [ingest_nodes]: when it returns, the table is the routing table and
    every classified document was handed over, in order; when it raises,
    an import failed, and what was handed over is the beginning of the
    classified documents. *)
Lemma ingest_nodes_with_spec (batch_size : nat) (db : destination arango_doc)
    (data : list (string * Node.t)) (w0 : world arango_doc) :
  match ingest_nodes_with batch_size db data w0 with
  | (Return tbl, w') =>
      tbl = routing_table data
      /\ forall c, attempted c w'
                   = attempted c w0 ++ for_collection c (classified data)
  | (Raise e, w') =>
      Handed w0 (classified data) w'
      /\ exists h c docs, db h c docs = Some e
  end.
Proof.
  unfold ingest_nodes_with, bind.
  pose (I := fun (pre : list (string * Node.t))
                 (vars : gmap string string * list (string * list arango_doc))
                 (w : world arango_doc) =>
               fst vars = fold_left routing_step pre ∅
               /\ Buffered w0 (classified_in data pre) (snd vars) w
               /\ map fst (snd vars) = NODE_COLLECTIONS).
  pose (J := fun (pre : list (string * Node.t)) (e : string)
                 (w : world arango_doc) =>
               Handed w0 (classified_in data pre) w
               /\ exists h c docs, db h c docs = Some e).
  assert (Hstep : forall pre x s w, I pre s w ->
            match ingest_nodes_body batch_size db data x s w with
            | (Return s', w') => I (pre ++ [x]) s' w'
            | (Raise e, w') => J (pre ++ [x]) e w'
            end).
  { intros pre [q n] [tbl' b'] w (Htbl & HB & Hkeys).
    simpl in Htbl, HB, Hkeys. rewrite ingest_nodes_body_buffer.
    unfold I, J. rewrite classified_in_app, fold_left_app. simpl.
    unfold classify_entry, routing_step. simpl.
    destruct (determine_collection n) as [c|] eqn:Ec.
    - pose proof (buffer_and_flush_spec None batch_size db c
                    (NodeD (node_document data q n c)) _ _ _ _ HB) as Hs.
      destruct (buffer_and_flush _ _ _ _ _ _ _) as [[b''|e] w''].
      + destruct Hs as [HB' Hk']. simpl. rewrite Htbl.
        repeat split; [exact HB' | congruence].
      + destruct Hs as [HH [Hnone | [_ (h & docs & Hdb)]]].
        2:{ simpl. split; [exact HH | eauto]. }
        exfalso.
        destruct (get_is_Some (V := list arango_doc) c b') as [x Hx].
        { rewrite Hkeys.
          eapply determine_collection_node_collection; eassumption. }
        congruence.
    - simpl. rewrite app_nil_r. repeat split; assumption. }
  assert (Hmono : forall pre x e w, J pre e w -> J (pre ++ [x]) e w).
  { intros pre x e w [HH Hdb]. split; [| exact Hdb].
    rewrite classified_in_app. now apply handed_more. }
  assert (Hinit : I [] (∅ : gmap string string,
                        PyDict.from_keys NODE_COLLECTIONS []) w0).
  { unfold I. simpl. repeat split.
    intros c. rewrite node_buffers_start, pending_empty_buffers.
    reflexivity. }
  pose proof (for_each_inv I J _ Hstep Hmono data [] _ w0 Hinit) as Hloop.
  simpl app in Hloop.
  destruct (for_each data _ _ w0) as [[[tbl batches]|e] w1];
    [| exact Hloop].
  destruct Hloop as (Htbl & HB & Hkeys). simpl in Htbl, HB, Hkeys.
  pose proof (flush_remaining_spec (fun _ => None) db
                (fun c => attempted c w0 ++ for_collection c (classified data))
                batches w1) as Hf.
  rewrite (for_each_ext (flush_remaining_nodes db)
             (flush_remaining (fun _ => None) db))
    by (intros; apply flush_remaining_nodes_eq).
  destruct (for_each batches _ tt w1) as [[u|e] w2].
  - unfold ret. split; [exact Htbl |]. apply Hf; [| exact HB].
    rewrite Hkeys. apply NODE_COLLECTIONS_NoDup.
  - destruct Hf as (Hrest & h & c & docs & _ & Hdb);
      [rewrite Hkeys; apply NODE_COLLECTIONS_NoDup | exact HB |].
    split; [exact Hrest | eauto].
Qed.

(* ===================================================================== *)
(** * [ingest_edges] *)
(* ===================================================================== *)

Lemma rel_table_range (rt c : string) :
  PyDict.get rt REL_TO_EDGE_COLLECTION = Some (Some c) ->
  In c (map edge_collection EDGE_DEFINITIONS).
Proof.
  unfold REL_TO_EDGE_COLLECTION. simpl.
  repeat (destruct (String.eqb _ rt); [intros [= <-]; auto 10 |]).
  discriminate.
Qed.

Lemma opt_eqb_eq (x : option string) (s : string) :
  opt_eqb x s = true <-> x = Some s.
Proof.
  destruct x as [y|]; simpl; [| split; discriminate].
  rewrite String.eqb_eq. split; congruence.
Qed.

(** What a resolved relation looks like: the edge class comes from the
    fixed table, the source from the routing table, and the target from
    the routing table either directly, or after redirection to
    [__init__], or is a module inferred for a parent edge. *)
Lemma resolve_relation_Some (data : list (string * Node.t))
    (tbl : gmap string string) (rel : Rel.t) (c : string) (e : EdgeDoc.t) :
  resolve_relation data tbl rel = Some (c, e) ->
  exists rt s t t' sc tc,
    Rel.rel_type rel = Some rt /\ Rel.source rel = Some s
    /\ Rel.target rel = Some t
    /\ PyDict.get rt REL_TO_EDGE_COLLECTION = Some (Some c)
    /\ tbl !! s = Some sc /\ PyStr.truthy sc = true /\ PyStr.truthy tc = true
    /\ EdgeDoc._key e = make_key (s +:+ ":" +:+ t' +:+ ":" +:+ rt)
    /\ EdgeDoc._from e = sc +:+ "/" +:+ make_key s
    /\ EdgeDoc._to e = tc +:+ "/" +:+ make_key t'
    /\ ((c = "calls" /\ tbl !! t = Some "types" /\ t' = t +:+ ".__init__"
         /\ tbl !! t' = Some tc)
        \/ (t' = t
            /\ (tbl !! t = Some tc
                \/ (c = "parent" /\ tc = "modules"
                    /\ exists n, PyDict.get t data = Some n
                                 /\ Node.kind n = Some "module")))).
Proof.
  unfold resolve_relation. intros H.
  destruct (Rel.rel_type rel) as [rt|]; [| discriminate].
  destruct (Rel.source rel) as [s|]; [| discriminate].
  destruct (Rel.target rel) as [t|]; [| discriminate].
  destruct (negb (PyStr.truthy rt) || _ || _); [discriminate |].
  destruct (PyDict.get rt REL_TO_EDGE_COLLECTION) as [[ec|]|] eqn:Hget;
    try discriminate.
  destruct (negb (PyStr.truthy ec)); [discriminate |].
  destruct (String.eqb ec "calls" && opt_eqb (tbl !! t) "types") eqn:Hred.
  - apply andb_true_iff in Hred as [Hec Hty].
    apply String.eqb_eq in Hec. apply opt_eqb_eq in Hty. subst ec.
    destruct (tbl !! (t +:+ ".__init__")) as [tc|] eqn:Hinit; [| discriminate].
    change (String.eqb "calls" "parent") with false in H. simpl in H.
    destruct (tbl !! s) as [sc|] eqn:Hs; [| discriminate].
    destruct (PyStr.truthy sc) eqn:Hsc; [| discriminate].
    destruct (PyStr.truthy tc) eqn:Htc; [| discriminate].
    simpl in H. injection H as <- <-.
    exists rt, s, t, (t +:+ ".__init__"), sc, tc. simpl.
    repeat (split; [reflexivity || assumption |]). left. auto.
  - set (tc0 := if String.eqb ec "parent" && negb (PyStr.truthy_opt (tbl !! t))
                then match PyDict.get t data with
                     | Some t0 => if opt_eqb (Node.kind t0) "module"
                                  then Some "modules" else tbl !! t
                     | None => tbl !! t
                     end
                else tbl !! t) in H.
    assert (Htc0 : tc0 = tbl !! t
                   \/ (ec = "parent" /\ tc0 = Some "modules"
                       /\ exists n, PyDict.get t data = Some n
                                    /\ Node.kind n = Some "module")).
    { subst tc0. destruct (String.eqb_spec ec "parent") as [-> | Hne];
        simpl; [| now left].
      destruct (negb _); [| now left].
      destruct (PyDict.get t data) as [n|] eqn:Hn; [| now left].
      destruct (opt_eqb (Node.kind n) "module") eqn:Hk; [| now left].
      apply opt_eqb_eq in Hk. right. eauto. }
    clearbody tc0.
    destruct (tbl !! s) as [sc|] eqn:Hs; [| discriminate].
    destruct tc0 as [tc|]; [| discriminate].
    destruct (PyStr.truthy sc) eqn:Hsc; [| discriminate].
    destruct (PyStr.truthy tc) eqn:Htc; [| discriminate].
    simpl in H. injection H as <- <-.
    exists rt, s, t, t, sc, tc. simpl.
    repeat (split; [reflexivity || assumption |]). right.
    split; [reflexivity |].
    destruct Htc0 as [Heq | (Hp & [= ->] & Hn)];
      [left; now symmetry | right; auto].
Qed.

Lemma resolve_relation_edge_collection (data : list (string * Node.t))
    (tbl : gmap string string) (rel : Rel.t) (c : string) (e : EdgeDoc.t) :
  resolve_relation data tbl rel = Some (c, e) ->
  In c (elements edge_collections).
Proof.
  intros H. apply resolve_relation_Some in H
    as (rt & s & t & t' & sc & tc & _ & _ & _ & Hget & _).
  apply rel_table_range in Hget.
  apply (proj1 (list_elem_of_In _ _)).
  apply (proj2 (elem_of_elements _ _)).
  apply (proj2 (elem_of_list_to_set _ _)).
  apply (proj2 (list_elem_of_In _ _)). exact Hget.
Qed.

Lemma ingest_edges_body_buffer (batch_size : nat) (db : destination arango_doc)
    (data : list (string * Node.t)) (tbl : gmap string string) (rel : Rel.t)
    (batches : list (string * list arango_doc)) (w : world arango_doc) :
  ingest_edges_body batch_size db data tbl rel batches w =
    match resolve_relation data tbl rel with
    | None => (Return batches, w)
    | Some (c, e) =>
        buffer_and_flush (Some (edges_warning c)) batch_size db c (EdgeD e)
          batches w
    end.
Proof.
  unfold ingest_edges_body.
  destruct (resolve_relation data tbl rel) as [[c e]|]; reflexivity.
Qed.

Lemma flush_remaining_edges_eq (db : destination arango_doc)
    (item : string * list arango_doc) (u : unit) (w : world arango_doc) :
  flush_remaining_edges db item u w
  = flush_remaining (fun c => Some (edges_warning c)) db item u w.
Proof. destruct item as [c [|d ds]]; reflexivity. Qed.

Lemma edge_buffers_start :
  PyDict.from_keys (elements edge_collections) ([] : list arango_doc)
  = map (fun c => (c, [])) (elements edge_collections).
Proof. vm_compute. reflexivity. Qed.

(** [ingest_edges] always returns, and hands over every resolved edge, in
    order, whatever the destination answers. *)
Lemma ingest_edges_with_spec (batch_size : nat) (db : destination arango_doc)
    (data : list (string * Node.t)) (tbl : gmap string string)
    (w0 : world arango_doc) :
  exists w',
    ingest_edges_with batch_size db data tbl w0 = (Return tt, w')
    /\ forall c, attempted c w'
                 = attempted c w0 ++ for_collection c (resolved data tbl).
Proof.
  unfold ingest_edges_with, bind.
  rewrite (for_each_nested (fun item => Node.relations (snd item)) _
             (ingest_edges_body batch_size db data tbl))
    by (intros [q n] s w; reflexivity).
  fold (all_relations data).
  pose (I := fun (pre : list Rel.t) (b : list (string * list arango_doc))
                 (w : world arango_doc) =>
               Buffered w0 (flat_map (resolve_entry data tbl) pre) b w
               /\ map fst b = elements edge_collections).
  pose (J := fun (_ : list Rel.t) (_ : string) (_ : world arango_doc) => False).
  assert (Hstep : forall pre x s w, I pre s w ->
            match ingest_edges_body batch_size db data tbl x s w with
            | (Return s', w') => I (pre ++ [x]) s' w'
            | (Raise e, w') => J (pre ++ [x]) e w'
            end).
  { intros pre rel b w [HB Hkeys]. rewrite ingest_edges_body_buffer.
    unfold I, J. rewrite flat_map_app. simpl. unfold resolve_entry at 2.
    destruct (resolve_relation data tbl rel) as [[c e]|] eqn:Er.
    - pose proof (buffer_and_flush_spec (Some (edges_warning c)) batch_size
                    db c (EdgeD e) _ _ _ _ HB) as Hs.
      destruct (buffer_and_flush _ _ _ _ _ _ _) as [[b'|err] w'].
      + destruct Hs as [HB' Hk']. simpl. split; [exact HB' | congruence].
      + destruct Hs as [_ [Hnone | [Hcatch _]]]; [| discriminate].
        destruct (get_is_Some (V := list arango_doc) c b) as [x Hx];
          [| congruence].
        rewrite Hkeys. eapply resolve_relation_edge_collection; eassumption.
    - simpl. rewrite app_nil_r. split; assumption. }
  assert (Hinit : I [] (PyDict.from_keys (elements edge_collections) []) w0).
  { unfold I. rewrite edge_buffers_start. split.
    - intros c. rewrite pending_empty_buffers. reflexivity.
    - apply keys_empty_buffers. }
  pose proof (for_each_inv I J _ Hstep (fun _ _ _ _ H => H)
                (all_relations data) [] _ w0 Hinit) as Hloop.
  simpl app in Hloop.
  destruct (for_each (all_relations data) _ _ w0) as [[batches|e] w1];
    [| destruct Hloop].
  destruct Hloop as [HB Hkeys].
  pose proof (flush_remaining_spec (fun c => Some (edges_warning c)) db
                (fun c => attempted c w0 ++ for_collection c (resolved data tbl))
                batches w1) as Hf.
  rewrite (for_each_ext (flush_remaining_edges db)
             (flush_remaining (fun c => Some (edges_warning c)) db))
    by (intros; apply flush_remaining_edges_eq).
  assert (Hnd : NoDup (map fst batches)).
  { rewrite Hkeys. apply NoDup_elements. }
  specialize (Hf Hnd HB).
  destruct (for_each batches _ tt w1) as [[[]|e] w2].
  - exists w2. split; [reflexivity | exact Hf].
  - destruct Hf as (_ & h & c & docs & Hcatch & _). discriminate.
Qed.

(* ===================================================================== *)
(** * [ingest_documents] *)
(* ===================================================================== *)

Lemma delivered_snoc {D : Type} (c : string) (w w' : world D) (k : call D) :
  calls w' = calls w ++ [k] ->
  delivered c w'
  = delivered c w
    ++ (if String.eqb (call_collection k) c
        then match call_error k with None => call_docs k | Some _ => [] end
        else []).
Proof.
  intros H. unfold delivered. rewrite H, flat_map_app. simpl.
  now rewrite app_nil_r.
Qed.

(** One protected import of [ingest_documents]: it returns, the batch was
    handed over, and the count grows by what was accepted. *)
Lemma import_counted (client : destination SearchDoc.t) (cn : string)
    (batch : list SearchDoc.t) (total : nat) (fmt : string -> string)
    (w : world SearchDoc.t) :
  exists total' w',
    try_except
      (import_bulk client cn batch ;;; ret (total + length batch)%nat)
      (fun e => print (fmt e) ;;; ret total) w = (Return total', w')
    /\ calls w' = calls w ++ [Call cn batch (client (calls w) cn batch)]
    /\ total' = match client (calls w) cn batch with
                | None => (total + length batch)%nat
                | Some _ => total
                end.
Proof.
  unfold try_except, bind, import_bulk, print, ret.
  destruct (client (calls w) cn batch) as [e|]; simpl;
    eexists; eexists; repeat split; reflexivity.
Qed.

(** [ingest_documents] always returns; it hands over the document of every
    indexed entity, in order, to its one collection, and returns the number
    of documents the destination accepted. *)
Lemma ingest_documents_with_spec {L : StrLower} (batch_size : nat)
    (client : destination SearchDoc.t) (data : list (string * Node.t))
    (cn : string) (w0 : world SearchDoc.t) :
  exists total w',
    ingest_documents_with batch_size client data cn w0 = (Return total, w')
    /\ attempted cn w' = attempted cn w0 ++ indexed data
    /\ (forall c, c <> cn -> attempted c w' = attempted c w0)
    /\ length (delivered cn w') = (length (delivered cn w0) + total)%nat.
Proof.
  unfold ingest_documents_with, bind.
  pose (I := fun (pre : list (string * Node.t))
                 (vars : list SearchDoc.t * nat) (w : world SearchDoc.t) =>
               attempted cn w ++ fst vars
               = attempted cn w0 ++ flat_map index_entry pre
               /\ (forall c, c <> cn -> attempted c w = attempted c w0)
               /\ length (delivered cn w)
                  = (length (delivered cn w0) + snd vars)%nat).
  pose (J := fun (_ : list (string * Node.t)) (_ : string)
                 (_ : world SearchDoc.t) => False).
  assert (Hflush : forall batch total fmt w T,
            attempted cn w ++ batch = T ->
            (forall c, c <> cn -> attempted c w = attempted c w0) ->
            length (delivered cn w) = (length (delivered cn w0) + total)%nat ->
            exists total' w',
              try_except
                (import_bulk client cn batch ;;; ret (total + length batch)%nat)
                (fun e => print (fmt e) ;;; ret total) w = (Return total', w')
              /\ attempted cn w' = T
              /\ (forall c, c <> cn -> attempted c w' = attempted c w0)
              /\ length (delivered cn w')
                 = (length (delivered cn w0) + total')%nat).
  { intros batch total fmt w T HT Hoth Hlen.
    destruct (import_counted client cn batch total fmt w)
      as (total' & w' & Hrun & Hc & Htot).
    exists total', w'. split; [exact Hrun |].
    rewrite (attempted_snoc cn w w' _ Hc). simpl. rewrite String.eqb_refl.
    split; [exact HT |]. split.
    - intros c Hne. rewrite (attempted_snoc c w w' _ Hc). simpl.
      destruct (String.eqb_spec cn c); [congruence |].
      rewrite app_nil_r. now apply Hoth.
    - rewrite (delivered_snoc cn w w' _ Hc). simpl. rewrite String.eqb_refl.
      rewrite length_app, Hlen, Htot.
      destruct (client (calls w) cn batch); simpl; lia. }
  assert (Hstep : forall pre x s w, I pre s w ->
            match ingest_documents_body batch_size client cn x s w with
            | (Return s', w') => I (pre ++ [x]) s' w'
            | (Raise e, w') => J (pre ++ [x]) e w'
            end).
  { intros pre [q n] [batch total] w (Hatt & Hoth & Hlen).
    simpl in Hatt, Hlen. unfold ingest_documents_body, I.
    rewrite flat_map_app. cbn [flat_map]. unfold index_entry at 2.
    cbn [fst snd]. destruct (should_index n); cbn [negb].
    - assert (Hatt' : attempted cn w ++ batch ++ [search_document q n]
                      = attempted cn w0 ++ flat_map index_entry pre
                          ++ [search_document q n]).
      { rewrite !app_assoc. now rewrite Hatt. }
      destruct (batch_size <=? length (batch ++ [search_document q n]))%nat.
      + unfold bind at 1.
        destruct (Hflush (batch ++ [search_document q n]) total
                    (fun e => "  Warning: Failed to import batch: " +:+ e)
                    w _ Hatt' Hoth Hlen)
          as (total' & w' & Hrun & Ha & Ho & Hl).
        cbv beta in Hrun. rewrite Hrun. unfold ret. cbn [fst snd].
        rewrite !app_nil_r. repeat split; assumption.
      + unfold ret. cbn [fst snd]. rewrite app_nil_r.
        repeat split; assumption.
    - unfold ret. cbn [fst snd]. rewrite app_nil_r.
      repeat split; assumption. }
  assert (Hinit : I [] ([], 0%nat) w0).
  { unfold I. simpl. rewrite !app_nil_r. repeat split. lia. }
  pose proof (for_each_inv I J _ Hstep (fun _ _ _ _ H => H)
                data [] _ w0 Hinit) as Hloop.
  simpl app in Hloop.
  destruct (for_each data _ _ w0) as [[[batch total]|e] w1];
    [| destruct Hloop].
  destruct Hloop as (Hatt & Hoth & Hlen). simpl in Hatt, Hlen.
  fold (indexed data) in Hatt.
  destruct batch as [|d ds].
  - exists total, w1. unfold ret. rewrite app_nil_r in Hatt.
    repeat split; assumption.
  - destruct (Hflush (d :: ds) total
                (fun e => "  Warning: Failed to import final batch: " +:+ e)
                w1 _ Hatt Hoth Hlen)
      as (total' & w' & Hrun & Ha & Ho & Hl).
    cbv beta in Hrun. exists total', w'. repeat split; assumption.
Qed.

(* ===================================================================== *)
(** * An always-available destination *)
(* ===================================================================== *)

Lemma accepted_ingest_nodes (batch_size : nat) (db : destination arango_doc)
    (data : list (string * Node.t)) :
  (forall h c docs, db h c docs = None) ->
  keeps all_accepted (ingest_nodes_with batch_size db data).
Proof.
  intros Hup. unfold ingest_nodes_with.
  apply keeps_bind.
  - apply keeps_for_each. intros [q n] [tbl b]. unfold ingest_nodes_body.
    destruct (determine_collection n) as [c|]; [| apply keeps_ret].
    apply keeps_bind; [apply keeps_getitem | intros docs].
    apply keeps_bind; [apply keeps_getitem | intros docs'].
    destruct (batch_size <=? length docs')%nat; [| apply keeps_ret].
    apply keeps_bind; [now apply accepted_import | intros _; apply keeps_ret].
  - intros [tbl b]. apply keeps_bind; [| intros _; apply keeps_ret].
    apply keeps_for_each. intros [c [|d ds]] u; simpl;
      [apply keeps_ret | now apply accepted_import].
Qed.

Lemma accepted_ingest_edges (batch_size : nat) (db : destination arango_doc)
    (data : list (string * Node.t)) (tbl : gmap string string) :
  (forall h c docs, db h c docs = None) ->
  keeps all_accepted (ingest_edges_with batch_size db data tbl).
Proof.
  intros Hup. unfold ingest_edges_with.
  apply keeps_bind.
  - apply keeps_for_each. intros [q n] b. apply keeps_for_each.
    intros rel b' w. rewrite ingest_edges_body_buffer.
    destruct (resolve_relation data tbl rel) as [[c e]|]; [| auto].
    now apply accepted_buffer_and_flush.
  - intros b. apply keeps_for_each. intros item u w.
    rewrite flush_remaining_edges_eq. now apply accepted_flush_remaining.
Qed.

Lemma accepted_ingest_documents {L : StrLower} (batch_size : nat)
    (client : destination SearchDoc.t) (data : list (string * Node.t))
    (cn : string) :
  (forall h c docs, client h c docs = None) ->
  keeps all_accepted (ingest_documents_with batch_size client data cn).
Proof.
  intros Hup.
  assert (Himp : forall batch total (fmt : string -> string),
            keeps all_accepted
              (try_except
                 (import_bulk client cn batch ;;; ret (total + length batch)%nat)
                 (fun e => print (fmt e) ;;; ret total))).
  { intros batch total fmt. apply keeps_try_except.
    - apply keeps_bind; [now apply accepted_import | intros _; apply keeps_ret].
    - intros e. apply keeps_bind; [apply accepted_print |].
      intros _. apply keeps_ret. }
  unfold ingest_documents_with. apply keeps_bind.
  - apply keeps_for_each. intros [q n] [batch total].
    unfold ingest_documents_body.
    destruct (negb (should_index n)); [apply keeps_ret |].
    destruct (batch_size <=? length _)%nat; [| apply keeps_ret].
    apply keeps_bind; [| intros t; apply keeps_ret].
    apply (Himp _ _ (fun e => "  Warning: Failed to import batch: " +:+ e)).
  - intros [[|d ds] total]; [apply keeps_ret |].
    apply (Himp _ _ (fun e => "  Warning: Failed to import final batch: " +:+ e)).
Qed.

Lemma all_accepted_start {D : Type} : all_accepted (start_world (D := D)).
Proof. constructor. Qed.

(** With the destination available, [ingest_nodes] returns the routing
    table and has delivered every classified document. *)
Lemma ingest_nodes_with_up (batch_size : nat) (db : destination arango_doc)
    (data : list (string * Node.t)) (w0 : world arango_doc) :
  (forall h c docs, db h c docs = None) ->
  all_accepted w0 ->
  exists w,
    ingest_nodes_with batch_size db data w0 = (Return (routing_table data), w)
    /\ all_accepted w
    /\ forall c, attempted c w
                 = attempted c w0 ++ for_collection c (classified data).
Proof.
  intros Hup Hw0.
  pose proof (ingest_nodes_with_spec batch_size db data w0) as Hs.
  pose proof (accepted_ingest_nodes batch_size db data Hup w0 Hw0) as Ha.
  destruct (ingest_nodes_with batch_size db data w0) as [[tbl|e] w].
  - destruct Hs as [-> Hatt]. exists w. auto.
  - destruct Hs as (_ & h & c & docs & Hdb). rewrite Hup in Hdb. discriminate.
Qed.


(* ===================================================================== *)
(** * Membership *)
(* ===================================================================== *)

Lemma in_for_collection {D : Type} (c : string) (d : D)
    (stream : list (string * D)) :
  In d (for_collection c stream) <-> In (c, d) stream.
Proof.
  unfold for_collection. rewrite in_flat_map. split.
  - intros [[c' d'] [Hin Hd]]. simpl in Hd.
    destruct (String.eqb_spec c' c) as [-> | Hne]; [| destruct Hd].
    destruct Hd as [-> | []]. exact Hin.
  - intros Hin. exists (c, d). split; [exact Hin |]. simpl.
    rewrite String.eqb_refl. now left.
Qed.

Lemma in_attempted {D : Type} (w : world D) (k : call D) (d : D) :
  In k (calls w) -> In d (call_docs k) -> In d (attempted (call_collection k) w).
Proof.
  intros Hk Hd. unfold attempted. apply in_flat_map. exists k.
  split; [exact Hk |]. now rewrite String.eqb_refl.
Qed.

Lemma in_classified (data : list (string * Node.t)) (c : string)
    (d : arango_doc) :
  In (c, d) (classified data) <->
  exists q n, In (q, n) data /\ determine_collection n = Some c
              /\ d = NodeD (node_document data q n c).
Proof.
  unfold classified, classified_in. rewrite in_flat_map. split.
  - intros [[q n] [Hin Hd]]. unfold classify_entry in Hd. simpl in Hd.
    destruct (determine_collection n) as [c'|] eqn:Ec; [| destruct Hd].
    destruct Hd as [[= -> <-] | []]. eauto.
  - intros (q & n & Hin & Ec & ->). exists (q, n). split; [exact Hin |].
    unfold classify_entry. simpl. rewrite Ec. now left.
Qed.


Lemma in_indexed {L : StrLower} (data : list (string * Node.t)) (d : SearchDoc.t) :
  In d (indexed data) <->
  exists q n, In (q, n) data /\ should_index n = true
              /\ d = search_document q n.
Proof.
  unfold indexed. rewrite in_flat_map. split.
  - intros [[q n] [Hin Hd]]. unfold index_entry in Hd. simpl in Hd.
    destruct (should_index n) eqn:Es; [| destruct Hd].
    destruct Hd as [<- | []]. eauto.
  - intros (q & n & Hin & Es & ->). exists (q, n). split; [exact Hin |].
    unfold index_entry. simpl. rewrite Es. now left.
Qed.


(* ===================================================================== *)
(** * Iteration order *)
(* ===================================================================== *)





(* ===================================================================== *)
(** * Name variants and the indexing filter *)
(* ===================================================================== *)





Lemma should_index_iff (node : Node.t) :
  should_index node = true <->
  (exists kind, Node.kind node = Some kind
                /\ str_in kind INDEXABLE_KINDS = true)
  /\ no_marker (default "" (Node.qualified_name node)) = true.
Proof.
  unfold should_index, no_marker.
  destruct (Node.kind node) as [k|].
  - destruct (str_in k INDEXABLE_KINDS) eqn:Hk; cbn [negb].
    + destruct (PyStr.contains ".param." _), (PyStr.contains ".return" _),
        (PyStr.contains ".yields." _); cbn [negb orb andb];
        (split; [intros H; try discriminate; eauto
                | intros [_ H]; try discriminate; reflexivity]).
    + split; [discriminate |]. intros [[k' [[= <-] Hk']] _]. congruence.
  - split; [discriminate |]. intros [[k' [Hk' _]] _]. discriminate.
Qed.

(** When the record carries the qname it is stored under, the filter is
    the one on that qname. *)
Lemma should_index_labelled (qname : string) (node : Node.t) :
  Node.qualified_name node = Some qname ->
  should_index node = true <->
  (exists kind, Node.kind node = Some kind
                /\ str_in kind INDEXABLE_KINDS = true)
  /\ no_marker qname = true.
Proof.
  intros Hq. rewrite should_index_iff, Hq. reflexivity.
Qed.




(** Every indexed entity has its document handed to the search
    collection, whatever the destination answers. *)
Lemma indexed_documents_handed {L : StrLower} (batch_size : nat)
    (client : destination SearchDoc.t) (data : list (string * Node.t))
    (cn qname : string) (node : Node.t) :
  In (qname, node) data -> should_index node = true ->
  In (search_document qname node)
     (attempted cn
        (snd (ingest_documents_with batch_size client data cn start_world))).
Proof.
  intros Hin Hidx.
  destruct (ingest_documents_with_spec batch_size client data cn start_world)
    as (total & w & Hrun & Hatt & _).
  rewrite Hrun. simpl. rewrite Hatt. apply in_indexed. eauto.
Qed.

(** C10. For an indexed entity whose [name] is absent, null or empty, the
    document handed to the search collection has as [name] what follows
    the last ["."] of the qname (the whole qname when it has none), and
    its name variants are those of that string. *)
Theorem C10_name_defaults_to_last_segment {L : StrLower} (batch_size : nat)
    (client : destination SearchDoc.t) (data : list (string * Node.t))
    (cn qname : string) (node : Node.t) :
  In (qname, node) data ->
  should_index node = true ->
  Node.name node = None \/ Node.name node = Some "" ->
  let d := search_document qname node in
  In d (attempted cn
          (snd (ingest_documents_with batch_size client data cn start_world)))
  /\ SearchDoc.name d = PyStr.split_last "." qname
  /\ after_last_dot qname (SearchDoc.name d)
  /\ SearchDoc.name_variants d
     = make_name_variants (Some (PyStr.split_last "." qname)).
Proof.
  intros Hin Hidx Hname d.
  assert (Hd : SearchDoc.name d = PyStr.split_last "." qname).
  { unfold d, search_document. cbn [SearchDoc.name].
    destruct Hname as [-> | ->]; reflexivity. }
  split; [now apply indexed_documents_handed |].
  split; [exact Hd |]. split.
  - rewrite Hd. apply split_last_after_last_dot.
  - unfold d, search_document. cbn [SearchDoc.name_variants].
    destruct Hname as [-> | ->]; reflexivity.
Qed.

Lemma C10_witness :
  let L := ascii_only in
  let d := search_document "shop.Cart"
             (entity "class" (Some "shop")
                [relation "CLASS_DEF" "shop.Cart" "shop"]) in
  In d (attempted "code_nodes"
          (snd (ingest_documents always_up shop_data "code_nodes" start_world)))
  /\ SearchDoc.name d = PyStr.split_last "." "shop.Cart"
  /\ after_last_dot "shop.Cart" (SearchDoc.name d)
  /\ SearchDoc.name_variants d
     = make_name_variants (Some (PyStr.split_last "." "shop.Cart")).
Proof.
  apply (C10_name_defaults_to_last_segment 100 always_up shop_data
           "code_nodes" "shop.Cart").
  - simpl. right. left. reflexivity.
  - vm_compute. reflexivity.
  - left. reflexivity.
Defined.

(* ===================================================================== *)
(** * The scope filter for assignments *)
(* ===================================================================== *)

(** No document of [ingest_nodes] carries the qname of an entity that
    does not classify. *)
Lemma unclassified_not_handed (batch_size : nat) (db : destination arango_doc)
    (data : list (string * Node.t)) (qname : string) (node : Node.t) :
  NoDup (map fst data) ->
  In (qname, node) data ->
  determine_collection node = None ->
  forall k d,
    In k (calls (snd (ingest_nodes_with batch_size db data start_world))) ->
    In d (call_docs k) ->
    exists n, d = NodeD n /\ NodeDoc.qname n <> qname.
Proof.
  intros Hnd Hin Hnone k d Hk Hd.
  pose proof (in_attempted _ k d Hk Hd) as Hatt.
  pose proof (ingest_nodes_with_spec batch_size db data start_world) as Hs.
  destruct (ingest_nodes_with batch_size db data start_world) as [[tbl|e] w];
    simpl in Hatt.
  - destruct Hs as [_ Hall]. rewrite Hall in Hatt. simpl in Hatt.
    apply in_for_collection, in_classified in Hatt
      as (q & n & Hqn & Hc & ->).
    eexists. split; [reflexivity |]. simpl. intros ->.
    apply (In_get_Some _ _ _ Hnd) in Hin, Hqn. congruence.
  - destruct Hs as [Hh _]. destruct (Hh (call_collection k)) as [rest Hrest].
    simpl in Hrest.
    assert (Hatt' : In d (for_collection (call_collection k) (classified data))).
    { rewrite <- Hrest. apply in_or_app. now left. }
    apply in_for_collection, in_classified in Hatt'
      as (q & n & Hqn & Hc & ->).
    eexists. split; [reflexivity |]. simpl. intros ->.
    apply (In_get_Some _ _ _ Hnd) in Hin, Hqn. congruence.
Qed.

(** C9. An assignment or augmented assignment whose
    [parent_qualified_name] is absent, null or empty does not classify:
    the routing table has no entry for its qname, and no document handed
    to the destination carries its qname. *)
Theorem C9_assignment_without_parent_is_dropped (batch_size : nat)
    (db : destination arango_doc) (data : list (string * Node.t))
    (qname : string) (node : Node.t) :
  NoDup (map fst data) ->
  In (qname, node) data ->
  assignment_kind node ->
  Node.parent_qualified_name node = None
  \/ Node.parent_qualified_name node = Some "" ->
  determine_collection node = None
  /\ routing_table data !! qname = None
  /\ (forall tbl w,
        ingest_nodes_with batch_size db data start_world = (Return tbl, w) ->
        tbl !! qname = None)
  /\ (forall k d,
        In k (calls (snd (ingest_nodes_with batch_size db data start_world))) ->
        In d (call_docs k) ->
        exists n, d = NodeD n /\ NodeDoc.qname n <> qname).
Proof.
  intros Hnd Hin Hkind Hparent.
  assert (Hnone : determine_collection node = None).
  { rewrite determine_collection_assignment by exact Hkind.
    destruct Hparent as [-> | ->]; reflexivity. }
  assert (Htbl : routing_table data !! qname = None).
  { rewrite routing_table_lookup by exact Hnd.
    rewrite (In_get_Some _ _ _ Hnd Hin). exact Hnone. }
  split; [exact Hnone |]. split; [exact Htbl |]. split.
  - intros tbl w Hrun.
    pose proof (ingest_nodes_with_spec batch_size db data start_world) as Hs.
    rewrite Hrun in Hs. destruct Hs as [-> _]. exact Htbl.
  - now apply unclassified_not_handed with (node := node).
Qed.

Lemma shop_data_NoDup : NoDup (map fst shop_data).
Proof. apply (bool_decide_unpack _). vm_compute. reflexivity. Qed.

Lemma C9_witness :
  determine_collection (entity "assignment" None []) = None
  /\ routing_table shop_data !! "shop.scratch" = None
  /\ (forall tbl w,
        ingest_nodes always_up shop_data start_world = (Return tbl, w) ->
        tbl !! "shop.scratch" = None)
  /\ (forall k d,
        In k (calls (snd (ingest_nodes always_up shop_data start_world))) ->
        In d (call_docs k) ->
        exists n, d = NodeD n /\ NodeDoc.qname n <> "shop.scratch").
Proof.
  apply (C9_assignment_without_parent_is_dropped 1000 always_up shop_data
           "shop.scratch").
  - exact shop_data_NoDup.
  - simpl. do 5 right. left. reflexivity.
  - left. reflexivity.
  - left. reflexivity.
Defined.

(** C6, as the code has it. An assignment or augmented assignment
    classifies into ["members"] exactly when its parent qname is non-empty
    and does not contain [.assignment.]; then its qname enters the routing
    table and it has a ["members"] document. Otherwise it does not
    classify, has no routing-table entry and no document. *)
Theorem C6_assignment_scope_filter (data : list (string * Node.t))
    (qname : string) (node : Node.t) :
  NoDup (map fst data) ->
  In (qname, node) data ->
  assignment_kind node ->
  let module_scope :=
    match Node.parent_qualified_name node with
    | Some parent =>
        PyStr.truthy parent && negb (PyStr.contains ".assignment." parent)
    | None => false
    end in
  determine_collection node = (if module_scope then Some "members" else None)
  /\ routing_table data !! qname
     = (if module_scope then Some "members" else None)
  /\ (if module_scope
      then In ("members", NodeD (node_document data qname node "members"))
              (classified data)
      else forall c d, In (c, NodeD d) (classified data) ->
                       NodeDoc.qname d <> qname).
Proof.
  intros Hnd Hin Hkind module_scope.
  assert (Hdet : determine_collection node
                 = if module_scope then Some "members" else None).
  { rewrite determine_collection_assignment by exact Hkind.
    unfold module_scope. destruct (Node.parent_qualified_name node);
      reflexivity. }
  split; [exact Hdet |]. split.
  - rewrite routing_table_lookup by exact Hnd.
    rewrite (In_get_Some _ _ _ Hnd Hin). exact Hdet.
  - destruct module_scope.
    + apply in_classified. eauto.
    + intros c d Hd. apply in_classified in Hd as (q & n & Hqn & Hc & [= ->]).
      simpl. intros ->.
      apply (In_get_Some _ _ _ Hnd) in Hin, Hqn. congruence.
Qed.

Lemma C6_witness :
  determine_collection (entity "assignment" (Some "shop") []) = Some "members"
  /\ routing_table shop_data !! "shop.LIMIT" = Some "members"
  /\ In ("members",
         NodeD (node_document shop_data "shop.LIMIT"
                  (entity "assignment" (Some "shop") []) "members"))
        (classified shop_data).
Proof.
  apply (C6_assignment_scope_filter shop_data "shop.LIMIT"
           (entity "assignment" (Some "shop") [])).
  - exact shop_data_NoDup.
  - simpl. do 4 right. left. reflexivity.
  - left. reflexivity.
Defined.

(** C6, as stated, fails: a module-level assignment of a module whose
    qname contains [.assignment.] produces no node. *)
Lemma C6_counterexample : ~ module_level_assignment_as_stated.
Proof.
  intros H.
  destruct (H assignment_package_data "school.assignment.utils.LIMIT"
              (entity "assignment" (Some "school.assignment.utils") [])
              "school.assignment.utils" (entity "module" None []))
    as [Hdet _].
  - apply (bool_decide_unpack _). vm_compute. reflexivity.
  - simpl. right. left. reflexivity.
  - left. reflexivity.
  - reflexivity.
  - vm_compute. reflexivity.
  - reflexivity.
  - vm_compute in Hdet. discriminate.
Qed.

(* ===================================================================== *)
(** * Relation resolution *)
(* ===================================================================== *)

Lemma rel_table_truthy (rt : string) (c : option string) :
  PyDict.get rt REL_TO_EDGE_COLLECTION = Some c -> PyStr.truthy rt = true.
Proof. destruct rt; [discriminate | reflexivity]. Qed.

(** What resolution does with a call whose target is a class. *)
Lemma resolve_constructor_call (data : list (string * Node.t))
    (tbl : gmap string string) (rel : Rel.t) (rel_type source target : string) :
  Rel.rel_type rel = Some rel_type ->
  Rel.source rel = Some source ->
  Rel.target rel = Some target ->
  PyDict.get rel_type REL_TO_EDGE_COLLECTION = Some (Some "calls") ->
  tbl !! target = Some "types" ->
  resolve_relation data tbl rel =
    match tbl !! (target +:+ ".__init__"), tbl !! source with
    | Some target_coll, Some source_coll =>
        if PyStr.truthy source && PyStr.truthy target
           && PyStr.truthy source_coll && PyStr.truthy target_coll
        then
          Some ("calls",
                {| EdgeDoc._key :=
                     make_key (source +:+ ":" +:+ (target +:+ ".__init__")
                               +:+ ":" +:+ rel_type);
                   EdgeDoc._from := source_coll +:+ "/" +:+ make_key source;
                   EdgeDoc._to :=
                     target_coll +:+ "/"
                     +:+ make_key (target +:+ ".__init__");
                   EdgeDoc.call_site_pos :=
                     if truthy_int (pos_start (Rel.pos rel))
                     then pos_start (Rel.pos rel) else None |})
        else None
    | _, _ => None
    end.
Proof.
  intros Hrt Hs Ht Hget Htbl. unfold resolve_relation.
  rewrite Hrt, Hs, Ht, Hget, Htbl, (rel_table_truthy _ _ Hget).
  change (opt_eqb (Some "types") "types") with true.
  change (String.eqb "calls" "calls") with true.
  change (String.eqb "calls" "parent") with false.
  change (PyStr.truthy "calls") with true.
  cbn [negb orb andb].
  destruct (PyStr.truthy source), (PyStr.truthy target);
    cbn [negb orb andb];
    destruct (tbl !! (target +:+ ".__init__")) as [tc|];
    destruct (tbl !! source) as [sc|]; try reflexivity.
  destruct (PyStr.truthy sc), (PyStr.truthy tc); reflexivity.
Qed.

(** C1, as the code has it. A call whose target is a class is resolved
    against [target + ".__init__"]: without a routing-table entry for it no
    edge is emitted; with one, an emitted edge is a ["calls"] edge whose
    target is the storage key of the initializer under the node class the
    routing table gives the initializer, and whose own key is built from
    the initializer qname; and an edge is emitted as soon as both ends are
    resolved. *)
Theorem C1_constructor_redirection (data : list (string * Node.t))
    (tbl : gmap string string) (rel : Rel.t) (rel_type source target : string) :
  Rel.rel_type rel = Some rel_type ->
  Rel.source rel = Some source ->
  Rel.target rel = Some target ->
  PyDict.get rel_type REL_TO_EDGE_COLLECTION = Some (Some "calls") ->
  tbl !! target = Some "types" ->
  let init_qname := target +:+ ".__init__" in
  (tbl !! init_qname = None -> resolve_relation data tbl rel = None)
  /\ (forall edge_coll e,
        resolve_relation data tbl rel = Some (edge_coll, e) ->
        edge_coll = "calls"
        /\ exists target_coll,
             tbl !! init_qname = Some target_coll
             /\ EdgeDoc._to e = target_coll +:+ "/" +:+ make_key init_qname
             /\ EdgeDoc._key e
                = make_key (source +:+ ":" +:+ init_qname
                            +:+ ":" +:+ rel_type))
  /\ (forall source_coll target_coll,
        tbl !! init_qname = Some target_coll ->
        tbl !! source = Some source_coll ->
        PyStr.truthy source = true -> PyStr.truthy target = true ->
        PyStr.truthy source_coll = true -> PyStr.truthy target_coll = true ->
        exists e, resolve_relation data tbl rel = Some ("calls", e)).
Proof.
  intros Hrt Hs Ht Hget Htbl init_qname.
  rewrite (resolve_constructor_call data tbl rel rel_type source target)
    by assumption.
  fold init_qname. split; [| split].
  - intros ->. reflexivity.
  - intros edge_coll e.
    destruct (tbl !! init_qname) as [tc|], (tbl !! source);
      try discriminate.
    destruct (_ && _); [| discriminate]. intros [= <- <-].
    split; [reflexivity |]. exists tc. repeat split.
  - intros sc tc -> -> -> -> -> ->. eexists. reflexivity.
Qed.

Lemma C1_witness :
  let rel := relation "CALLS" "shop.checkout" "shop.Cart" in
  let tbl := routing_table shop_data in
  (tbl !! "shop.Cart.__init__" = None ->
   resolve_relation shop_data tbl rel = None)
  /\ (forall edge_coll e,
        resolve_relation shop_data tbl rel = Some (edge_coll, e) ->
        edge_coll = "calls"
        /\ exists target_coll,
             tbl !! "shop.Cart.__init__" = Some target_coll
             /\ EdgeDoc._to e
                = target_coll +:+ "/" +:+ make_key "shop.Cart.__init__"
             /\ EdgeDoc._key e
                = make_key ("shop.checkout" +:+ ":" +:+ "shop.Cart.__init__"
                            +:+ ":" +:+ "CALLS"))
  /\ (forall source_coll target_coll,
        tbl !! "shop.Cart.__init__" = Some target_coll ->
        tbl !! "shop.checkout" = Some source_coll ->
        PyStr.truthy "shop.checkout" = true ->
        PyStr.truthy "shop.Cart" = true ->
        PyStr.truthy source_coll = true -> PyStr.truthy target_coll = true ->
        exists e, resolve_relation shop_data tbl rel = Some ("calls", e)).
Proof.
  apply (C1_constructor_redirection shop_data (routing_table shop_data)
           (relation "CALLS" "shop.checkout" "shop.Cart")
           "CALLS" "shop.checkout" "shop.Cart").
  - reflexivity.
  - reflexivity.
  - reflexivity.
  - reflexivity.
  - vm_compute. reflexivity.
Defined.

(** C1, as stated, fails: when the initializer of the class is not in node
    class ["functions"], the emitted edge points into the class the routing
    table gives it. *)
Lemma C1_counterexample : ~ constructor_redirection_as_stated.
Proof.
  intros H.
  destruct (H aliased_init_data (relation "CALLS" "m.f" "m.C")
              "CALLS" "m.f" "m.C") as [Hto _].
  - apply (bool_decide_unpack _). vm_compute. reflexivity.
  - reflexivity.
  - reflexivity.
  - reflexivity.
  - reflexivity.
  - vm_compute. reflexivity.
  - specialize (Hto ltac:(vm_compute; eauto) "calls"
        {| EdgeDoc._key := make_key "m.f:m.C.__init__:CALLS";
           EdgeDoc._from := "functions/" +:+ make_key "m.f";
           EdgeDoc._to := "members/" +:+ make_key "m.C.__init__";
           EdgeDoc.call_site_pos := None |}
        ltac:(vm_compute; reflexivity)).
    vm_compute in Hto. discriminate.
Qed.

Lemma ref_collection_prefix (c rest : string) :
  free_of "/" c = true -> ref_collection (c +:+ "/" +:+ rest) = c.
Proof.
  induction c as [|a c IH]; intros Hfree.
  - reflexivity.
  - rewrite append_cons. simpl in *.
    destruct (Ascii.eqb a "/"); [discriminate |]. simpl in Hfree.
    now rewrite IH.
Qed.

Lemma node_collection_free_of_slash (c : string) :
  In c NODE_COLLECTIONS -> free_of "/" c = true.
Proof.
  unfold NODE_COLLECTIONS. simpl.
  intros [<- | [<- | [<- | [<- | [<- | []]]]]]; reflexivity.
Qed.

(** C2, as the code has it. Every edge that resolution emits lies in the
    fixed edge collection that the table gives for its rel_type, and both
    its ends are qualified by a node collection of the fixed set and the
    storage key of a qname: the source by its class in the routing table,
    the target by the class in the routing table of the target or, for a
    redirected constructor call, of its [__init__], or by ["modules"]
    when the target of a parent edge is a module of the input; the key of
    the edge is built from the source, that target and the rel_type. The
    declared from/to sets are not consulted. *)
Theorem C2_emitted_edges_are_resolved (data : list (string * Node.t))
    (rel : Rel.t) (edge_coll : string) (e : EdgeDoc.t) :
  resolve_relation data (routing_table data) rel = Some (edge_coll, e) ->
  In edge_coll (map edge_collection EDGE_DEFINITIONS)
  /\ In (ref_collection (EdgeDoc._from e)) NODE_COLLECTIONS
  /\ In (ref_collection (EdgeDoc._to e)) NODE_COLLECTIONS
  /\ exists rel_type source target target',
       Rel.rel_type rel = Some rel_type
       /\ Rel.source rel = Some source
       /\ Rel.target rel = Some target
       /\ PyDict.get rel_type REL_TO_EDGE_COLLECTION = Some (Some edge_coll)
       /\ routing_table data !! source
          = Some (ref_collection (EdgeDoc._from e))
       /\ EdgeDoc._from e
          = ref_collection (EdgeDoc._from e) +:+ "/" +:+ make_key source
       /\ EdgeDoc._to e
          = ref_collection (EdgeDoc._to e) +:+ "/" +:+ make_key target'
       /\ EdgeDoc._key e
          = make_key (source +:+ ":" +:+ target' +:+ ":" +:+ rel_type)
       /\ ((edge_coll = "calls"
            /\ routing_table data !! target = Some "types"
            /\ target' = target +:+ ".__init__"
            /\ routing_table data !! target'
               = Some (ref_collection (EdgeDoc._to e)))
           \/ (target' = target
               /\ (routing_table data !! target
                   = Some (ref_collection (EdgeDoc._to e))
                   \/ (edge_coll = "parent"
                       /\ ref_collection (EdgeDoc._to e) = "modules"
                       /\ exists node,
                            PyDict.get target data = Some node
                            /\ Node.kind node = Some "module")))).
Proof.
  intros H. apply resolve_relation_Some in H
    as (rt & s & t & t' & sc & tc & Hrt & Hs & Ht & Hget & Hsc & _ & _
        & Hkey & Hfrom & Hto & Htarget).
  assert (Hscn : In sc NODE_COLLECTIONS)
    by (eapply routing_table_range; eassumption).
  assert (Htcn : In tc NODE_COLLECTIONS).
  { destruct Htarget as [(_ & _ & _ & Htc) | (_ & [Htc | (_ & -> & _)])].
    - eapply routing_table_range; eassumption.
    - eapply routing_table_range; eassumption.
    - unfold NODE_COLLECTIONS. simpl. auto 10. }
  assert (Hrf : ref_collection (EdgeDoc._from e) = sc).
  { rewrite Hfrom. apply ref_collection_prefix.
    now apply node_collection_free_of_slash. }
  assert (Hrt' : ref_collection (EdgeDoc._to e) = tc).
  { rewrite Hto. apply ref_collection_prefix.
    now apply node_collection_free_of_slash. }
  rewrite Hrf, Hrt'.
  split; [eapply rel_table_range; eassumption |].
  split; [exact Hscn |]. split; [exact Htcn |].
  exists rt, s, t, t'.
  split; [exact Hrt |]. split; [exact Hs |]. split; [exact Ht |].
  split; [exact Hget |]. split; [exact Hsc |]. split; [exact Hfrom |].
  split; [exact Hto |]. split; [exact Hkey |]. exact Htarget.
Qed.

Lemma C2_witness :
  let e := {| EdgeDoc._key := make_key "shop.Cart:shop:CLASS_DEF";
              EdgeDoc._from := "types/" +:+ make_key "shop.Cart";
              EdgeDoc._to := "modules/" +:+ make_key "shop";
              EdgeDoc.call_site_pos := None |} in
  let rel := relation "CLASS_DEF" "shop.Cart" "shop" in
  In "parent" (map edge_collection EDGE_DEFINITIONS)
  /\ In (ref_collection (EdgeDoc._from e)) NODE_COLLECTIONS
  /\ In (ref_collection (EdgeDoc._to e)) NODE_COLLECTIONS
  /\ exists rel_type source target target',
       Rel.rel_type rel = Some rel_type
       /\ Rel.source rel = Some source
       /\ Rel.target rel = Some target
       /\ PyDict.get rel_type REL_TO_EDGE_COLLECTION = Some (Some "parent")
       /\ routing_table shop_data !! source
          = Some (ref_collection (EdgeDoc._from e))
       /\ EdgeDoc._from e
          = ref_collection (EdgeDoc._from e) +:+ "/" +:+ make_key source
       /\ EdgeDoc._to e
          = ref_collection (EdgeDoc._to e) +:+ "/" +:+ make_key target'
       /\ EdgeDoc._key e
          = make_key (source +:+ ":" +:+ target' +:+ ":" +:+ rel_type)
       /\ (("parent" = "calls"
            /\ routing_table shop_data !! target = Some "types"
            /\ target' = target +:+ ".__init__"
            /\ routing_table shop_data !! target'
               = Some (ref_collection (EdgeDoc._to e)))
           \/ (target' = target
               /\ (routing_table shop_data !! target
                   = Some (ref_collection (EdgeDoc._to e))
                   \/ ("parent" = "parent"
                       /\ ref_collection (EdgeDoc._to e) = "modules"
                       /\ exists node,
                            PyDict.get target shop_data = Some node
                            /\ Node.kind node = Some "module")))).
Proof.
  apply (C2_emitted_edges_are_resolved shop_data
           (relation "CLASS_DEF" "shop.Cart" "shop") "parent").
  vm_compute. reflexivity.
Defined.

(** C2, as stated, fails: a call made by a module is emitted as a
    ["calls"] edge from node class ["modules"], which the declaration of
    ["calls"] does not allow. *)
Lemma C2_counterexample : ~ edge_constraints_as_stated.
Proof.
  intros H.
  specialize (H module_call_data (relation "CALLS" "m" "m.f") "calls"
    {| EdgeDoc._key := make_key "m:m.f:CALLS";
       EdgeDoc._from := "modules/" +:+ make_key "m";
       EdgeDoc._to := "functions/" +:+ make_key "m.f";
       EdgeDoc.call_site_pos := None |}).
  assert (Hw : within_definition "calls"
    {| EdgeDoc._key := make_key "m:m.f:CALLS";
       EdgeDoc._from := "modules/" +:+ make_key "m";
       EdgeDoc._to := "functions/" +:+ make_key "m.f";
       EdgeDoc.call_site_pos := None |} = true).
  { apply H.
    - apply (bool_decide_unpack _). vm_compute. reflexivity.
    - simpl. left. reflexivity.
    - vm_compute. reflexivity. }
  vm_compute in Hw. discriminate.
Qed.

(* ===================================================================== *)
(** * Batches and failures *)
(* ===================================================================== *)

(** A failed import never makes [ingest_edges] raise. *)
Lemma ingest_edges_never_raises (batch_size : nat)
    (db : destination arango_doc) (data : list (string * Node.t))
    (tbl : gmap string string) (w0 : world arango_doc) :
  fst (ingest_edges_with batch_size db data tbl w0) = Return tt.
Proof.
  destruct (ingest_edges_with_spec batch_size db data tbl w0)
    as (w & Hrun & _).
  now rewrite Hrun.
Qed.

(** A failed import never makes [ingest_documents] raise. *)
Lemma ingest_documents_never_raises {L : StrLower} (batch_size : nat)
    (client : destination SearchDoc.t) (data : list (string * Node.t))
    (cn : string) (w0 : world SearchDoc.t) :
  exists total,
    fst (ingest_documents_with batch_size client data cn w0) = Return total.
Proof.
  destruct (ingest_documents_with_spec batch_size client data cn w0)
    as (total & w & Hrun & _).
  exists total. now rewrite Hrun.
Qed.

(** C3. The code does not isolate a failed flush of a node collection:
    with the ["functions"] collection unavailable, ingestion raises at the
    first import; the classified documents of ["types"] and the
    resolved ["parent"] edges are never handed over, and nothing is
    logged. *)
Theorem C3_failed_node_flush_aborts_ingestion :
  let r := ingest_all functions_down shop_data start_world in
  fst r = Raise "unavailable"
  /\ map call_collection (calls (snd r)) = ["functions"]
  /\ stdout (snd r) = ["Ingesting nodes..."]
  /\ for_collection "types" (classified shop_data) <> []
  /\ attempted "types" (snd r) = []
  /\ for_collection "parent" (resolved shop_data (routing_table shop_data))
     <> []
  /\ attempted "parent" (snd r) = [].
Proof.
  vm_compute. repeat split; discriminate.
Qed.

(** C4. With every flush succeeding, each of the three ingestions returns
    and has delivered to every collection exactly the documents destined to
    it, each once and in order, for every batch threshold and every number
    of documents; [ingest_documents] returns their number. *)
Theorem C4_batch_flush_completeness {L : StrLower} (batch_size : nat)
    (db : destination arango_doc) (client : destination SearchDoc.t)
    (data : list (string * Node.t)) (tbl : gmap string string)
    (cn c : string) :
  (forall h c docs, db h c docs = None) ->
  (forall h c docs, client h c docs = None) ->
  (exists w,
     ingest_nodes_with batch_size db data start_world
     = (Return (routing_table data), w)
     /\ delivered c w = for_collection c (classified data))
  /\ (exists w,
        ingest_edges_with batch_size db data tbl start_world = (Return tt, w)
        /\ delivered c w = for_collection c (resolved data tbl))
  /\ (exists w,
        ingest_documents_with batch_size client data cn start_world
        = (Return (length (indexed data)), w)
        /\ delivered cn w = indexed data
        /\ (c <> cn -> delivered c w = [])).
Proof.
  intros Hdb Hclient. split; [| split].
  - destruct (ingest_nodes_with_up batch_size db data start_world Hdb
                all_accepted_start) as (w & Hrun & Hacc & Hatt).
    exists w. split; [exact Hrun |].
    rewrite delivered_attempted by exact Hacc. now rewrite Hatt.
  - destruct (ingest_edges_with_spec batch_size db data tbl start_world)
      as (w & Hrun & Hatt).
    pose proof (accepted_ingest_edges batch_size db data tbl Hdb start_world
                  all_accepted_start) as Hacc.
    rewrite Hrun in Hacc. exists w. split; [exact Hrun |].
    rewrite delivered_attempted by exact Hacc. now rewrite Hatt.
  - destruct (ingest_documents_with_spec batch_size client data cn start_world)
      as (total & w & Hrun & Hatt & Hoth & Hlen).
    pose proof (accepted_ingest_documents batch_size client data cn Hclient
                  start_world all_accepted_start) as Hacc.
    rewrite Hrun in Hacc. simpl in Hacc.
    assert (Hdel : delivered cn w = indexed data).
    { rewrite delivered_attempted by exact Hacc. now rewrite Hatt. }
    assert (Htot : total = length (indexed data)).
    { rewrite Hdel in Hlen. simpl in Hlen. lia. }
    exists w. rewrite <- Htot. split; [exact Hrun |].
    split; [exact Hdel |]. intros Hne.
    rewrite delivered_attempted by exact Hacc. now rewrite Hoth.
Qed.

Lemma C4_witness :
  let L := ascii_only in
  (exists w,
     ingest_nodes_with 2 always_up shop_data start_world
     = (Return (routing_table shop_data), w)
     /\ delivered "functions" w
        = for_collection "functions" (classified shop_data))
  /\ (exists w,
        ingest_edges_with 2 always_up shop_data (routing_table shop_data)
          start_world = (Return tt, w)
        /\ delivered "functions" w
           = for_collection "functions"
               (resolved shop_data (routing_table shop_data)))
  /\ (exists w,
        ingest_documents_with 2 always_up shop_data "code_nodes" start_world
        = (Return (length (indexed shop_data)), w)
        /\ delivered "code_nodes" w = indexed shop_data
        /\ ("functions" <> "code_nodes" -> delivered "functions" w = [])).
Proof.
  apply (C4_batch_flush_completeness 2 always_up always_up shop_data
           (routing_table shop_data) "code_nodes" "functions").
  - intros h c docs. reflexivity.
  - intros h c docs. reflexivity.
Defined.


Lemma handed_in_stream {D : Type} (stream : list (string * D)) (w : world D)
    (k : call D) (d : D) :
  Handed start_world stream w ->
  In k (calls w) -> In d (call_docs k) -> In (call_collection k, d) stream.
Proof.
  intros Hh Hk Hd. destruct (Hh (call_collection k)) as [rest Hrest].
  apply in_for_collection. simpl in Hrest. rewrite <- Hrest.
  apply in_or_app. left. now apply in_attempted.
Qed.





(* ===================================================================== *)
(** * The shape of storage keys *)
(* ===================================================================== *)

Lemma le_bytes_length (k : nat) (n : Z) : length (MD5.le_bytes k n) = k.
Proof.
  revert n. induction k as [|k IH]; intros n; simpl; [reflexivity |].
  now rewrite IH.
Qed.

Lemma le_bytes_range (k : nat) (n : Z) :
  Forall (fun b => (0 <= b < 256)%Z) (MD5.le_bytes k n).
Proof.
  revert n. induction k as [|k IH]; intros n; simpl; constructor.
  - change 255%Z with (Z.ones 8). rewrite Z.land_ones by lia.
    apply Z.mod_pos_bound. reflexivity.
  - apply IH.
Qed.

Lemma digest_bytes (msg : list Z) :
  length (MD5.digest msg) = 16%nat
  /\ Forall (fun b => (0 <= b < 256)%Z) (MD5.digest msg).
Proof.
  unfold MD5.digest.
  destruct (fold_left MD5.chunk _ _) as [[[a b] c] d].
  split.
  - rewrite !length_app, !le_bytes_length. reflexivity.
  - rewrite !Forall_app. repeat split; apply le_bytes_range.
Qed.

Lemma hex_digit_is_hex (n : Z) :
  (0 <= n < 16)%Z -> is_hex (MD5.hex_digit n) = true.
Proof.
  intros H.
  assert (Hn : In n (map Z.of_nat (seq 0 16))).
  { apply in_map_iff. exists (Z.to_nat n). split; [lia |].
    apply in_seq. lia. }
  simpl in Hn.
  repeat (destruct Hn as [<- | Hn]; [reflexivity |]). destruct Hn.
Qed.

Lemma hex_of_bytes_shape (bs : list Z) :
  Forall (fun b => (0 <= b < 256)%Z) bs ->
  String.length (MD5.hex_of_bytes bs) = (2 * length bs)%nat
  /\ every_char is_hex (MD5.hex_of_bytes bs) = true.
Proof.
  induction 1 as [|b r Hb Hr [IHl IHc]]; [split; reflexivity |].
  cbn [MD5.hex_of_bytes String.length every_char length].
  rewrite IHl, IHc. split; [lia |].
  rewrite !hex_digit_is_hex; [reflexivity | |].
  - change 15%Z with (Z.ones 4). rewrite Z.land_ones by lia.
    apply Z.mod_pos_bound. reflexivity.
  - rewrite Z.shiftr_div_pow2 by lia. change (2 ^ 4)%Z with 16%Z.
    split; [apply Z.div_pos; lia | apply Z.div_lt_upper_bound; lia].
Qed.

Lemma substring_prefix_shape (p : ascii -> bool) (m : nat) (s : string) :
  every_char p s = true ->
  String.length (substring 0 m s) = Nat.min m (String.length s)
  /\ every_char p (substring 0 m s) = true.
Proof.
  revert s. induction m as [|m IH]; intros [|c r] H; simpl;
    try (split; reflexivity).
  simpl in H. apply andb_true_iff in H as [Hc Hr].
  destruct (IH r Hr) as [IHl IHc]. rewrite IHl, IHc, Hc.
  split; reflexivity.
Qed.

Lemma every_char_free_of (p : ascii -> bool) (c : ascii) (s : string) :
  p c = false -> every_char p s = true -> free_of c s = true.
Proof.
  intros Hc. induction s as [|a r IH]; simpl; [reflexivity |].
  intros H. apply andb_true_iff in H as [Ha Hr]. rewrite (IH Hr).
  destruct (Ascii.eqb_spec a c) as [-> | Hne]; [congruence | reflexivity].
Qed.

(** X1. A storage key is sixteen characters, each a digit or a letter of
    [a-f]; in particular it contains no ["/"]. *)
Theorem X1_make_key_is_16_hex (qname : string) :
  String.length (make_key qname) = 16%nat
  /\ every_char is_hex (make_key qname) = true
  /\ free_of "/" (make_key qname) = true.
Proof.
  unfold make_key, MD5.hexdigest.
  destruct (digest_bytes (MD5.bytes_of_string qname)) as [Hlen Hrange].
  destruct (hex_of_bytes_shape _ Hrange) as [Hl Hc].
  destruct (substring_prefix_shape is_hex 16 _ Hc) as [Hsl Hsc].
  rewrite Hsl, Hl, Hlen. split; [reflexivity |]. split; [exact Hsc |].
  now apply (every_char_free_of is_hex).
Qed.

(* ===================================================================== *)
(** * More on classification *)
(* ===================================================================== *)

Lemma determine_collection_cases (node : Node.t) (c : string) :
  determine_collection node = Some c <->
  (Node.kind node = Some "class" /\ c = "types")
  \/ ((Node.kind node = Some "function"
       \/ Node.kind node = Some "async_function") /\ c = "functions")
  \/ (Node.kind node = Some "module" /\ c = "modules")
  \/ (assignment_kind node /\ c = "members"
      /\ exists parent,
           Node.parent_qualified_name node = Some parent
           /\ PyStr.truthy parent = true
           /\ PyStr.contains ".assignment." parent = false).
Proof.
  split.
  - unfold determine_collection, KIND_TO_COLLECTION, assignment_kind.
    destruct (Node.kind node) as [k|]; [| discriminate].
    cbn [PyDict.get].
    repeat (match goal with
            | |- context [String.eqb ?s k] =>
                destruct (String.eqb_spec s k) as [<- | _]
            end;
            [ cbv [String.eqb Ascii.eqb Bool.eqb orb];
              cbn [PyStr.truthy_opt PyStr.truthy];
              first [ discriminate
                    | intros [= <-]; auto 10
                    | destruct (Node.parent_qualified_name node) as [p|];
                      [| discriminate];
                      destruct (PyStr.truthy p) eqn:Hp; [| discriminate];
                      destruct (PyStr.contains ".assignment." p) eqn:Hc;
                      [discriminate |];
                      intros [= <-]; do 3 right; eauto 10 ]
            |]).
    discriminate.
  - unfold assignment_kind.
    intros [[Hk ->] | [[[Hk | Hk] ->] | [[Hk ->]
           | [[Hk | Hk] [-> (p & Hp & Ht & Hc)]]]]];
      unfold determine_collection; rewrite Hk; try reflexivity;
      rewrite Hp, Ht, Hc; reflexivity.
Qed.

(** X2. The classifier, case by case: classes go to ["types"], functions
    and async functions to ["functions"], modules to ["modules"],
    assignments and augmented assignments with a non-empty parent qname
    free of [.assignment.] to ["members"]; every other record, also one
    without a kind or of a kind the table maps to nothing, is dropped. *)
Theorem X2_determine_collection_cases (node : Node.t) (c : string) :
  determine_collection node = Some c <->
  (Node.kind node = Some "class" /\ c = "types")
  \/ ((Node.kind node = Some "function"
       \/ Node.kind node = Some "async_function") /\ c = "functions")
  \/ (Node.kind node = Some "module" /\ c = "modules")
  \/ (assignment_kind node /\ c = "members"
      /\ exists parent,
           Node.parent_qualified_name node = Some parent
           /\ PyStr.truthy parent = true
           /\ PyStr.contains ".assignment." parent = false).
Proof. apply determine_collection_cases. Qed.

(* ===================================================================== *)
(** * More on relation resolution *)
(* ===================================================================== *)

Lemma rel_table_mapped (rt c : string) :
  PyDict.get rt REL_TO_EDGE_COLLECTION = Some (Some c) ->
  In rt ["CALLS"; "INHERITS_FROM"; "DECORATED_BY"; "PARAM_OF"; "RETURNS";
         "IMPORTS"; "CLASS_DEF"; "FUNCTION_DEF"].
Proof.
  unfold REL_TO_EDGE_COLLECTION. cbn [PyDict.get].
  repeat (match goal with
          | |- context [String.eqb ?s rt] =>
              destruct (String.eqb_spec s rt) as [<- | _]
          end;
          [intros H; try discriminate; simpl; auto 12 |]).
  discriminate.
Qed.

(** X3. What resolution never emits: an edge for a relation that lacks a
    rel_type, a source or a target (missing, null or empty), for the inverse
    relation CALLED_BY or a rel_type outside the table, or for a source
    that has no routing-table entry. *)
Theorem X3_unresolvable_relations_are_dropped (data : list (string * Node.t))
    (tbl : gmap string string) (rel : Rel.t) (edge_coll : string)
    (e : EdgeDoc.t) :
  resolve_relation data tbl rel = Some (edge_coll, e) ->
  exists rel_type source target,
    Rel.rel_type rel = Some rel_type /\ Rel.source rel = Some source
    /\ Rel.target rel = Some target
    /\ PyStr.truthy rel_type = true /\ PyStr.truthy source = true
    /\ PyStr.truthy target = true
    /\ In rel_type ["CALLS"; "INHERITS_FROM"; "DECORATED_BY"; "PARAM_OF";
                    "RETURNS"; "IMPORTS"; "CLASS_DEF"; "FUNCTION_DEF"]
    /\ is_Some (tbl !! source).
Proof.
  intros H.
  pose proof (resolve_relation_Some _ _ _ _ _ H)
    as (rt & s & t & t' & sc & tc & Hrt & Hs & Ht & Hget & Hsc & _).
  exists rt, s, t. unfold resolve_relation in H.
  rewrite Hrt, Hs, Ht in H.
  destruct (PyStr.truthy rt), (PyStr.truthy s), (PyStr.truthy t);
    try discriminate.
  repeat (split; [reflexivity || assumption |]).
  split; [eapply rel_table_mapped; eassumption | eauto].
Qed.

Lemma X3_witness :
  exists rel_type source target,
    Rel.rel_type (relation "CLASS_DEF" "shop.Cart" "shop") = Some rel_type
    /\ Rel.source (relation "CLASS_DEF" "shop.Cart" "shop") = Some source
    /\ Rel.target (relation "CLASS_DEF" "shop.Cart" "shop") = Some target
    /\ PyStr.truthy rel_type = true /\ PyStr.truthy source = true
    /\ PyStr.truthy target = true
    /\ In rel_type ["CALLS"; "INHERITS_FROM"; "DECORATED_BY"; "PARAM_OF";
                    "RETURNS"; "IMPORTS"; "CLASS_DEF"; "FUNCTION_DEF"]
    /\ is_Some (routing_table shop_data !! source).
Proof.
  apply (X3_unresolvable_relations_are_dropped shop_data
           (routing_table shop_data)
           (relation "CLASS_DEF" "shop.Cart" "shop") "parent"
           {| EdgeDoc._key := make_key "shop.Cart:shop:CLASS_DEF";
              EdgeDoc._from := "types/" +:+ make_key "shop.Cart";
              EdgeDoc._to := "modules/" +:+ make_key "shop";
              EdgeDoc.call_site_pos := None |}).
  vm_compute. reflexivity.
Defined.

Lemma ref_key_suffix (c rest : string) :
  free_of "/" c = true -> ref_key (c +:+ "/" +:+ rest) = rest.
Proof.
  induction c as [|a c IH]; intros Hfree.
  - reflexivity.
  - rewrite append_cons. simpl in *.
    destruct (Ascii.eqb a "/"); [discriminate |]. now apply IH.
Qed.

(** X4. No edge dangles: with the routing table of the same input, both
    ends of every emitted edge reference a node document that
    classification produces for an entity of the input, by its node
    collection and its storage key; the target is the target of the
    relation or, for a redirected constructor call, its [__init__]. *)
Theorem X4_edges_reference_classified_nodes (data : list (string * Node.t))
    (rel : Rel.t) (edge_coll : string) (e : EdgeDoc.t) :
  NoDup (map fst data) ->
  resolve_relation data (routing_table data) rel = Some (edge_coll, e) ->
  exists source target target' source_node target_node,
    Rel.source rel = Some source /\ Rel.target rel = Some target
    /\ (target' = target \/ target' = target +:+ ".__init__")
    /\ In (ref_collection (EdgeDoc._from e),
           NodeD (node_document data source source_node
                    (ref_collection (EdgeDoc._from e))))
          (classified data)
    /\ ref_key (EdgeDoc._from e) = make_key source
    /\ In (ref_collection (EdgeDoc._to e),
           NodeD (node_document data target' target_node
                    (ref_collection (EdgeDoc._to e))))
          (classified data)
    /\ ref_key (EdgeDoc._to e) = make_key target'.
Proof.
  intros Hnd H. apply resolve_relation_Some in H
    as (rt & s & t & t' & sc & tc & Hrt & Hs & Ht & Hget & Hsc & _ & _
        & _ & Hfrom & Hto & Htarget).
  assert (Hnode : forall q c, routing_table data !! q = Some c ->
            exists n, In (c, NodeD (node_document data q n c)) (classified data)).
  { intros q c Hq. rewrite routing_table_lookup in Hq by exact Hnd.
    destruct (PyDict.get q data) as [n|] eqn:Hn; [| discriminate].
    simpl in Hq. exists n. apply in_classified. exists q, n.
    split; [now apply get_Some_In | auto]. }
  assert (Htc : routing_table data !! t' = Some tc
                /\ (t' = t \/ t' = t +:+ ".__init__")).
  { destruct Htarget as [(_ & _ & -> & Htc) | (-> & [Htc | (_ & -> & n & Hn & Hk)])].
    - auto.
    - auto.
    - split; [| now left]. rewrite routing_table_lookup by exact Hnd.
      rewrite Hn. simpl. unfold determine_collection. rewrite Hk. reflexivity. }
  destruct Htc as [Htc Ht'].
  assert (Hscf : free_of "/" sc = true).
  { apply node_collection_free_of_slash. eapply routing_table_range; eassumption. }
  assert (Htcf : free_of "/" tc = true).
  { apply node_collection_free_of_slash. eapply routing_table_range; eassumption. }
  destruct (Hnode _ _ Hsc) as [ns Hns]. destruct (Hnode _ _ Htc) as [nt Hnt].
  exists s, t, t', ns, nt. rewrite Hfrom, Hto.
  rewrite !ref_collection_prefix, !ref_key_suffix by assumption.
  repeat split; assumption.
Qed.

Lemma X4_witness :
  let e := {| EdgeDoc._key := make_key "shop.checkout:shop.Cart.__init__:CALLS";
              EdgeDoc._from := "functions/" +:+ make_key "shop.checkout";
              EdgeDoc._to := "functions/" +:+ make_key "shop.Cart.__init__";
              EdgeDoc.call_site_pos := None |} in
  let rel := relation "CALLS" "shop.checkout" "shop.Cart" in
  exists source target target' source_node target_node,
    Rel.source rel = Some source /\ Rel.target rel = Some target
    /\ (target' = target \/ target' = target +:+ ".__init__")
    /\ In (ref_collection (EdgeDoc._from e),
           NodeD (node_document shop_data source source_node
                    (ref_collection (EdgeDoc._from e))))
          (classified shop_data)
    /\ ref_key (EdgeDoc._from e) = make_key source
    /\ In (ref_collection (EdgeDoc._to e),
           NodeD (node_document shop_data target' target_node
                    (ref_collection (EdgeDoc._to e))))
          (classified shop_data)
    /\ ref_key (EdgeDoc._to e) = make_key target'.
Proof.
  apply (X4_edges_reference_classified_nodes shop_data
           (relation "CALLS" "shop.checkout" "shop.Cart") "calls").
  - exact shop_data_NoDup.
  - vm_compute. reflexivity.
Defined.

(** X5. A call-site position is recorded only on ["calls"] edges, and only
    when the relation carries a start position other than 0: a start of 0
    is dropped like a missing one. *)
Theorem X5_call_site_position (data : list (string * Node.t))
    (tbl : gmap string string) (rel : Rel.t) (edge_coll : string)
    (e : EdgeDoc.t) :
  resolve_relation data tbl rel = Some (edge_coll, e) ->
  EdgeDoc.call_site_pos e =
    match pos_start (Rel.pos rel) with
    | Some z =>
        if String.eqb edge_coll "calls" && negb (z =? 0)%Z
        then Some z else None
    | None => None
    end.
Proof.
  unfold resolve_relation. intros H.
  destruct (Rel.rel_type rel) as [rt|]; [| discriminate].
  destruct (Rel.source rel) as [s|]; [| discriminate].
  destruct (Rel.target rel) as [t|]; [| discriminate].
  destruct (negb (PyStr.truthy rt) || _ || _); [discriminate |].
  destruct (PyDict.get rt REL_TO_EDGE_COLLECTION) as [[ec|]|];
    try discriminate.
  destruct (negb (PyStr.truthy ec)); [discriminate |].
  assert (Hpos : (if String.eqb ec "calls" && truthy_int (pos_start (Rel.pos rel))
                  then pos_start (Rel.pos rel) else None)
                 = match pos_start (Rel.pos rel) with
                   | Some z => if String.eqb ec "calls" && negb (z =? 0)%Z
                               then Some z else None
                   | None => None
                   end).
  { destruct (pos_start (Rel.pos rel)) as [z|]; simpl; [reflexivity |].
    now rewrite andb_false_r. }
  destruct (_ && opt_eqb _ _).
  - destruct (tbl !! (t +:+ ".__init__")) as [tc|]; [| discriminate].
    set (tc0 := if String.eqb ec "parent" && _ then _ else _) in H.
    clearbody tc0.
    destruct (tbl !! s) as [sc|], tc0 as [tc'|]; try discriminate.
    destruct (negb (PyStr.truthy sc) || _); [discriminate |].
    injection H as <- <-. exact Hpos.
  - set (tc0 := if String.eqb ec "parent" && _ then _ else _) in H.
    clearbody tc0.
    destruct (tbl !! s) as [sc|], tc0 as [tc'|]; try discriminate.
    destruct (negb (PyStr.truthy sc) || _); [discriminate |].
    injection H as <- <-. exact Hpos.
Qed.

Lemma X5_witness :
  let rel := Rel.Make (Some "CALLS") (Some "shop.checkout") (Some "shop.Cart")
               (Some (Pos.Make (Some 0%Z) (Some 7%Z))) in
  let e := {| EdgeDoc._key := make_key "shop.checkout:shop.Cart.__init__:CALLS";
              EdgeDoc._from := "functions/" +:+ make_key "shop.checkout";
              EdgeDoc._to := "functions/" +:+ make_key "shop.Cart.__init__";
              EdgeDoc.call_site_pos := None |} in
  EdgeDoc.call_site_pos e =
    match pos_start (Rel.pos rel) with
    | Some z =>
        if String.eqb "calls" "calls" && negb (z =? 0)%Z
        then Some z else None
    | None => None
    end.
Proof.
  apply (X5_call_site_position shop_data (routing_table shop_data)
           (Rel.Make (Some "CALLS") (Some "shop.checkout") (Some "shop.Cart")
              (Some (Pos.Make (Some 0%Z) (Some 7%Z)))) "calls").
  vm_compute. reflexivity.
Defined.

(* ===================================================================== *)
(** * More on search documents *)
(* ===================================================================== *)

Lemma replace_char_one (c b : ascii) (s : string) :
  String.length (PyStr.replace_char c (String b "") s) = String.length s.
Proof.
  induction s as [|a r IH]; [reflexivity |].
  cbn [PyStr.replace_char]. destruct (Ascii.eqb a c);
    rewrite append_cons, append_nil_l; simpl; now rewrite IH.
Qed.

Lemma replace_char_removes (c b : ascii) (s : string) :
  b <> c -> free_of c (PyStr.replace_char c (String b "") s) = true.
Proof.
  intros Hne. induction s as [|a r IH]; [reflexivity |].
  cbn [PyStr.replace_char]. destruct (Ascii.eqb_spec a c) as [-> | Hac];
    rewrite append_cons, append_nil_l; simpl; rewrite IH.
  - destruct (Ascii.eqb_spec b c); [contradiction | reflexivity].
  - destruct (Ascii.eqb_spec a c); [contradiction | reflexivity].
Qed.

Lemma replace_char_keeps_free (c b d : ascii) (s : string) :
  b <> d -> free_of d s = true ->
  free_of d (PyStr.replace_char c (String b "") s) = true.
Proof.
  intros Hne. induction s as [|a r IH]; [reflexivity |].
  cbn [PyStr.replace_char free_of]. intros H.
  apply andb_true_iff in H as [Ha Hr].
  destruct (Ascii.eqb a c); rewrite append_cons, append_nil_l; simpl;
    rewrite (IH Hr).
  - destruct (Ascii.eqb_spec b d); [contradiction | reflexivity].
  - now rewrite Ha.
Qed.

Lemma replace_char_id (c : ascii) (by_ s : string) :
  free_of c s = true -> PyStr.replace_char c by_ s = s.
Proof.
  induction s as [|a r IH]; [reflexivity |].
  cbn [PyStr.replace_char free_of]. intros H.
  apply andb_true_iff in H as [Ha Hr]. rewrite (IH Hr).
  destruct (Ascii.eqb a c); [discriminate | reflexivity].
Qed.

(** X6. The identifier of a search document has the length of the qname
    and contains neither ["/"] nor ["."]; for a qname without either it is
    the qname itself. *)
Theorem X6_search_id_is_safe {L : StrLower} (qname : string) (node : Node.t) :
  let id := SearchDoc.id (search_document qname node) in
  String.length id = String.length qname
  /\ free_of "/" id = true
  /\ free_of "." id = true
  /\ (free_of "/" qname && free_of "." qname = true -> id = qname).
Proof.
  cbn [search_document SearchDoc.id]. repeat split.
  - now rewrite !replace_char_one.
  - apply replace_char_keeps_free; [discriminate |].
    apply replace_char_removes. discriminate.
  - apply replace_char_removes. discriminate.
  - intros H. apply andb_true_iff in H as [Hs Hd].
    rewrite (replace_char_id "/" "_" qname Hs). now apply replace_char_id.
Qed.

(** X7. How the two scripts select entities. An indexed entity of a kind
    other than assignment is also a graph node; an assignment is indexed
    whatever its parent, also when the graph drops it; an augmented
    assignment is never indexed, also when the graph keeps it. *)
Theorem X7_indexing_versus_classification (node : Node.t) :
  (should_index node = true ->
   Node.kind node <> Some "assignment" ->
   is_Some (determine_collection node))
  /\ (Node.kind node = Some "assignment" ->
      should_index node
      = no_marker (default "" (Node.qualified_name node)))
  /\ (Node.kind node = Some "augmented_assignment" ->
      should_index node = false).
Proof.
  split; [| split].
  - intros Hidx Hk. apply should_index_iff in Hidx as [[k [Hkind Hin]] _].
    apply str_in_In in Hin. unfold INDEXABLE_KINDS in Hin. simpl in Hin.
    unfold determine_collection. rewrite Hkind.
    destruct Hin as [<- | [<- | [<- | [<- | [<- | []]]]]];
      try (vm_compute; eauto; fail).
    congruence.
  - intros Hk. unfold should_index, no_marker. rewrite Hk.
    change (negb (str_in "assignment" INDEXABLE_KINDS)) with false.
    cbv iota.
    destruct (PyStr.contains ".param." _), (PyStr.contains ".return" _),
      (PyStr.contains ".yields." _); reflexivity.
  - intros Hk. unfold should_index. rewrite Hk. reflexivity.
Qed.

Lemma X7_witness :
  is_Some (determine_collection (entity "class" (Some "shop") []))
  /\ should_index (entity "assignment" None [])
     = no_marker (default "" (Node.qualified_name (entity "assignment" None [])))
  /\ should_index (entity "augmented_assignment" (Some "shop") []) = false.
Proof.
  split; [| split].
  - apply (proj1 (X7_indexing_versus_classification
                    (entity "class" (Some "shop") [])));
      [vm_compute; reflexivity | discriminate].
  - apply (proj1 (proj2 (X7_indexing_versus_classification
                           (entity "assignment" None [])))).
    reflexivity.
  - apply (proj2 (proj2 (X7_indexing_versus_classification
                           (entity "augmented_assignment" (Some "shop") [])))).
    reflexivity.
Defined.

Lemma lower_plain (s : string) :
  every_char plain_char s = true -> PyStr.ascii_lower s = s.
Proof.
  induction s as [|a r IH]; [reflexivity |].
  cbn [every_char PyStr.ascii_lower]. intros H.
  apply andb_true_iff in H as [Ha Hr]. rewrite (IH Hr).
  unfold plain_char in Ha. apply andb_true_iff in Ha as [Hu _].
  unfold PyStr.lower_char. destruct (PyStr.is_upper a); [discriminate | reflexivity].
Qed.

Lemma underscore_before_upper_plain (s : string) :
  every_char plain_char s = true -> underscore_before_upper s = s.
Proof.
  induction s as [|a r IH]; [reflexivity |].
  cbn [every_char underscore_before_upper]. intros H.
  apply andb_true_iff in H as [Ha Hr]. rewrite (IH Hr).
  unfold plain_char in Ha. apply andb_true_iff in Ha as [Hu _].
  destruct (PyStr.is_upper a); [discriminate | reflexivity].
Qed.

Lemma without_underscores_plain (s : string) :
  every_char plain_char s = true -> without_underscores s = s.
Proof.
  induction s as [|a r IH]; [reflexivity |].
  cbn [every_char without_underscores]. intros H.
  apply andb_true_iff in H as [Ha Hr]. rewrite (IH Hr).
  unfold plain_char in Ha. apply andb_true_iff in Ha as [_ Hu].
  destruct (Ascii.eqb a "_"); [discriminate | reflexivity].
Qed.

(** X8. A non-empty ASCII name without uppercase letters and underscores
    has itself as its only variant: its lowercase, its snake case and what
    is left of it without underscores are all the name again. *)
Theorem X8_plain_name_has_one_variant {L : StrLower} (name : string) :
  PyStr.truthy name = true ->
  PyStr.is_ascii name = true ->
  every_char plain_char name = true ->
  make_name_variants (Some name) = [name].
Proof.
  intros Ht Ha Hp. unfold make_name_variants. rewrite Ht. cbn [negb]. cbv zeta.
  rewrite snake_case_regex, replace_underscore.
  rewrite (str_lower_ascii _ Ha).
  rewrite (lower_plain _ Hp), (without_underscores_plain _ Hp).
  assert (Hs : snake_case name = name).
  { unfold snake_case. destruct name as [|a r]; [discriminate |].
    cbn [every_char] in Hp. apply andb_true_iff in Hp as [Hpa Hr].
    rewrite (underscore_before_upper_plain _ Hr).
    rewrite (str_lower_ascii _ Ha).
    apply (lower_plain (String a r)). cbn [every_char]. now rewrite Hpa, Hr. }
  rewrite Hs.
  assert (H1 : append_if_new name [name] = [name]).
  { unfold append_if_new, str_in. cbn [existsb].
    now rewrite String.eqb_refl. }
  now rewrite !H1.
Qed.

Lemma X8_witness :
  make_name_variants (L := ascii_only) (Some "checkout") = ["checkout"].
Proof.
  apply (X8_plain_name_has_one_variant "checkout"); reflexivity.
Defined.

(* ===================================================================== *)
(** * Failed imports *)
(* ===================================================================== *)

Lemma edge_warnings_guarded (s : list string) (db : destination arango_doc)
    (c : string) (docs : list arango_doc) :
  keeps (fun w => stdout w = s ++ edge_warnings w)
    (guarded (Some (edges_warning c)) (import_bulk db c docs)).
Proof.
  intros w Hw. unfold guarded, try_except, import_bulk, print, edge_warnings.
  destruct (db (calls w) c docs) as [e|]; cbn [snd calls stdout];
    rewrite flat_map_app; cbn [flat_map call_error call_collection];
    rewrite Hw, ?app_nil_r, ?app_assoc; reflexivity.
Qed.

Lemma edge_warnings_buffer_and_flush (s : list string) (batch_size : nat)
    (db : destination arango_doc) (c : string) (d : arango_doc)
    (batches : list (string * list arango_doc)) :
  keeps (fun w => stdout w = s ++ edge_warnings w)
    (buffer_and_flush (Some (edges_warning c)) batch_size db c d batches).
Proof.
  unfold buffer_and_flush.
  apply keeps_bind; [apply keeps_getitem | intros docs].
  apply keeps_bind; [apply keeps_getitem | intros docs'].
  destruct (batch_size <=? length docs')%nat; [| apply keeps_ret].
  apply keeps_bind; [apply edge_warnings_guarded |].
  intros _. apply keeps_ret.
Qed.

Lemma edge_warnings_flush_remaining (s : list string)
    (db : destination arango_doc) (item : string * list arango_doc)
    (u : unit) :
  keeps (fun w => stdout w = s ++ edge_warnings w)
    (flush_remaining (fun c => Some (edges_warning c)) db item u).
Proof.
  unfold flush_remaining. destruct (snd item);
    [apply keeps_ret | apply edge_warnings_guarded].
Qed.

(** [ingest_edges] adds to the output the warnings of its failed imports
    and nothing else. *)
Lemma ingest_edges_warnings (s : list string) (batch_size : nat)
    (db : destination arango_doc) (data : list (string * Node.t))
    (tbl : gmap string string) :
  keeps (fun w => stdout w = s ++ edge_warnings w)
    (ingest_edges_with batch_size db data tbl).
Proof.
  unfold ingest_edges_with. apply keeps_bind.
  - apply keeps_for_each. intros [q n] b. apply keeps_for_each.
    intros rel b' w' Hw'. rewrite ingest_edges_body_buffer.
    destruct (resolve_relation data tbl rel) as [[c e]|]; [| exact Hw'].
    now apply edge_warnings_buffer_and_flush.
  - intros b. apply keeps_for_each. intros item u w' Hw'.
    rewrite flush_remaining_edges_eq.
    now apply edge_warnings_flush_remaining.
Qed.

Lemma edge_warnings_length (w : world arango_doc) :
  length (edge_warnings w) = length (failed_imports w).
Proof.
  unfold edge_warnings, failed_imports.
  induction (calls w) as [|k r IH]; [reflexivity |].
  cbn [flat_map List.filter]. rewrite length_app, IH.
  destruct (call_error k); reflexivity.
Qed.

(** X9. Failed imports do not stop [ingest_edges]: whatever the
    destination answers, it returns, every resolved edge has been handed
    over once, per collection and in order, and exactly one warning naming
    the collection and the error has been printed per failed import, in
    the order of the failures. *)
Theorem X9_ingest_edges_isolates_failures (batch_size : nat)
    (db : destination arango_doc) (data : list (string * Node.t))
    (tbl : gmap string string) :
  exists w,
    ingest_edges_with batch_size db data tbl start_world = (Return tt, w)
    /\ (forall c, attempted c w = for_collection c (resolved data tbl))
    /\ stdout w = edge_warnings w
    /\ length (stdout w) = length (failed_imports w).
Proof.
  destruct (ingest_edges_with_spec batch_size db data tbl start_world)
    as (w & Hrun & Hatt).
  pose proof (ingest_edges_warnings [] batch_size db data tbl start_world
                eq_refl) as Hout.
  rewrite Hrun in Hout. cbn [snd app] in Hout.
  exists w. split; [exact Hrun |]. split; [exact Hatt |].
  split; [exact Hout |]. rewrite Hout. apply edge_warnings_length.
Qed.

Lemma failed_imports_snoc {D : Type} (w w' : world D) (k : call D) :
  calls w' = calls w ++ [k] ->
  failed_imports w'
  = failed_imports w
    ++ match call_error k with Some _ => [k] | None => [] end.
Proof.
  intros H. unfold failed_imports. rewrite H, List.filter_app. cbn [List.filter].
  destruct (call_error k); reflexivity.
Qed.

Lemma document_warnings_import (client : destination SearchDoc.t)
    (cn : string) (batch : list SearchDoc.t) (total : nat) (final : bool) :
  keeps (fun w => Forall2 document_warning (stdout w) (failed_imports w))
    (try_except
       (import_bulk client cn batch ;;; ret (total + length batch)%nat)
       (fun e =>
          print ((if final then "  Warning: Failed to import final batch: "
                  else "  Warning: Failed to import batch: ") +:+ e) ;;;
          ret total)).
Proof.
  intros w Hw. unfold try_except, bind, import_bulk, print, ret.
  destruct (client (calls w) cn batch) as [e|] eqn:Ee; cbn [snd];
    unfold failed_imports in *; cbn [calls stdout];
    rewrite List.filter_app; cbn [List.filter call_error].
  - apply Forall2_app; [exact Hw |]. constructor; [| constructor].
    exists e. cbn [call_error]. split; [reflexivity |].
    destruct final; auto.
  - now rewrite app_nil_r.
Qed.

(** X10. Failed imports do not stop [ingest_documents]: whatever the
    destination answers, it returns the number of documents the
    destination accepted; the document of every indexed entity has been
    handed over once and in order, to the given collection only; and one
    warning carrying the error has been printed per failed import. *)
Theorem X10_ingest_documents_isolates_failures {L : StrLower} (batch_size : nat)
    (client : destination SearchDoc.t) (data : list (string * Node.t))
    (cn : string) :
  exists total w,
    ingest_documents_with batch_size client data cn start_world
    = (Return total, w)
    /\ attempted cn w = indexed data
    /\ (forall c, c <> cn -> attempted c w = [])
    /\ total = length (delivered cn w)
    /\ Forall2 document_warning (stdout w) (failed_imports w).
Proof.
  destruct (ingest_documents_with_spec batch_size client data cn start_world)
    as (total & w & Hrun & Hatt & Hoth & Hlen).
  exists total, w. split; [exact Hrun |]. split; [exact Hatt |].
  split; [exact Hoth |]. split; [simpl in Hlen; lia |].
  assert (Hk : keeps (fun w => Forall2 document_warning (stdout w)
                                 (failed_imports w))
                 (ingest_documents_with batch_size client data cn)).
  { unfold ingest_documents_with. apply keeps_bind.
    - apply keeps_for_each. intros [q n] [batch tot].
      unfold ingest_documents_body.
      destruct (negb (should_index n)); [apply keeps_ret |].
      destruct (batch_size <=? length _)%nat; [| apply keeps_ret].
      apply keeps_bind; [| intros t; apply keeps_ret].
      apply (document_warnings_import client cn _ tot false).
    - intros [[|d ds] tot]; [apply keeps_ret |].
      apply (document_warnings_import client cn _ tot true). }
  specialize (Hk start_world ltac:(constructor)). now rewrite Hrun in Hk.
Qed.

Lemma all_accepted_snoc {D : Type} (w w' : world D) (k : call D) :
  calls w' = calls w ++ [k] -> all_accepted w -> call_error k = None ->
  all_accepted w'.
Proof.
  unfold all_accepted. intros -> Hw Hk. apply Forall_app. split; [exact Hw |].
  now repeat constructor.
Qed.

Lemma import_stops {D : Type} (db : destination D) (c : string)
    (docs : list D) (w : world D) :
  all_accepted w ->
  match import_bulk db c docs w with
  | (Return _, w') => all_accepted w' /\ stdout w' = stdout w
  | (Raise e, w') => stopped_at e w' /\ stdout w' = stdout w
  end.
Proof.
  intros Hw. unfold import_bulk.
  destruct (db (calls w) c docs) as [e|] eqn:Ee.
  - split; [| reflexivity]. eexists _, _. split; [reflexivity |].
    split; [reflexivity | exact Hw].
  - split; [| reflexivity]. eapply all_accepted_snoc; [reflexivity | exact Hw |].
    reflexivity.
Qed.

(** [ingest_nodes] stops at its first failed import and prints
    nothing. *)
Lemma ingest_nodes_stops (batch_size : nat) (db : destination arango_doc)
    (data : list (string * Node.t)) (w0 : world arango_doc) :
  all_accepted w0 ->
  match ingest_nodes_with batch_size db data w0 with
  | (Return tbl, w) => all_accepted w /\ stdout w = stdout w0
  | (Raise e, w) => stopped_at e w /\ stdout w = stdout w0
  end.
Proof.
  intros Hacc0.
  unfold ingest_nodes_with, bind.
  pose (I := fun (pre : list (string * Node.t))
                 (vars : gmap string string * list (string * list arango_doc))
                 (w : world arango_doc) =>
               map fst (snd vars) = NODE_COLLECTIONS
               /\ all_accepted w /\ stdout w = stdout w0).
  pose (J := fun (pre : list (string * Node.t)) (e : string)
                 (w : world arango_doc) => stopped_at e w /\ stdout w = stdout w0).
  assert (Hstep : forall pre x s w, I pre s w ->
            match ingest_nodes_body batch_size db data x s w with
            | (Return s', w') => I (pre ++ [x]) s' w'
            | (Raise e, w') => J (pre ++ [x]) e w'
            end).
  { intros pre [q n] [tbl b] w (Hkeys & Hacc & Hout). cbn [snd] in Hkeys.
    unfold ingest_nodes_body, I, J.
    destruct (determine_collection n) as [c|] eqn:Ec; [| now unfold ret].
    destruct (get_is_Some (V := list arango_doc) c b) as [old Hold].
    { rewrite Hkeys. eapply determine_collection_node_collection; eassumption. }
    unfold bind, getitem. rewrite Hold. unfold ret at 1. cbv beta iota.
    rewrite get_set_eq. unfold ret at 1. cbv beta iota.
    assert (Hk1 : map fst (PyDict.set c (old ++ [NodeD (node_document data q n c)]) b)
                  = NODE_COLLECTIONS).
    { rewrite keys_set; [exact Hkeys | rewrite Hold; eauto]. }
    destruct (batch_size <=? length _)%nat.
    - pose proof (import_stops db c
                    (old ++ [NodeD (node_document data q n c)]) w Hacc) as Hi.
      destruct (import_bulk db c _ w) as [[u|e] w'].
      + destruct Hi as [Hacc' Hout']. unfold ret. cbn [snd].
        split; [| split; [exact Hacc' | congruence]].
        rewrite keys_set; [exact Hk1 | rewrite get_set_eq; eauto].
      + destruct Hi as [Hst Hout']. split; [exact Hst | congruence].
    - unfold ret. cbn [snd]. auto. }
  assert (Hinit : I [] (∅ : gmap string string,
                        PyDict.from_keys NODE_COLLECTIONS []) w0).
  { unfold I. repeat split. exact Hacc0. }
  pose proof (for_each_inv I J _ Hstep (fun _ _ _ _ H => H) data [] _
                w0 Hinit) as Hloop.
  destruct (for_each data _ _ w0) as [[[tbl batches]|e] w1];
    [| exact Hloop].
  destruct Hloop as (_ & Hacc & Hout).
  pose (I2 := fun (_ : list (string * list arango_doc)) (_ : unit)
                  (w : world arango_doc) => all_accepted w /\ stdout w = stdout w0).
  pose (J2 := fun (_ : list (string * list arango_doc)) (e : string)
                  (w : world arango_doc) => stopped_at e w /\ stdout w = stdout w0).
  assert (Hstep2 : forall pre x s w, I2 pre s w ->
            match flush_remaining_nodes db x s w with
            | (Return s', w') => I2 (pre ++ [x]) s' w'
            | (Raise e, w') => J2 (pre ++ [x]) e w'
            end).
  { intros pre [c docs] u w [Hacc' Hout']. unfold flush_remaining_nodes, I2, J2.
    destruct docs as [|d ds]; [unfold ret; auto |].
    pose proof (import_stops db c (d :: ds) w Hacc') as Hi.
    destruct (import_bulk db c _ w) as [[u'|e] w'];
      destruct Hi as [H1 H2]; split; congruence || assumption. }
  pose proof (for_each_inv I2 J2 _ Hstep2 (fun _ _ _ _ H => H) batches [] tt
                w1 (conj Hacc Hout)) as Hloop2.
  destruct (for_each batches _ tt w1) as [[u|e] w2]; exact Hloop2.
Qed.

(** X11. A failed import stops [ingest_nodes]: it raises the error of the
    first import that fails, that import is the last one made, and nothing
    is printed; it returns only when no import failed. *)
Theorem X11_ingest_nodes_stops_at_first_failure (batch_size : nat)
    (db : destination arango_doc) (data : list (string * Node.t)) :
  match ingest_nodes_with batch_size db data start_world with
  | (Return tbl, w) => all_accepted w /\ stdout w = []
  | (Raise e, w) => stopped_at e w /\ stdout w = []
  end.
Proof. apply ingest_nodes_stops, all_accepted_start. Qed.

(* ===================================================================== *)
(** * Batch sizes *)
(* ===================================================================== *)

Lemma set_Forall {V : Type} (P : string * V -> Prop) (k : string) (v : V)
    (d : list (string * V)) :
  Forall P d -> (forall k', P (k', v)) -> Forall P (PyDict.set k v d).
Proof.
  intros Hd Hv. induction Hd as [|[k0 v0] r H0 Hr IH]; simpl.
  - repeat constructor. apply Hv.
  - destruct (String.eqb k0 k); constructor; auto.
Qed.

Lemma set_set {V : Type} (k : string) (v v' : V) (d : list (string * V)) :
  PyDict.set k v (PyDict.set k v' d) = PyDict.set k v d.
Proof.
  induction d as [|[k0 v0] r IH]; simpl.
  - now rewrite String.eqb_refl.
  - destruct (String.eqb k0 k) eqn:E; simpl; rewrite E; [reflexivity |].
    now rewrite IH.
Qed.

Lemma batches_bounded_snoc {D : Type} (batch_size : nat) (w w' : world D)
    (k : call D) :
  calls w' = calls w ++ [k] -> batches_bounded batch_size w ->
  (1 <= length (call_docs k) <= Nat.max 1 batch_size)%nat ->
  batches_bounded batch_size w'.
Proof.
  unfold batches_bounded. intros -> Hw Hk. apply Forall_app.
  split; [exact Hw |]. now repeat constructor.
Qed.

Lemma guarded_import_bounded {D : Type} (catch : option (string -> string))
    (batch_size : nat) (db : destination D) (c : string) (docs : list D) :
  (1 <= length docs <= Nat.max 1 batch_size)%nat ->
  keeps (batches_bounded batch_size) (guarded catch (import_bulk db c docs)).
Proof.
  intros Hlen w Hw.
  destruct (guarded_import catch db c docs w) as (w' & Hc & Hg).
  rewrite Hg. cbn [snd]. eapply batches_bounded_snoc; eauto.
Qed.

(** One buffered document keeps the buffers short of the threshold and
    the imports within it. *)
Lemma buffer_and_flush_bounded {D : Type} (catch : option (string -> string))
    (batch_size : nat) (db : destination D) (c : string) (d : D)
    (batches : list (string * list D)) (w : world D) :
  buffers_below batch_size batches -> batches_bounded batch_size w ->
  match buffer_and_flush catch batch_size db c d batches w with
  | (Return batches', w') =>
      buffers_below batch_size batches' /\ batches_bounded batch_size w'
  | (Raise _, w') => batches_bounded batch_size w'
  end.
Proof.
  intros Hb Hw. unfold buffer_and_flush, bind, getitem.
  destruct (PyDict.get c batches) as [old|] eqn:E; [| exact Hw].
  unfold ret at 1. cbv beta iota. rewrite get_set_eq. unfold ret at 1.
  cbv beta iota.
  assert (Hold : (length old < Nat.max 1 batch_size)%nat).
  { apply get_Some_In in E. unfold buffers_below in Hb.
    rewrite Forall_forall in Hb. apply list_elem_of_In in E.
    exact (Hb _ E). }
  assert (Hlen : length (old ++ [d]) = S (length old))
    by (rewrite length_app; simpl; lia).
  destruct (Nat.leb_spec batch_size (length (old ++ [d]))) as [Hfull | Hroom].
  - pose proof (guarded_import_bounded catch batch_size db c (old ++ [d])
                  ltac:(lia) w Hw) as Hk.
    destruct (guarded catch (import_bulk db c (old ++ [d])) w) as [[u|e] w'];
      cbn [snd] in Hk; [| exact Hk].
    unfold ret. split; [| exact Hk]. rewrite set_set.
    apply set_Forall; [exact Hb |]. intros k'. simpl. lia.
  - unfold ret. split; [| exact Hw].
    apply set_Forall; [exact Hb |]. intros k'. simpl. lia.
Qed.

Lemma flush_remaining_bounded {D : Type}
    (catch : string -> option (string -> string)) (batch_size : nat)
    (db : destination D) (items : list (string * list D)) :
  buffers_below batch_size items ->
  keeps (batches_bounded batch_size)
    (for_each items (flush_remaining catch db) tt).
Proof.
  induction 1 as [|[c docs] r Hc Hr IH]; simpl; [apply keeps_ret |].
  apply keeps_bind; [| intros []; exact IH].
  unfold flush_remaining. cbn [fst snd] in *.
  destruct docs as [|d ds]; [apply keeps_ret |].
  apply guarded_import_bounded. simpl in *. lia.
Qed.

Lemma empty_buffers_below {D : Type} (batch_size : nat) (ks : list string) :
  buffers_below batch_size (map (fun k => (k, ([] : list D))) ks).
Proof.
  unfold buffers_below. apply Forall_forall. intros x Hx.
  apply list_elem_of_In, in_map_iff in Hx as [k [<- _]]. simpl. lia.
Qed.

Lemma ingest_nodes_bounded (batch_size : nat) (db : destination arango_doc)
    (data : list (string * Node.t)) :
  keeps (batches_bounded batch_size) (ingest_nodes_with batch_size db data).
Proof.
  intros w0 Hw0. unfold ingest_nodes_with, bind.
  pose (I := fun (_ : list (string * Node.t))
                 (vars : gmap string string * list (string * list arango_doc))
                 (w : world arango_doc) =>
               buffers_below batch_size (snd vars)
               /\ batches_bounded batch_size w).
  pose (J := fun (_ : list (string * Node.t)) (_ : string)
                 (w : world arango_doc) => batches_bounded batch_size w).
  assert (Hstep : forall pre x s w, I pre s w ->
            match ingest_nodes_body batch_size db data x s w with
            | (Return s', w') => I (pre ++ [x]) s' w'
            | (Raise e, w') => J (pre ++ [x]) e w'
            end).
  { intros pre [q n] [tbl b] w [Hb Hw]. cbn [snd] in Hb.
    rewrite ingest_nodes_body_buffer. unfold I, J.
    destruct (determine_collection n) as [c|]; [| auto].
    pose proof (buffer_and_flush_bounded None batch_size db c
                  (NodeD (node_document data q n c)) b w Hb Hw) as Hs.
    destruct (buffer_and_flush _ _ _ _ _ _ _) as [[b'|e] w']; exact Hs. }
  assert (Hinit : I [] (∅ : gmap string string,
                        PyDict.from_keys NODE_COLLECTIONS []) w0).
  { split; [| exact Hw0]. cbn [snd]. rewrite node_buffers_start.
    apply empty_buffers_below. }
  pose proof (for_each_inv I J _ Hstep (fun _ _ _ _ H => H) data [] _ w0 Hinit)
    as Hloop.
  destruct (for_each data _ _ w0) as [[[tbl batches]|e] w1];
    [| exact Hloop].
  destruct Hloop as [Hb Hw1]. cbn [snd] in Hb.
  pose proof (flush_remaining_bounded (fun _ => None) batch_size db batches
                Hb w1 Hw1) as Hf.
  rewrite (for_each_ext (flush_remaining_nodes db)
             (flush_remaining (fun _ => None) db))
    by (intros; apply flush_remaining_nodes_eq).
  destruct (for_each batches _ tt w1) as [[u|e] w2]; exact Hf.
Qed.

Lemma ingest_edges_bounded (batch_size : nat) (db : destination arango_doc)
    (data : list (string * Node.t)) (tbl : gmap string string) :
  keeps (batches_bounded batch_size) (ingest_edges_with batch_size db data tbl).
Proof.
  intros w0 Hw0. unfold ingest_edges_with, bind.
  rewrite (for_each_nested (fun item => Node.relations (snd item)) _
             (ingest_edges_body batch_size db data tbl))
    by (intros [q n] s w; reflexivity).
  pose (I := fun (_ : list Rel.t) (b : list (string * list arango_doc))
                 (w : world arango_doc) =>
               buffers_below batch_size b /\ batches_bounded batch_size w).
  pose (J := fun (_ : list Rel.t) (_ : string) (w : world arango_doc) =>
               batches_bounded batch_size w).
  assert (Hstep : forall pre x s w, I pre s w ->
            match ingest_edges_body batch_size db data tbl x s w with
            | (Return s', w') => I (pre ++ [x]) s' w'
            | (Raise e, w') => J (pre ++ [x]) e w'
            end).
  { intros pre rel b w [Hb Hw]. rewrite ingest_edges_body_buffer. unfold I, J.
    destruct (resolve_relation data tbl rel) as [[c e]|]; [| auto].
    pose proof (buffer_and_flush_bounded (Some (edges_warning c)) batch_size
                  db c (EdgeD e) b w Hb Hw) as Hs.
    destruct (buffer_and_flush _ _ _ _ _ _ _) as [[b'|err] w']; exact Hs. }
  assert (Hinit : I [] (PyDict.from_keys (elements edge_collections) []) w0).
  { split; [| exact Hw0]. rewrite edge_buffers_start.
    apply empty_buffers_below. }
  pose proof (for_each_inv I J _ Hstep (fun _ _ _ _ H => H)
                (flat_map (fun item => Node.relations (snd item)) data)
                [] _ w0 Hinit) as Hloop.
  destruct (for_each _ _ _ w0) as [[batches|e] w1]; [| exact Hloop].
  destruct Hloop as [Hb Hw1].
  pose proof (flush_remaining_bounded (fun c => Some (edges_warning c))
                batch_size db batches Hb w1 Hw1) as Hf.
  rewrite (for_each_ext (flush_remaining_edges db)
             (flush_remaining (fun c => Some (edges_warning c)) db))
    by (intros; apply flush_remaining_edges_eq).
  destruct (for_each batches _ tt w1) as [[u|e] w2]; exact Hf.
Qed.

Lemma batches_bounded_print {D : Type} (batch_size : nat) (line : string) :
  keeps (D := D) (batches_bounded batch_size) (print line).
Proof. intros w Hw. exact Hw. Qed.

(** X12. Batches are bounded: whatever the destination answers, every
    import made by [ingest_nodes] and [ingest_edges] carries at least one
    document and at most [batch_size] of them (with the scripts' threshold
    of 1000, between 1 and 1000). *)
Theorem X12_graph_batches_are_bounded (batch_size : nat)
    (db : destination arango_doc) (data : list (string * Node.t)) :
  batches_bounded batch_size
    (snd (ingest_all_with batch_size db data start_world))
  /\ Forall (fun k => (1 <= length (call_docs k) <= 1000)%nat)
       (calls (snd (ingest_all db data start_world))).
Proof.
  assert (Hk : forall B, keeps (batches_bounded B) (ingest_all_with B db data)).
  { intros B. unfold ingest_all_with.
    apply keeps_bind; [apply batches_bounded_print | intros _].
    apply keeps_bind; [apply ingest_nodes_bounded | intros tbl].
    apply keeps_bind; [apply batches_bounded_print | intros _].
    apply keeps_bind; [apply batches_bounded_print | intros _].
    apply keeps_bind; [apply ingest_edges_bounded | intros _].
    apply batches_bounded_print. }
  split.
  - apply Hk. constructor.
  - apply (Hk 1000%nat start_world). constructor.
Qed.

(** X13. Search batches are bounded: whatever the destination answers,
    every import made by [ingest_documents] carries at least one document
    and at most [batch_size] of them (with the script's threshold, between
    1 and 100). *)
Theorem X13_search_batches_are_bounded {L : StrLower} (batch_size : nat)
    (client : destination SearchDoc.t) (data : list (string * Node.t))
    (cn : string) :
  batches_bounded batch_size
    (snd (ingest_documents_with batch_size client data cn start_world))
  /\ Forall (fun k => (1 <= length (call_docs k) <= 100)%nat)
       (calls (snd (ingest_documents client data cn start_world))).
Proof.
  assert (Hk : forall B w0, batches_bounded B w0 ->
            batches_bounded B (snd (ingest_documents_with B client data cn w0))).
  { intros B w0 Hw0. unfold ingest_documents_with. unfold bind at 1.
    assert (Himp : forall batch total (fmt : string -> string),
              (1 <= length batch <= Nat.max 1 B)%nat ->
              keeps (batches_bounded B)
                (try_except
                   (import_bulk client cn batch ;;; ret (total + length batch)%nat)
                   (fun e => print (fmt e) ;;; ret total))).
    { intros batch total fmt Hlen. apply keeps_try_except.
      - apply keeps_bind; [| intros _; apply keeps_ret].
        apply (guarded_import_bounded None B client cn batch Hlen).
      - intros e. apply keeps_bind; [apply batches_bounded_print |].
        intros _. apply keeps_ret. }
    pose (I := fun (_ : list (string * Node.t)) (vars : list SearchDoc.t * nat)
                   (w : world SearchDoc.t) =>
                 (length (fst vars) < Nat.max 1 B)%nat /\ batches_bounded B w).
    pose (J := fun (_ : list (string * Node.t)) (_ : string)
                   (w : world SearchDoc.t) => batches_bounded B w).
    assert (Hstep : forall pre x s w, I pre s w ->
              match ingest_documents_body B client cn x s w with
              | (Return s', w') => I (pre ++ [x]) s' w'
              | (Raise e, w') => J (pre ++ [x]) e w'
              end).
    { intros pre [q n] [batch total] w [Hb Hw]. cbn [fst] in Hb.
      unfold ingest_documents_body, I, J.
      destruct (negb (should_index n)); [unfold ret; auto |].
      assert (Hlen : length (batch ++ [search_document q n]) = S (length batch))
        by (rewrite length_app; simpl; lia).
      destruct (Nat.leb_spec B (length (batch ++ [search_document q n])))
        as [Hfull | Hroom].
      - unfold bind at 1.
        pose proof (Himp (batch ++ [search_document q n]) total
                      (fun e => "  Warning: Failed to import batch: " +:+ e)
                      ltac:(lia) w Hw) as Hi.
        cbv beta in Hi.
        destruct (try_except _ _ w) as [[t|e] w']; cbn [snd] in Hi;
          [| exact Hi].
        unfold ret. cbn [fst]. split; [simpl; lia | exact Hi].
      - unfold ret. cbn [fst]. split; [lia | exact Hw]. }
    assert (Hinit : I [] ([], 0%nat) w0) by (split; [simpl; lia | exact Hw0]).
    pose proof (for_each_inv I J _ Hstep (fun _ _ _ _ H => H) data [] _ w0
                  Hinit) as Hloop.
    destruct (for_each data _ _ w0) as [[[batch total]|e] w1];
      [| exact Hloop].
    destruct Hloop as [Hb Hw1]. cbn [fst] in Hb.
    destruct batch as [|d ds]; [exact Hw1 |].
    apply (Himp (d :: ds) total
             (fun e => "  Warning: Failed to import final batch: " +:+ e));
      [simpl in *; lia | exact Hw1]. }
  split.
  - apply Hk. constructor.
  - apply (Hk 100%nat start_world). constructor.
Qed.

(* ===================================================================== *)
(** * The routing table and the node documents *)
(* ===================================================================== *)

Lemma routing_fold_size (data items : list (string * Node.t))
    (acc : gmap string string) :
  NoDup (map fst items) ->
  (forall k, In k (map fst items) -> acc !! k = None) ->
  size (fold_left routing_step items acc)
  = (size acc + length (classified_in data items))%nat.
Proof.
  revert acc. induction items as [|[k n] r IH]; intros acc Hnd Hfresh.
  - simpl. lia.
  - apply NoDup_cons in Hnd as [Hk Hnd]. cbn [fold_left].
    rewrite IH; [| exact Hnd |].
    + unfold classified_in. cbn [flat_map]. rewrite length_app.
      unfold routing_step, classify_entry. cbn [fst snd].
      destruct (determine_collection n) as [c|]; simpl; [| lia].
      rewrite map_size_insert_None; [lia |].
      apply Hfresh. now left.
    + intros k' Hk'. unfold routing_step. cbn [fst snd].
      assert (Hne : k <> k').
      { intros ->. apply Hk. now apply list_elem_of_In. }
      destruct (determine_collection n);
        [rewrite lookup_insert_ne by exact Hne |]; apply Hfresh; now right.
Qed.

Lemma routing_table_size (data : list (string * Node.t)) :
  NoDup (map fst data) ->
  size (routing_table data) = length (classified data).
Proof.
  intros Hnd. unfold routing_table, classified.
  rewrite (routing_fold_size data data ∅ Hnd); [now rewrite map_size_empty |].
  intros k _. apply lookup_empty.
Qed.

(** X14. When [ingest_nodes] returns, the table it returns holds exactly
    the qnames whose entity classifies, each with its node class, and has
    as many entries as node documents were produced. *)
Theorem X14_returned_routing_table (batch_size : nat)
    (db : destination arango_doc) (data : list (string * Node.t))
    (tbl : gmap string string) (w : world arango_doc) :
  NoDup (map fst data) ->
  ingest_nodes_with batch_size db data start_world = (Return tbl, w) ->
  (forall qname,
     tbl !! qname = PyDict.get qname data ≫= determine_collection)
  /\ size tbl = length (classified data).
Proof.
  intros Hnd Hrun.
  pose proof (ingest_nodes_with_spec batch_size db data start_world) as Hs.
  rewrite Hrun in Hs. destruct Hs as [-> _]. split.
  - intros q. now apply routing_table_lookup.
  - now apply routing_table_size.
Qed.

Lemma shop_nodes_run :
  ingest_nodes_with 2 always_up shop_data start_world
  = (Return (routing_table shop_data),
     snd (ingest_nodes_with 2 always_up shop_data start_world)).
Proof.
  destruct (ingest_nodes_with_up 2 always_up shop_data start_world
              (fun _ _ _ => eq_refl) all_accepted_start) as (w & Hrun & _).
  now rewrite Hrun.
Qed.

Lemma X14_witness :
  (forall qname,
     routing_table shop_data !! qname
     = PyDict.get qname shop_data ≫= determine_collection)
  /\ size (routing_table shop_data) = length (classified shop_data).
Proof.
  apply (X14_returned_routing_table 2 always_up shop_data
           (routing_table shop_data)
           (snd (ingest_nodes_with 2 always_up shop_data start_world))).
  - exact shop_data_NoDup.
  - exact shop_nodes_run.
Defined.

Lemma ingest_nodes_handed (batch_size : nat) (db : destination arango_doc)
    (data : list (string * Node.t)) :
  Handed start_world (classified data)
    (snd (ingest_nodes_with batch_size db data start_world)).
Proof.
  pose proof (ingest_nodes_with_spec batch_size db data start_world) as Hs.
  destruct (ingest_nodes_with batch_size db data start_world) as [[tbl|e] w];
    cbn [snd].
  - destruct Hs as [_ Hatt]. intros c. exists []. rewrite app_nil_r. apply Hatt.
  - apply Hs.
Qed.

(** X15. The node collection of a document follows from its normalised
    kind: whatever the destination answers, a document handed to
    ["functions"] has kind ["function"] (also for an async function, which
    alone carries [is_async]), one handed to ["types"] kind ["class"], to
    ["modules"] kind ["module"], to ["members"] kind ["assignment"] or
    ["augmented_assignment"], and conversely; its key is the key of its
    qname, and [is_method] is set only in ["functions"], when the parent
    qname is that of a class of the input. *)
Theorem X15_node_documents (batch_size : nat) (db : destination arango_doc)
    (data : list (string * Node.t)) (k : call arango_doc) (d : arango_doc) :
  In k (calls (snd (ingest_nodes_with batch_size db data start_world))) ->
  In d (call_docs k) ->
  exists doc node,
    d = NodeD doc
    /\ In (NodeDoc.qname doc, node) data
    /\ NodeDoc._key doc = make_key (NodeDoc.qname doc)
    /\ (call_collection k = "functions" <-> NodeDoc.kind doc = Some "function")
    /\ (call_collection k = "types" <-> NodeDoc.kind doc = Some "class")
    /\ (call_collection k = "modules" <-> NodeDoc.kind doc = Some "module")
    /\ (call_collection k = "members" <->
        NodeDoc.kind doc = Some "assignment"
        \/ NodeDoc.kind doc = Some "augmented_assignment")
    /\ (NodeDoc.is_async doc = true <->
        Node.kind node = Some "async_function")
    /\ (NodeDoc.is_method doc = true <->
        call_collection k = "functions"
        /\ exists parent parent_node,
             Node.parent_qualified_name node = Some parent
             /\ PyStr.truthy parent = true
             /\ PyDict.get parent data = Some parent_node
             /\ Node.kind parent_node = Some "class").
Proof.
  intros Hk Hd.
  pose proof (handed_in_stream _ _ k d (ingest_nodes_handed batch_size db data)
                Hk Hd) as Hin.
  apply in_classified in Hin as (q & n & Hqn & Hc & ->).
  set (c := call_collection k) in *. clearbody c.
  exists (node_document data q n c), n.
  split; [reflexivity |]. split; [exact Hqn |]. split; [reflexivity |].
  cbn [node_document NodeDoc.kind NodeDoc.is_async NodeDoc.is_method].
  assert (Hasync : opt_eqb (Node.kind n) "async_function" = true
                   <-> Node.kind n = Some "async_function")
    by apply opt_eqb_eq.
  assert (Hmethod :
    String.eqb c "functions"
    && PyStr.truthy_opt (Node.parent_qualified_name n)
    && match Node.parent_qualified_name n with
       | Some p => opt_eqb (Node.kind (default Node.empty (PyDict.get p data)))
                     "class"
       | None => false
       end = true
    <-> c = "functions"
        /\ exists parent parent_node,
             Node.parent_qualified_name n = Some parent
             /\ PyStr.truthy parent = true
             /\ PyDict.get parent data = Some parent_node
             /\ Node.kind parent_node = Some "class").
  { rewrite !andb_true_iff, String.eqb_eq. split.
    - intros [[Hcf Ht] Hp]. split; [exact Hcf |].
      destruct (Node.parent_qualified_name n) as [p|]; [| discriminate].
      apply opt_eqb_eq in Hp.
      destruct (PyDict.get p data) as [pn|] eqn:Hpn; [| discriminate].
      exists p, pn. auto.
    - intros [Hcf (p & pn & Hp & Ht & Hpn & Hkc)].
      rewrite Hp, Hpn. cbn [from_option id PyStr.truthy_opt].
      rewrite Hkc, Ht. auto. }
  apply determine_collection_cases in Hc.
  unfold assignment_kind in Hc.
  destruct Hc as [[Hkind ->] | [[[Hkind | Hkind] ->] | [[Hkind ->]
                 | [[Hkind | Hkind] [-> _]]]]];
    rewrite Hkind in *;
    (split; [| split; [| split; [| split; [| split; [exact Hasync | exact Hmethod]]]]]);
    cbn [opt_eqb]; cbv [String.eqb Ascii.eqb Bool.eqb];
    split; intros H; try reflexivity; try discriminate;
    try (destruct H; discriminate); auto.
Qed.

Lemma X15_witness :
  let k := Call "functions"
             [NodeD (node_document shop_data "shop.Cart.__init__"
                       (entity "function" (Some "shop.Cart")
                          [relation "FUNCTION_DEF" "shop.Cart.__init__"
                             "shop.Cart"]) "functions");
              NodeD (node_document shop_data "shop.checkout"
                       (entity "async_function" (Some "shop")
                          [relation "CALLS" "shop.checkout" "shop.Cart";
                           relation "FUNCTION_DEF" "shop.checkout" "shop"])
                       "functions")] None in
  let d := NodeD (node_document shop_data "shop.checkout"
                    (entity "async_function" (Some "shop")
                       [relation "CALLS" "shop.checkout" "shop.Cart";
                        relation "FUNCTION_DEF" "shop.checkout" "shop"])
                    "functions") in
  exists doc node,
    d = NodeD doc
    /\ In (NodeDoc.qname doc, node) shop_data
    /\ NodeDoc._key doc = make_key (NodeDoc.qname doc)
    /\ (call_collection k = "functions" <-> NodeDoc.kind doc = Some "function")
    /\ (call_collection k = "types" <-> NodeDoc.kind doc = Some "class")
    /\ (call_collection k = "modules" <-> NodeDoc.kind doc = Some "module")
    /\ (call_collection k = "members" <->
        NodeDoc.kind doc = Some "assignment"
        \/ NodeDoc.kind doc = Some "augmented_assignment")
    /\ (NodeDoc.is_async doc = true <->
        Node.kind node = Some "async_function")
    /\ (NodeDoc.is_method doc = true <->
        call_collection k = "functions"
        /\ exists parent parent_node,
             Node.parent_qualified_name node = Some parent
             /\ PyStr.truthy parent = true
             /\ PyDict.get parent shop_data = Some parent_node
             /\ Node.kind parent_node = Some "class").
Proof.
  apply (X15_node_documents 1000 always_up shop_data).
  - vm_compute. left. reflexivity.
  - simpl. right. left. reflexivity.
Defined.

(* ===================================================================== *)
(** * The address of the search server *)
(* ===================================================================== *)

Lemma split_once_found (c : ascii) (host rest : string) :
  free_of c host = true ->
  split_once c (host +:+ String c rest) = Some (host, rest).
Proof.
  induction host as [|a r IH]; intros Hfree.
  - rewrite append_nil_l. simpl. now rewrite Ascii.eqb_refl.
  - rewrite append_cons. simpl in *.
    destruct (Ascii.eqb a c); [discriminate |]. simpl in Hfree.
    now rewrite IH.
Qed.

Lemma split_once_none (c : ascii) (s : string) :
  free_of c s = true -> split_once c s = None.
Proof.
  induction s as [|a r IH]; [reflexivity |]. simpl.
  destruct (Ascii.eqb a c); [discriminate |]. simpl. intros H.
  now rewrite IH.
Qed.

Lemma split_once_free (c : ascii) (s host rest : string) :
  split_once c s = Some (host, rest) -> free_of c host = true.
Proof.
  revert host. induction s as [|a r IH]; intros host; [discriminate |].
  simpl. destruct (Ascii.eqb a c) eqn:E.
  - intros [= <- _]. reflexivity.
  - destruct (split_once c r) as [[b af]|]; [| discriminate].
    intros [= <- <-]. simpl. rewrite E. simpl. now apply (IH b).
Qed.

Lemma parse_url_https (py_int : string -> option Z) (rest : string) :
  parse_url py_int ("https://" +:+ rest)
  = match split_once ":" rest with
    | Some (host, port) =>
        match py_int port with
        | Some port => Some ("https", host, port)
        | None => None
        end
    | None => Some ("https", rest, 8108%Z)
    end.
Proof. rewrite !append_cons, append_nil_l. reflexivity. Qed.

Lemma parse_url_http (py_int : string -> option Z) (rest : string) :
  parse_url py_int ("http://" +:+ rest)
  = match split_once ":" rest with
    | Some (host, port) =>
        match py_int port with
        | Some port => Some ("http", host, port)
        | None => None
        end
    | None => Some ("http", rest, 8108%Z)
    end.
Proof. rewrite !append_cons, append_nil_l. reflexivity. Qed.

(** X16. Addresses are read back: for a host without [":"],
    [scheme://host:port] gives the scheme, the host and the port that
    [int] reads (and raises when [int] does), and [scheme://host] gives
    port 8108, for both schemes. *)
Theorem X16_parse_url_round_trip (py_int : string -> option Z)
    (host port : string) :
  free_of ":" host = true ->
  parse_url py_int ("https://" +:+ host +:+ ":" +:+ port)
  = option_map (fun p => ("https", host, p)) (py_int port)
  /\ parse_url py_int ("http://" +:+ host +:+ ":" +:+ port)
     = option_map (fun p => ("http", host, p)) (py_int port)
  /\ parse_url py_int ("https://" +:+ host) = Some ("https", host, 8108%Z)
  /\ parse_url py_int ("http://" +:+ host) = Some ("http", host, 8108%Z).
Proof.
  intros Hfree.
  assert (Hcut : split_once ":" (host +:+ ":" +:+ port) = Some (host, port)).
  { rewrite append_cons, append_nil_l. now apply split_once_found. }
  rewrite !parse_url_https, !parse_url_http, Hcut,
    (split_once_none ":" host Hfree).
  repeat split; destruct (py_int port); reflexivity.
Qed.

Lemma X16_witness :
  let py_int := fun s => if String.eqb s "8443" then Some 8443%Z else None in
  parse_url py_int ("https://" +:+ "search.example" +:+ ":" +:+ "8443")
  = option_map (fun p => ("https", "search.example", p)) (py_int "8443")
  /\ parse_url py_int ("http://" +:+ "search.example" +:+ ":" +:+ "8443")
     = option_map (fun p => ("http", "search.example", p)) (py_int "8443")
  /\ parse_url py_int ("https://" +:+ "search.example")
     = Some ("https", "search.example", 8108%Z)
  /\ parse_url py_int ("http://" +:+ "search.example")
     = Some ("http", "search.example", 8108%Z).
Proof.
  apply (X16_parse_url_round_trip
           (fun s => if String.eqb s "8443" then Some 8443%Z else None)
           "search.example" "8443").
  reflexivity.
Defined.

(** X17. An address without a scheme is read as an http address, and in
    whatever is read the protocol is http or https, https exactly for an
    address that starts with [https://], and the host contains no
    [":"]. *)
Theorem X17_parse_url_defaults (py_int : string -> option Z) (url : string) :
  (PyStr.startswith "https://" url = false ->
   PyStr.startswith "http://" url = false ->
   parse_url py_int url = parse_url py_int ("http://" +:+ url))
  /\ forall protocol host port,
       parse_url py_int url = Some (protocol, host, port) ->
       (protocol = "http" \/ protocol = "https")
       /\ (protocol = "https" <-> PyStr.startswith "https://" url = true)
       /\ free_of ":" host = true.
Proof.
  split.
  - intros H1 H2. rewrite parse_url_http. unfold parse_url.
    now rewrite H1, H2.
  - intros protocol host port. unfold parse_url.
    set (cut := if PyStr.startswith "https://" url then _ else _).
    assert (Hcut : (fst cut = "https" /\ PyStr.startswith "https://" url = true)
                   \/ (fst cut = "http"
                       /\ PyStr.startswith "https://" url = false)).
    { subst cut. destruct (PyStr.startswith "https://" url);
        [left; auto | right].
      destruct (PyStr.startswith "http://" url); auto. }
    destruct cut as [proto hp]. cbn [fst] in Hcut.
    destruct (split_once ":" hp) as [[h p]|] eqn:Hs.
    + destruct (py_int p) as [z|]; [| discriminate]. intros [= <- <- <-].
      apply split_once_free in Hs.
      destruct Hcut as [[-> Hh] | [-> Hh]]; rewrite Hh;
        (split; [auto |]); (split; [| exact Hs]);
        split; intros; congruence || reflexivity || discriminate.
    + intros [= <- <- <-].
      assert (Hfree : free_of ":" hp = true).
      { clear Hcut. induction hp as [|a r IH]; [reflexivity |].
        simpl in *. destruct (Ascii.eqb a ":"); [discriminate |].
        destruct (split_once ":" r) as [[b af]|]; [discriminate |].
        now apply IH. }
      destruct Hcut as [[-> Hh] | [-> Hh]]; rewrite Hh;
        (split; [auto |]); (split; [| exact Hfree]);
        split; intros; congruence || reflexivity || discriminate.
Qed.

Lemma X17_witness :
  let py_int := fun s => if String.eqb s "8443" then Some 8443%Z else None in
  parse_url py_int "search.example:8443"
  = parse_url py_int ("http://" +:+ "search.example:8443")
  /\ (("http" = "http" \/ "http" = "https")
      /\ ("http" = "https"
          <-> PyStr.startswith "https://" "search.example:8443" = true)
      /\ free_of ":" "search.example" = true).
Proof.
  split.
  - apply (proj1 (X17_parse_url_defaults
                    (fun s => if String.eqb s "8443" then Some 8443%Z else None)
                    "search.example:8443")); reflexivity.
  - apply (proj2 (X17_parse_url_defaults
                    (fun s => if String.eqb s "8443" then Some 8443%Z else None)
                    "search.example:8443") "http" "search.example" 8443%Z).
    reflexivity.
Defined.

(* ===================================================================== *)
(** * [setup_database] *)
(* ===================================================================== *)

Lemma attempt_refused_or_created (db : Provision.database)
    (r : Provision.request) (w : Provision.world) :
  db (Provision.requests w) r = None
  \/ db (Provision.requests w) r = Some (Provision.refusal r) ->
  exists w',
    Provision.attempt db (Provision.refusal r) r (Provision.created_line r) w
    = (None, w')
    /\ Provision.requests w'
       = Provision.requests w ++ Provision.answers db (Provision.requests w) [r]
    /\ Provision.stdout w'
       = Provision.stdout w
         ++ Provision.lines_of
              (Provision.answers db (Provision.requests w) [r]).
Proof.
  intros Hdb. unfold Provision.attempt, Provision.lines_of.
  cbn [Provision.answers flat_map fst snd].
  destruct Hdb as [-> | ->].
  - eexists. repeat split.
  - destruct r; cbn [Provision.refusal Provision.catches];
      eexists; repeat split; cbn [Provision.stdout];
      try now rewrite !app_nil_r.
Qed.

Lemma answers_app (db : Provision.database)
    (h : list (Provision.request * option Provision.error))
    (rs rs' : list Provision.request) :
  Provision.answers db h (rs ++ rs')
  = Provision.answers db h rs
    ++ Provision.answers db (h ++ Provision.answers db h rs) rs'.
Proof.
  revert h. induction rs as [|r rest IH]; intros h; simpl.
  - now rewrite app_nil_r.
  - rewrite IH, <- app_assoc. reflexivity.
Qed.

Lemma lines_of_app (h h' : list (Provision.request * option Provision.error)) :
  Provision.lines_of (h ++ h') = Provision.lines_of h ++ Provision.lines_of h'.
Proof. unfold Provision.lines_of. apply flat_map_app. Qed.

Lemma create_collections_run (db : Provision.database) (edge : bool)
    (names : list string) (w : Provision.world) :
  Provision.refuses_only_existing db ->
  exists w',
    Provision.create_collections db edge
      (if edge then "  Created edge collection: " else "  Created collection: ")
      names w = (None, w')
    /\ Provision.requests w'
       = Provision.requests w
         ++ Provision.answers db (Provision.requests w)
              (map (fun n => Provision.CreateCollection n edge) names)
    /\ Provision.stdout w'
       = Provision.stdout w
         ++ Provision.lines_of
              (Provision.answers db (Provision.requests w)
                 (map (fun n => Provision.CreateCollection n edge) names)).
Proof.
  intros Hdb. revert w. induction names as [|n rest IH]; intros w.
  - exists w. cbn. now rewrite !app_nil_r.
  - cbn [Provision.create_collections map].
    destruct (attempt_refused_or_created db
                (Provision.CreateCollection n edge) w (Hdb _ _))
      as (w1 & Hrun & Hreq & Hout).
    assert (Hline : Provision.created_line (Provision.CreateCollection n edge)
                    = (if edge then "  Created edge collection: "
                       else "  Created collection: ") +:+ n)
      by (destruct edge; reflexivity).
    cbn [Provision.refusal] in Hrun. rewrite Hline in Hrun. rewrite Hrun.
    destruct (IH w1) as (w2 & Hrun2 & Hreq2 & Hout2).
    exists w2. split; [exact Hrun2 |].
    change (Provision.CreateCollection n edge
            :: map (fun n0 => Provision.CreateCollection n0 edge) rest)
      with ([Provision.CreateCollection n edge]
            ++ map (fun n0 => Provision.CreateCollection n0 edge) rest).
    rewrite answers_app, lines_of_app, Hreq2, Hout2, Hreq, Hout.
    now rewrite !app_assoc.
Qed.

(** What a complete run of [setup_database] does. *)
Lemma setup_database_run (db : Provision.database) (edge_names : list string)
    (graph_name : string) (w : Provision.world) :
  Provision.refuses_only_existing db ->
  exists w',
    Provision.setup_database db edge_names graph_name w = (None, w')
    /\ Provision.requests w'
       = Provision.requests w
         ++ Provision.answers db (Provision.requests w)
              (Provision.plan edge_names graph_name)
    /\ Provision.stdout w'
       = Provision.stdout w
         ++ Provision.lines_of
              (Provision.answers db (Provision.requests w)
                 (Provision.plan edge_names graph_name)).
Proof.
  intros Hdb. unfold Provision.setup_database, Provision.plan.
  generalize NODE_COLLECTIONS EDGE_DEFINITIONS. intros node_names defs.
  destruct (create_collections_run db false node_names w Hdb)
    as (w1 & Hrun1 & Hreq1 & Hout1).
  cbv iota in Hrun1. rewrite Hrun1.
  destruct (create_collections_run db true edge_names w1 Hdb)
    as (w2 & Hrun2 & Hreq2 & Hout2).
  cbv iota in Hrun2. rewrite Hrun2.
  destruct (attempt_refused_or_created db
              (Provision.CreateGraph graph_name defs) w2 (Hdb _ _))
    as (w3 & Hrun3 & Hreq3 & Hout3).
  cbn [Provision.refusal Provision.created_line] in Hrun3.
  exists w3. split; [exact Hrun3 |].
  rewrite (answers_app db (Provision.requests w)),
    (answers_app db (Provision.requests w ++ _)), !lines_of_app.
  rewrite Hreq3, Hout3, Hreq2, Hout2, Hreq1, Hout1.
  now rewrite !app_assoc.
Qed.

Lemma answers_requests (db : Provision.database)
    (h : list (Provision.request * option Provision.error))
    (rs : list Provision.request) :
  map fst (Provision.answers db h rs) = rs.
Proof.
  revert h. induction rs as [|r rest IH]; intros h; simpl;
    [reflexivity | now rewrite IH].
Qed.

Lemma edge_collections_length :
  length (elements edge_collections) = 8%nat.
Proof. vm_compute. reflexivity. Qed.

Lemma plan_length (edge_names : list string) (graph_name : string) :
  Provision.set_order edge_names ->
  length (Provision.plan edge_names graph_name) = 14%nat.
Proof.
  intros Hord. unfold Provision.plan.
  rewrite !length_app, !length_map.
  rewrite (Permutation_length Hord), edge_collections_length. reflexivity.
Qed.

(** X18. Against a database that refuses a request only because its
    object exists, [setup_database] returns normally after fourteen
    requests: the five node collections in the order of
    [NODE_COLLECTIONS], the eight edge collections (as edge collections) in
    the order the set is iterated, and last the graph with the edge
    definitions. It prints one line for each request that succeeded and
    none for a refused one. *)
Theorem X18_setup_database_requests (db : Provision.database)
    (edge_names : list string) (graph_name : string) (w : Provision.world) :
  Provision.refuses_only_existing db ->
  Provision.set_order edge_names ->
  exists w' new,
    Provision.setup_database db edge_names graph_name w = (None, w')
    /\ Provision.requests w' = Provision.requests w ++ new
    /\ map fst new = Provision.plan edge_names graph_name
    /\ length new = 14%nat
    /\ Provision.stdout w' = Provision.stdout w ++ Provision.lines_of new.
Proof.
  intros Hdb Hord.
  destruct (setup_database_run db edge_names graph_name w Hdb)
    as (w' & Hrun & Hreq & Hout).
  exists w', (Provision.answers db (Provision.requests w)
                (Provision.plan edge_names graph_name)).
  split; [exact Hrun |]. split; [exact Hreq |].
  split; [apply answers_requests |]. split; [| exact Hout].
  rewrite <- (length_map fst), answers_requests.
  now apply plan_length.
Qed.

Lemma fresh_database_refuses :
  Provision.refuses_only_existing Provision.fresh_database.
Proof.
  intros h r. unfold Provision.fresh_database.
  destruct (Provision.created_in h r); auto.
Qed.

Lemma X18_witness :
  exists w' new,
    Provision.setup_database Provision.fresh_database
      (elements edge_collections) "codegraph" (Provision.World [] [])
    = (None, w')
    /\ Provision.requests w' = [] ++ new
    /\ map fst new = Provision.plan (elements edge_collections) "codegraph"
    /\ length new = 14%nat
    /\ Provision.stdout w' = [] ++ Provision.lines_of new.
Proof.
  exact (X18_setup_database_requests Provision.fresh_database
           (elements edge_collections) "codegraph" (Provision.World [] [])
           fresh_database_refuses (Permutation_refl _)).
Defined.

Lemma same_object_refl (r : Provision.request) :
  Provision.same_object r r = true.
Proof. destruct r; simpl; apply String.eqb_refl. Qed.

Lemma created_in_app (h h' : list (Provision.request * option Provision.error))
    (r : Provision.request) :
  Provision.created_in (h ++ h') r
  = Provision.created_in h r || Provision.created_in h' r.
Proof. unfold Provision.created_in. apply existsb_app. Qed.

Lemma created_after_answers (db : Provision.database)
    (rs : list Provision.request)
    (h : list (Provision.request * option Provision.error))
    (r : Provision.request) :
  Provision.keeps_what_it_created db ->
  In r rs ->
  Provision.created_in (h ++ Provision.answers db h rs) r = true.
Proof.
  intros Hdb. revert h. induction rs as [|r0 rest IH]; intros h Hin;
    [destruct Hin |].
  cbn [Provision.answers].
  replace (h ++ (r0, db h r0)
             :: Provision.answers db (h ++ [(r0, db h r0)]) rest)
    with ((h ++ [(r0, db h r0)])
            ++ Provision.answers db (h ++ [(r0, db h r0)]) rest)
    by (now rewrite <- app_assoc).
  destruct Hin as [-> | Hin]; [| now apply IH].
  rewrite created_in_app, created_in_app. rewrite (Hdb h r).
  destruct (Provision.created_in h r) eqn:E; [reflexivity |].
  unfold Provision.created_in at 1. cbn [existsb fst snd].
  now rewrite same_object_refl.
Qed.

Lemma answers_all_refused (db : Provision.database)
    (rs : list Provision.request)
    (h : list (Provision.request * option Provision.error)) :
  Provision.keeps_what_it_created db ->
  (forall r, In r rs -> Provision.created_in h r = true) ->
  Provision.answers db h rs
  = map (fun r => (r, Some (Provision.refusal r))) rs.
Proof.
  intros Hdb. revert h. induction rs as [|r rest IH]; intros h Hall;
    [reflexivity |].
  cbn [Provision.answers map]. rewrite (Hdb h r), (Hall r) by now left.
  f_equal. apply IH. intros r' Hr'. rewrite created_in_app.
  rewrite (Hall r') by now right. reflexivity.
Qed.

Lemma plan_Permutation (names names' : list string) (graph_name : string) :
  Permutation names names' ->
  Permutation (Provision.plan names graph_name)
    (Provision.plan names' graph_name).
Proof.
  intros Hp. unfold Provision.plan.
  apply Permutation_app_head, Permutation_app_tail, Permutation_map, Hp.
Qed.

(** X19. Provisioning is idempotent: against a database that creates what
    does not exist and refuses what it created before, a second
    [setup_database], whatever the order in which it iterates the set of
    edge collections, has every one of its requests refused, creates and
    prints nothing, and returns normally. *)
Theorem X19_setup_database_is_idempotent (db : Provision.database)
    (edge_names edge_names' : list string) (graph_name : string)
    (w : Provision.world) :
  Provision.keeps_what_it_created db ->
  Permutation edge_names edge_names' ->
  exists w1 w2,
    Provision.setup_database db edge_names graph_name w = (None, w1)
    /\ Provision.setup_database db edge_names' graph_name w1 = (None, w2)
    /\ Provision.requests w2
       = Provision.requests w1
         ++ map (fun r => (r, Some (Provision.refusal r)))
              (Provision.plan edge_names' graph_name)
    /\ Provision.stdout w2 = Provision.stdout w1.
Proof.
  intros Hdb Hperm.
  assert (Hdb' : Provision.refuses_only_existing db).
  { intros h r. rewrite (Hdb h r). destruct (Provision.created_in h r); auto. }
  destruct (setup_database_run db edge_names graph_name w Hdb')
    as (w1 & Hrun1 & Hreq1 & _).
  destruct (setup_database_run db edge_names' graph_name w1 Hdb')
    as (w2 & Hrun2 & Hreq2 & Hout2).
  assert (Hrefused : Provision.answers db (Provision.requests w1)
                       (Provision.plan edge_names' graph_name)
                     = map (fun r => (r, Some (Provision.refusal r)))
                         (Provision.plan edge_names' graph_name)).
  { apply answers_all_refused; [exact Hdb |]. intros r Hr.
    rewrite Hreq1. apply created_after_answers; [exact Hdb |].
    apply (Permutation_in r (Permutation_sym
             (plan_Permutation edge_names edge_names' graph_name Hperm))).
    exact Hr. }
  exists w1, w2. split; [exact Hrun1 |]. split; [exact Hrun2 |].
  rewrite Hreq2, Hout2, Hrefused. split; [reflexivity |].
  assert (Hnone : forall rs,
            Provision.lines_of
              (map (fun r => (r, Some (Provision.refusal r))) rs) = []).
  { induction rs as [|r rest IH]; [reflexivity | exact IH]. }
  now rewrite Hnone, app_nil_r.
Qed.

Lemma fresh_database_keeps :
  Provision.keeps_what_it_created Provision.fresh_database.
Proof. intros h r. reflexivity. Qed.

Lemma X19_witness :
  exists w1 w2,
    Provision.setup_database Provision.fresh_database ["calls"; "parent"]
      "codegraph" (Provision.World [] []) = (None, w1)
    /\ Provision.setup_database Provision.fresh_database ["parent"; "calls"]
         "codegraph" w1 = (None, w2)
    /\ Provision.requests w2
       = Provision.requests w1
         ++ map (fun r => (r, Some (Provision.refusal r)))
              (Provision.plan ["parent"; "calls"] "codegraph")
    /\ Provision.stdout w2 = Provision.stdout w1.
Proof.
  exact (X19_setup_database_is_idempotent Provision.fresh_database
           ["calls"; "parent"] ["parent"; "calls"] "codegraph"
           (Provision.World [] []) fresh_database_keeps
           (perm_swap "parent" "calls" [])).
Defined.

Lemma create_collections_attempts (db : Provision.database) (edge : bool)
    (names : list string) (w : Provision.world) :
  Provision.create_collections db edge
    (if edge then "  Created edge collection: " else "  Created collection: ")
    names w
  = Provision.attempts db
      (map (fun n => Provision.CreateCollection n edge) names) w.
Proof.
  revert w. induction names as [|n rest IH]; intros w; [reflexivity |].
  cbn [Provision.create_collections Provision.attempts map Provision.refusal].
  replace (Provision.created_line (Provision.CreateCollection n edge))
    with ((if edge then "  Created edge collection: "
           else "  Created collection: ") +:+ n)
    by (destruct edge; reflexivity).
  destruct (Provision.attempt _ _ _ _ w) as [[e|] w1]; [reflexivity | apply IH].
Qed.

Lemma attempts_app (db : Provision.database) (rs rs' : list Provision.request)
    (w : Provision.world) :
  Provision.attempts db (rs ++ rs') w
  = match Provision.attempts db rs w with
    | (None, w') => Provision.attempts db rs' w'
    | (Some e, w') => (Some e, w')
    end.
Proof.
  revert w. induction rs as [|r rest IH]; intros w; [reflexivity |].
  cbn [app Provision.attempts].
  destruct (Provision.attempt _ _ _ _ w) as [[e|] w1]; [reflexivity | apply IH].
Qed.

(** [setup_database] is the sequence of guarded requests of its plan. *)
Lemma setup_database_attempts (db : Provision.database)
    (edge_names : list string) (graph_name : string) (w : Provision.world) :
  Provision.setup_database db edge_names graph_name w
  = Provision.attempts db (Provision.plan edge_names graph_name) w.
Proof.
  unfold Provision.setup_database, Provision.plan.
  generalize NODE_COLLECTIONS EDGE_DEFINITIONS. intros node_names defs.
  rewrite attempts_app, <- (create_collections_attempts db false).
  destruct (Provision.create_collections db false _ node_names w)
    as [[e|] w1]; [reflexivity |].
  rewrite attempts_app, <- (create_collections_attempts db true).
  destruct (Provision.create_collections db true _ edge_names w1)
    as [[e|] w2]; [reflexivity |].
  cbn [Provision.attempts Provision.refusal Provision.created_line].
  destruct (Provision.attempt _ _ _ _ w2) as [[e|] w3]; reflexivity.
Qed.

Lemma attempts_stop (db : Provision.database)
    (pre : list Provision.request) (r : Provision.request)
    (post : list Provision.request) (e : Provision.error)
    (w : Provision.world) :
  Forall Provision.goes_on (Provision.answers db (Provision.requests w) pre) ->
  db (Provision.requests w
      ++ Provision.answers db (Provision.requests w) pre) r = Some e ->
  Provision.catches (Provision.refusal r) e = false ->
  exists w',
    Provision.attempts db (pre ++ r :: post) w = (Some e, w')
    /\ Provision.requests w'
       = Provision.requests w
         ++ Provision.answers db (Provision.requests w) pre ++ [(r, Some e)]
    /\ Provision.stdout w'
       = Provision.stdout w
         ++ Provision.lines_of
              (Provision.answers db (Provision.requests w) pre).
Proof.
  revert w. induction pre as [|r0 rest IH]; intros w Hok Hdb He.
  - cbn [app Provision.answers] in *. rewrite app_nil_r in Hdb.
    cbn [Provision.attempts]. unfold Provision.attempt.
    rewrite Hdb, He. eexists. split; [reflexivity |].
    cbn [Provision.requests Provision.stdout Provision.lines_of flat_map].
    split; [reflexivity | now rewrite app_nil_r].
  - cbn [Provision.answers] in Hok, Hdb. inversion Hok as [|x l Hx Hrest]; subst.
    destruct (attempt_refused_or_created db r0 w Hx)
      as (w1 & Hrun & Hreq & Hout).
    cbn [Provision.answers] in Hreq, Hout.
    cbn [app Provision.attempts]. rewrite Hrun.
    rewrite <- Hreq in Hrest.
    destruct (IH w1 Hrest) as (w' & Hrun' & Hreq' & Hout'); [| exact He |].
    { rewrite Hreq, <- app_assoc. exact Hdb. }
    exists w'. split; [exact Hrun' |].
    cbn [Provision.answers]. rewrite Hreq', Hout'.
    change ((r0, db (Provision.requests w) r0)
            :: Provision.answers db
                 (Provision.requests w ++ [(r0, db (Provision.requests w) r0)])
                 rest)
      with ([(r0, db (Provision.requests w) r0)]
            ++ Provision.answers db
                 (Provision.requests w ++ [(r0, db (Provision.requests w) r0)])
                 rest).
    rewrite lines_of_app, Hreq, Hout, <- !app_assoc. split; reflexivity.
Qed.

(** X20. Only the refusal of a request is swallowed. If the requests
    before [r] of the plan were all created or refused, and the database
    answers [r] with an exception that the handler around [r] does not
    catch (anything but [CollectionCreateError] for a collection, anything
    but [GraphCreateError] for the graph), then [setup_database] raises
    that exception, [r] is its last request, and nothing is printed for
    it. *)
Theorem X20_setup_database_propagates_other_errors (db : Provision.database)
    (edge_names : list string) (graph_name : string)
    (pre : list Provision.request) (r : Provision.request)
    (post : list Provision.request) (e : Provision.error)
    (w : Provision.world) :
  Provision.plan edge_names graph_name = pre ++ r :: post ->
  Forall Provision.goes_on (Provision.answers db (Provision.requests w) pre) ->
  db (Provision.requests w
      ++ Provision.answers db (Provision.requests w) pre) r = Some e ->
  Provision.catches (Provision.refusal r) e = false ->
  exists w',
    Provision.setup_database db edge_names graph_name w = (Some e, w')
    /\ Provision.requests w'
       = Provision.requests w
         ++ Provision.answers db (Provision.requests w) pre ++ [(r, Some e)]
    /\ Provision.stdout w'
       = Provision.stdout w
         ++ Provision.lines_of
              (Provision.answers db (Provision.requests w) pre).
Proof.
  intros Hplan Hok Hdb He. rewrite setup_database_attempts, Hplan.
  now apply attempts_stop.
Qed.

Lemma X20_witness :
  exists w',
    Provision.setup_database types_forbidden ["calls"] "codegraph"
      (Provision.World [] [])
    = (Some (Provision.OtherError "forbidden"), w')
    /\ Provision.requests w'
       = [] ++ Provision.answers types_forbidden []
                 [Provision.CreateCollection "functions" false]
         ++ [(Provision.CreateCollection "types" false,
              Some (Provision.OtherError "forbidden"))]
    /\ Provision.stdout w'
       = [] ++ Provision.lines_of
                 (Provision.answers types_forbidden []
                    [Provision.CreateCollection "functions" false]).
Proof.
  apply (X20_setup_database_propagates_other_errors types_forbidden ["calls"]
           "codegraph" [Provision.CreateCollection "functions" false]
           (Provision.CreateCollection "types" false)
           (map (fun n => Provision.CreateCollection n false)
              ["members"; "files"; "modules"]
            ++ map (fun n => Provision.CreateCollection n true) ["calls"]
            ++ [Provision.CreateGraph "codegraph" EDGE_DEFINITIONS])
           (Provision.OtherError "forbidden") (Provision.World [] [])).
  - reflexivity.
  - repeat constructor.
  - reflexivity.
  - reflexivity.
Defined.

(* ===================================================================== *)
(** * The search documents handed over *)
(* ===================================================================== *)

Lemma if_truthy_not_empty (x : option string) : if_truthy x <> Some "".
Proof. destruct x as [[|a r]|]; unfold if_truthy; simpl; congruence. Qed.

Lemma truthy_int_not_zero (x : option Z) :
  (if truthy_int x then x else None) <> Some 0%Z.
Proof.
  destruct x as [z|]; simpl; [| congruence].
  destruct (Z.eqb_spec z 0); simpl; congruence.
Qed.

(** X21. Every search document that [ingest_documents] hands over,
    whatever the destination answers, goes to the given collection and is
    the document of an indexed entity of the input under its qname; its
    kind is one of the five indexable kinds, never the default
    ["unknown"]; its language is ["python"]; and an optional attribute is
    left out rather than set to an empty string or to position 0. *)
Theorem X21_search_documents {L : StrLower} (batch_size : nat)
    (client : destination SearchDoc.t) (data : list (string * Node.t))
    (cn : string) (k : call SearchDoc.t) (d : SearchDoc.t) :
  In k (calls (snd (ingest_documents_with batch_size client data cn
                      start_world))) ->
  In d (call_docs k) ->
  call_collection k = cn
  /\ (exists node,
        In (SearchDoc.qname d, node) data /\ should_index node = true
        /\ d = search_document (SearchDoc.qname d) node
        /\ Node.kind node = Some (SearchDoc.kind d))
  /\ In (SearchDoc.kind d) INDEXABLE_KINDS
  /\ SearchDoc.language d = "python"
  /\ SearchDoc.code d <> Some "" /\ SearchDoc.doc d <> Some ""
  /\ SearchDoc.filepath d <> Some "" /\ SearchDoc.namespace d <> Some ""
  /\ SearchDoc.pos d <> Some 0%Z /\ SearchDoc.end_ d <> Some 0%Z.
Proof.
  intros Hk Hd.
  destruct (ingest_documents_with_spec batch_size client data cn start_world)
    as (total & w & Hrun & Hatt & Hother & _).
  rewrite Hrun in Hk. cbn [snd] in Hk.
  pose proof (in_attempted w k d Hk Hd) as Hin.
  assert (Hc : call_collection k = cn).
  { destruct (String.eqb_spec (call_collection k) cn) as [E | E]; [exact E |].
    rewrite (Hother _ E) in Hin. destruct Hin. }
  split; [exact Hc |]. rewrite Hc, Hatt in Hin. cbn [attempted app] in Hin.
  change (attempted cn start_world) with (@nil SearchDoc.t) in Hin.
  cbn [app] in Hin.
  apply in_indexed in Hin as (q & n & Hqn & Hidx & ->).
  destruct (proj1 (should_index_iff n) Hidx) as [(kind & Hkind & Hin) _].
  cbn [search_document SearchDoc.qname SearchDoc.kind SearchDoc.language
       SearchDoc.code SearchDoc.doc SearchDoc.filepath SearchDoc.namespace
       SearchDoc.pos SearchDoc.end_].
  rewrite Hkind. cbn [default from_option id].
  split; [exists n; repeat split; assumption |].
  split; [now apply str_in_In |].
  repeat split;
    solve [apply if_truthy_not_empty | apply truthy_int_not_zero].
Qed.

Lemma X21_witness :
  let L := ascii_only in
  let d := search_document "shop.Cart"
             (entity "class" (Some "shop")
                [relation "CLASS_DEF" "shop.Cart" "shop"]) in
  let k := Call "code_nodes" [search_document "shop" (entity "module" None []); d]
             None in
  call_collection k = "code_nodes"
  /\ (exists node,
        In (SearchDoc.qname d, node) shop_data /\ should_index node = true
        /\ d = search_document (SearchDoc.qname d) node
        /\ Node.kind node = Some (SearchDoc.kind d))
  /\ In (SearchDoc.kind d) INDEXABLE_KINDS
  /\ SearchDoc.language d = "python"
  /\ SearchDoc.code d <> Some "" /\ SearchDoc.doc d <> Some ""
  /\ SearchDoc.filepath d <> Some "" /\ SearchDoc.namespace d <> Some ""
  /\ SearchDoc.pos d <> Some 0%Z /\ SearchDoc.end_ d <> Some 0%Z.
Proof.
  apply (X21_search_documents 2 always_up shop_data "code_nodes").
  - vm_compute. left. reflexivity.
  - right. left. reflexivity.
Defined.

(* ===================================================================== *)
(** * The progress report of [main] *)
(* ===================================================================== *)

Lemma edge_warnings_accepted (w : world arango_doc) :
  all_accepted w -> edge_warnings w = [].
Proof.
  unfold all_accepted, edge_warnings. induction 1 as [|k r Hk _ IH];
    [reflexivity |].
  cbn [flat_map]. now rewrite Hk, IH.
Qed.

(** X22. What the two ingestion steps of [main] print. When node
    ingestion fails, only the first line is out and the error of the first
    failed import is raised. Otherwise the report is the first line, the
    number of node documents produced, the line for the edges, one warning
    per failed import (all of them edge imports), and the closing line. *)
Theorem X22_progress_report (batch_size : nat) (db : destination arango_doc)
    (data : list (string * Node.t)) :
  NoDup (map fst data) ->
  match ingest_all_with batch_size db data start_world with
  | (Return _, w) =>
      stdout w
      = ["Ingesting nodes...";
         "  Ingested " +:+ string_of_nat (length (classified data))
           +:+ " nodes";
         "Ingesting edges..."] ++ edge_warnings w ++ ["  Done"]
      /\ length (edge_warnings w) = length (failed_imports w)
  | (Raise e, w) => stdout w = ["Ingesting nodes..."] /\ stopped_at e w
  end.
Proof.
  intros Hnd. unfold ingest_all_with.
  unfold bind at 1. unfold print at 1. cbn [calls stdout start_world].
  set (w0 := World [] ([] ++ ["Ingesting nodes..."])).
  assert (Hw0 : all_accepted w0) by constructor.
  pose proof (ingest_nodes_with_spec batch_size db data w0) as Hs.
  pose proof (ingest_nodes_stops batch_size db data w0 Hw0) as Hst.
  unfold bind at 1.
  destruct (ingest_nodes_with batch_size db data w0) as [[tbl|e] w1].
  - destruct Hs as [-> _]. destruct Hst as [Hacc1 Hout1].
    unfold bind at 1. unfold print at 1.
    unfold bind at 1. unfold print at 1. cbn [calls stdout].
    set (w2 := World (calls w1) _).
    set (s := ["Ingesting nodes...";
               "  Ingested " +:+ string_of_nat (length (classified data))
                 +:+ " nodes";
               "Ingesting edges..."]).
    assert (Hw2 : stdout w2 = s ++ edge_warnings w2).
    { rewrite (edge_warnings_accepted w2) by exact Hacc1.
      unfold w2, s. cbn [stdout]. rewrite Hout1, routing_table_size by exact Hnd.
      reflexivity. }
    pose proof (ingest_edges_warnings s batch_size db data
                  (routing_table data) w2 Hw2) as Hout3.
    destruct (ingest_edges_with_spec batch_size db data (routing_table data) w2)
      as (w3 & Hrun3 & _).
    unfold bind at 1. rewrite Hrun3 in *. unfold print. cbn [snd] in Hout3.
    cbn [stdout]. split; [| apply edge_warnings_length].
    rewrite Hout3, <- app_assoc. reflexivity.
  - destruct Hst as [Hstop Hout1]. split; [exact Hout1 | exact Hstop].
Qed.

Lemma X22_witness :
  match ingest_all_with 2 functions_down shop_data start_world with
  | (Return _, w) =>
      stdout w
      = ["Ingesting nodes...";
         "  Ingested " +:+ string_of_nat (length (classified shop_data))
           +:+ " nodes";
         "Ingesting edges..."] ++ edge_warnings w ++ ["  Done"]
      /\ length (edge_warnings w) = length (failed_imports w)
  | (Raise e, w) => stdout w = ["Ingesting nodes..."] /\ stopped_at e w
  end.
Proof.
  apply (X22_progress_report 2 functions_down shop_data).
  exact shop_data_NoDup.
Defined.
